(** * quantum-database-backups: backup and restore pipelines

    A shallow embedding of the orchestration core of the qdb tool
    (utils.js, the four database providers and their registry, backup.js,
    encrypt.js, email.js, restore.js, config.js and the backup command of
    cli.js),
    followed by the properties the specification states about it.

    JavaScript objects are finite maps from property names to values,
    asynchronous functions are computations in a state-and-exception monad
    over a world made of the file system, the console, the list of spawned
    commands and the process environment.  Everything the program does not
    implement itself (the database tools, the archiver, the post-quantum
    cipher, the SMTP transport, the clock, the refusals of the operating
    system) is read from an environment record of oracles. *)

From Stdlib Require Import ZArith Ascii String List Bool Lia.
From Stdlib Require Import DecimalString DecimalZ DecimalPos.
From stdpp Require Import gmap strings list fin_maps.

Open Scope string_scope.
Open Scope Z_scope.

(** ** JavaScript values *)

(** Numbers are integers here: the values the program computes with are
    ports, sizes and calendar fields. *)
#[warnings="-register-all"]
Inductive JsVal : Type :=
| JUndefined
| JNull
| JBool (b : bool)
| JNum (n : Z)
| JStr (s : string)
| JArr (elts : list JsVal)
| JObj (props : gmap string JsVal).

Abbreviation JsObj := (gmap string JsVal).

(** ToBoolean. *)
Definition truthy (v : JsVal) : bool :=
  match v with
  | JUndefined | JNull => false
  | JBool b => b
  | JNum n => negb (n =? 0)
  | JStr s => negb (String.eqb s "")
  | JArr _ | JObj _ => true
  end.

(** Property read [o.k]: a missing property reads as [undefined]. *)
Definition get (o : JsObj) (k : string) : JsVal :=
  match o !! k with
  | Some v => v
  | None => JUndefined
  end.

(** Default of a destructuring pattern [{ k = d } = o]: the default is taken
    exactly when the property reads as [undefined]. *)
Definition get_default (o : JsObj) (k : string) (d : JsVal) : JsVal :=
  match get o k with
  | JUndefined => d
  | v => v
  end.

Definition string_of_Z (n : Z) : string :=
  NilZero.string_of_int (Z.to_int n).

Definition join (sep : string) (l : list string) : string :=
  String.concat sep l.

(** ToString, as template literals apply it. *)
Fixpoint to_string (v : JsVal) : string :=
  match v with
  | JUndefined => "undefined"
  | JNull => "null"
  | JBool true => "true"
  | JBool false => "false"
  | JNum n => string_of_Z n
  | JStr s => s
  | JArr l =>
      join "," (List.map (fun x => match x with
                                   | JUndefined | JNull => ""
                                   | _ => to_string x
                                   end) l)
  | JObj _ => "[object Object]"
  end.

(** [Array.prototype.join]: [undefined] and [null] elements print as the
    empty string. *)
Definition join_vals (sep : string) (l : list JsVal) : string :=
  join sep (List.map (fun x => match x with
                               | JUndefined | JNull => ""
                               | _ => to_string x
                               end) l).

(** [[...].filter(Boolean).join(' ')], the way the providers build their
    command lines. *)
Definition command_line (parts : list JsVal) : string :=
  join_vals " " (List.filter truthy parts).

(** ** Strings *)

Definition startsWith (s pre : string) : bool := String.prefix pre s.

Fixpoint includes (s needle : string) : bool :=
  String.prefix needle s ||
  match s with
  | EmptyString => false
  | String _ rest => includes rest needle
  end.

Fixpoint string_rev_acc (s acc : string) : string :=
  match s with
  | EmptyString => acc
  | String c rest => string_rev_acc rest (String c acc)
  end.

Definition string_rev (s : string) : string := string_rev_acc s "".

Definition endsWith (s suf : string) : bool :=
  String.prefix (string_rev suf) (string_rev s).

Fixpoint drop_chars (n : nat) (s : string) : string :=
  match n, s with
  | O, _ => s
  | S n', String _ rest => drop_chars n' rest
  | S _, EmptyString => EmptyString
  end.

Fixpoint repeat_char (n : nat) (c : ascii) : string :=
  match n with
  | O => EmptyString
  | S n' => String c (repeat_char n' c)
  end.

(** [s.padStart(target, c)] for a one-character filler. *)
Definition padStart (target : nat) (c : ascii) (s : string) : string :=
  repeat_char (target - String.length s) c ++ s.

(** [path.basename]: what follows the last separator. *)
Fixpoint basename_acc (s cur : string) : string :=
  match s with
  | EmptyString => string_rev cur
  | String c rest =>
      if Ascii.eqb c "/"%char then basename_acc rest "" else basename_acc rest (String c cur)
  end.

Definition basename (p : string) : string := basename_acc p "".

(** [path.join] of two segments.  Node also normalises the result (it drops
    a leading [./], for one); the model keeps the spelling as joined, which
    names the same file. *)
Definition path_join (a b : string) : string := a ++ "/" ++ b.

Definition is_digit (c : ascii) : bool :=
  let n := nat_of_ascii c in (48 <=? n)%nat && (n <=? 57)%nat.

Fixpoint all_digits (s : string) : bool :=
  match s with
  | EmptyString => true
  | String c rest => is_digit c && all_digits rest
  end.

Definition nl : string := String (ascii_of_nat 10) EmptyString.

(** ** The world the program runs in *)

(** A JavaScript error object: constructor name, [message], and the [code]
    that system errors carry. *)
Record JsError : Type := mkError {
  err_name : string;
  err_message : string;
  err_code : option string
}.

Definition Error (msg : string) : JsError := mkError "Error" msg None.
Definition TypeError (msg : string) : JsError := mkError "TypeError" msg None.
Definition SystemError (code msg : string) : JsError :=
  mkError "Error" (code ++ ": " ++ msg) (Some code).

(** An entry of the file system.  The text of a regular file is kept as
    what [JSON.parse] makes of it: [None] when the text is not JSON. *)
Inductive Node : Type :=
| Dir
| File (parsed : option JsVal).

(** One run of an external collaborator (a database tool, unzip, the
    archiver, the cipher): whether it left its output behind, the names it
    unpacked when its output is a directory, what it printed on stderr, and
    the message it failed with, if it failed. *)
Record Run : Type := mkRun {
  writes : bool;
  entries : list string;
  stderr : string;
  failure : option string
}.

(** The local-time getters of a [Date]. *)
Record Date : Type := mkDate {
  getFullYear : Z;
  getMonth : Z;
  getDate : Z;
  getHours : Z;
  getMinutes : Z;
  getSeconds : Z
}.

(** The file-system calls that change something: [fs.unlink], [fs.rm],
    [fs.mkdir], and the opening of a file for writing. *)
Inductive FsOp : Type := OpUnlink | OpRm | OpMkdir | OpWrite.

(** The message handed to the transport (its body text is carried along
    unchanged by the program and left out here). *)
Record Mail : Type := mkMail {
  mail_from : JsVal;
  mail_to : JsVal;
  mail_subject : string;
  mail_attachment : string
}.

(** What the program cannot decide by itself:
    - [clock n]: the [n]-th reading of the local clock;
    - [tool cmd]: the run of the command line [cmd] under [child_process.exec];
    - [refuses op p]: the error with which the operating system turns down
      the mutating call [op] on the path [p], if it does;
    - [archiver src out]: the run of the archiver on one source file;
    - [pq_encryptFile], [pq_decryptFile]: the runs of the post-quantum helper;
    - [sendMail]: the message with which the transport rejects a mail, if it
      does;
    - [stat_size p]: the size [fs.stat] reports for [p];
    - [formatBytes]: the text of a size; encrypt.js computes it with
      floating-point logarithms, only the resulting text is used here;
    - [cwd], [homedir]: [process.cwd()] and [os.homedir()]. *)
Record Env : Type := mkEnv {
  clock : nat -> Date;
  tool : string -> Run;
  refuses : FsOp -> string -> option JsError;
  archiver : string -> string -> Run;
  pq_encryptFile : string -> string -> JsVal -> Run;
  pq_decryptFile : string -> string -> JsVal -> Run;
  sendMail : Mail -> option string;
  stat_size : string -> Z;
  formatBytes : Z -> string;
  cwd : string;
  homedir : string
}.

(** The state a run works on: the file system, what was written to the
    console, the commands spawned so far, the number of clock readings, the
    process environment, the exit status once the process has exited, and
    the mutating file-system calls issued so far. *)
Record World : Type := mkWorld {
  fs : gmap string Node;
  console : list string;
  spawned : list string;
  ticks : nat;
  process_env : gmap string string;
  exit_code : option Z;
  syscalls : list (FsOp * string)
}.

Definition with_fs (f : gmap string Node -> gmap string Node) (w : World) : World :=
  mkWorld (f (fs w)) (console w) (spawned w) (ticks w) (process_env w) (exit_code w)
          (syscalls w).

Definition with_console (f : list string -> list string) (w : World) : World :=
  mkWorld (fs w) (f (console w)) (spawned w) (ticks w) (process_env w) (exit_code w)
          (syscalls w).

Definition with_spawned (f : list string -> list string) (w : World) : World :=
  mkWorld (fs w) (console w) (f (spawned w)) (ticks w) (process_env w) (exit_code w)
          (syscalls w).

Definition with_ticks (f : nat -> nat) (w : World) : World :=
  mkWorld (fs w) (console w) (spawned w) (f (ticks w)) (process_env w) (exit_code w)
          (syscalls w).

Definition with_process_env (f : gmap string string -> gmap string string) (w : World)
  : World :=
  mkWorld (fs w) (console w) (spawned w) (ticks w) (f (process_env w)) (exit_code w)
          (syscalls w).

Definition with_exit_code (n : Z) (w : World) : World :=
  mkWorld (fs w) (console w) (spawned w) (ticks w) (process_env w) (Some n) (syscalls w).

Definition record_call (op : FsOp) (p : string) (w : World) : World :=
  mkWorld (fs w) (console w) (spawned w) (ticks w) (process_env w) (exit_code w)
          (app (syscalls w) [(op, p)]).

Definition exists_at (w : World) (p : string) : bool :=
  match fs w !! p with
  | Some _ => true
  | None => false
  end.

(** [under d p]: [p] is [d] itself or lies below it. *)
Definition under (d p : string) : bool :=
  String.eqb d p || String.prefix (d ++ "/") p.

(** A segment that names a directory to be created on the way: not the
    empty one before a leading separator, and neither [.] nor [..]. *)
Definition named_segment (prefix : string) : bool :=
  let b := basename prefix in
  negb (String.eqb b "" || String.eqb b "." || String.eqb b "..").

(** The directories a path runs through: for [a/b/c], [a] and [a/b].
    [seen] is what was read of the path so far. *)
Fixpoint parents_from (seen rest : string) : list string :=
  match rest with
  | EmptyString => []
  | String c rest' =>
      if Ascii.eqb c "/"%char
      then app (if named_segment seen then [seen] else [])
               (parents_from (seen ++ "/") rest')
      else parents_from (seen ++ String c EmptyString) rest'
  end.

Definition parents (p : string) : list string := parents_from "" p.

Definition is_file (n : option Node) : bool :=
  match n with
  | Some (File _) => true
  | _ => false
  end.

(** A regular file stands where [p] needs a directory. *)
Definition blocked (m : gmap string Node) (p : string) : bool :=
  existsb (fun d => is_file (m !! d)) (parents p).

(** Every directory of [ds] that is missing is created. *)
Definition make_dirs (ds : list string) (m : gmap string Node) : gmap string Node :=
  foldr (fun d acc => match acc !! d with
                      | Some _ => acc
                      | None => <[d := Dir]> acc
                      end) m ds.

(** ** Promises as a state and exception monad *)

(** How the promise of an asynchronous call ends: it resolves, it rejects,
    or it never settles (the process has gone before it could: nothing that
    was to follow it runs, no [catch] and no [finally] block either). *)
Inductive Completion (A : Type) : Type :=
| Normal (a : A)
| Throw (e : JsError)
| Unsettled.

Arguments Normal {A} a.
Arguments Throw {A} e.
Arguments Unsettled {A}.

Definition M (A : Type) : Type := World -> World * Completion A.

Definition ret {A} (a : A) : M A := fun w => (w, Normal a).

Definition throw {A} (e : JsError) : M A := fun w => (w, Throw e).

Definition bind {A B} (m : M A) (k : A -> M B) : M B :=
  fun w =>
    match m w with
    | (w', Normal a) => k a w'
    | (w', Throw e) => (w', Throw e)
    | (w', Unsettled) => (w', Unsettled)
    end.

#[global] Instance M_ret : MRet M := @ret.
#[global] Instance M_bind : MBind M := fun A B k m => bind m k.

(** [try { m } catch (e) { h e }] *)
Definition try_catch {A} (m : M A) (h : JsError -> M A) : M A :=
  fun w =>
    match m w with
    | (w', Normal a) => (w', Normal a)
    | (w', Throw e) => h e w'
    | (w', Unsettled) => (w', Unsettled)
    end.

(** [try { m } finally { f }]: the completion of [m] stands unless [f]
    itself throws. *)
Definition try_finally {A} (m : M A) (f : M unit) : M A :=
  fun w =>
    match m w with
    | (w', Unsettled) => (w', Unsettled)
    | (w', r) =>
        match f w' with
        | (w'', Normal _) => (w'', r)
        | (w'', Throw e) => (w'', Throw e)
        | (w'', Unsettled) => (w'', Unsettled)
        end
    end.

Definition when (b : bool) (m : M unit) : M unit :=
  if b then m else ret tt.

(** [console.log], [console.warn] and [console.error] alike. *)
Definition console_log (line : string) : M unit :=
  fun w => (with_console (fun c => app c [line]) w, Normal tt).

(** [process.exit(n)], the last thing a run does. *)
Definition process_exit (n : Z) : M unit :=
  fun w => (with_exit_code n w, Normal tt).

Section Program.

Variable E : Env.

(** [new Date()]: each reading of the clock is a later one. *)
Definition now : M Date :=
  fun w => (with_ticks S w, Normal (clock E (ticks w))).

(** *** fs.promises *)

Definition fs_access (p : string) : M unit :=
  fun w =>
    if exists_at w p then (w, Normal tt)
    else (w, Throw (SystemError "ENOENT"
                      ("no such file or directory, access '" ++ p ++ "'"))).

(** [fs.mkdir(p, { recursive: true })]: the missing directories on the way
    to [p] are created with it; a regular file on the way, or at [p], makes
    it fail. *)
Definition fs_mkdir_recursive (p : string) : M unit :=
  fun w0 =>
    let w := record_call OpMkdir p w0 in
    match refuses E OpMkdir p with
    | Some e => (w, Throw e)
    | None =>
        if blocked (fs w) p
        then (w, Throw (SystemError "ENOTDIR" ("not a directory, mkdir '" ++ p ++ "'")))
        else if is_file (fs w !! p)
        then (w, Throw (SystemError "EEXIST" ("file already exists, mkdir '" ++ p ++ "'")))
        else (with_fs (make_dirs (app (parents p) [p])) w, Normal tt)
    end.

(** [fs.unlink(p)]: the operating system may turn the call down; otherwise
    the path is resolved (a regular file on the way ends it with ENOTDIR),
    and only then what is at [p] decides. *)
Definition fs_unlink (p : string) : M unit :=
  fun w0 =>
    let w := record_call OpUnlink p w0 in
    match refuses E OpUnlink p with
    | Some e => (w, Throw e)
    | None =>
        if blocked (fs w) p
        then (w, Throw (SystemError "ENOTDIR" ("not a directory, unlink '" ++ p ++ "'")))
        else
          match fs w !! p with
          | None => (w, Throw (SystemError "ENOENT"
                                 ("no such file or directory, unlink '" ++ p ++ "'")))
          | Some Dir => (w, Throw (SystemError "EISDIR"
                                     ("illegal operation on a directory, unlink '"
                                      ++ p ++ "'")))
          | Some (File _) => (with_fs (delete p) w, Normal tt)
          end
    end.

(** [fs.rm(p, { recursive: true, force: true })]: a missing [p] is not an
    error; a refusal leaves the tree as it is. *)
Definition fs_rm_recursive_force (p : string) : M unit :=
  fun w0 =>
    let w := record_call OpRm p w0 in
    match refuses E OpRm p with
    | Some e => (w, Throw e)
    | None => (with_fs (filter (fun kv => under p kv.1 = false)) w, Normal tt)
    end.

(** The name of [p] when it is a direct child of [dir]. *)
Definition child_name (dir p : string) : option string :=
  if String.prefix (dir ++ "/") p then
    let name := drop_chars (String.length dir + 1) p in
    if includes name "/" || String.eqb name "" then None else Some name
  else None.

Definition fs_readdir (dir : string) : M (list string) :=
  fun w =>
    match fs w !! dir with
    | Some Dir => (w, Normal (omap (fun kv => child_name dir kv.1) (map_to_list (fs w))))
    | Some (File _) => (w, Throw (SystemError "ENOTDIR"
                                    ("not a directory, scandir '" ++ dir ++ "'")))
    | None => (w, Throw (SystemError "ENOENT"
                           ("no such file or directory, scandir '" ++ dir ++ "'")))
    end.

(** *** child_process.exec, promisified *)

Inductive Target : Type :=
| NoOutput
| OutFile (p : string)
| OutDir (d : string).

Definition deposit (t : Target) (r : Run) (m : gmap string Node) : gmap string Node :=
  if writes r then
    match t with
    | NoOutput => m
    | OutFile p => <[p := File None]> m
    | OutDir d => foldr (fun name acc => <[path_join d name := File None]> acc) m (entries r)
    end
  else m.

(** The command is recorded, the tool leaves behind what its run says, and
    the promise rejects when the run failed; otherwise it resolves with the
    tool's stderr.  [t] names where the command line sends its output. *)
Definition execAsync (cmd : string) (t : Target) : M string :=
  fun w =>
    let r := tool E cmd in
    let w' := with_spawned (fun l => app l [cmd]) (with_fs (deposit t r) w) in
    match failure r with
    | Some msg => (w', Throw (Error msg))
    | None => (w', Normal (stderr r))
    end.

(** *** utils.js *)

(** The template of [generateTimestamp], applied to the clock reading. *)
Definition format_timestamp (d : Date) : string :=
  let year := getFullYear d in
  let month := padStart 2 "0" (string_of_Z (getMonth d + 1)) in
  let day := padStart 2 "0" (string_of_Z (getDate d)) in
  let hours := padStart 2 "0" (string_of_Z (getHours d)) in
  let minutes := padStart 2 "0" (string_of_Z (getMinutes d)) in
  let seconds := padStart 2 "0" (string_of_Z (getSeconds d)) in
  string_of_Z year ++ month ++ day ++ "-" ++ hours ++ minutes ++ seconds.

Definition generateTimestamp : M string :=
  d ← now;
  mret (format_timestamp d).

Definition generateBackupFilename (dbName extension : string) : M string :=
  timestamp ← generateTimestamp;
  mret ("supabase-backup-" ++ timestamp ++ "-" ++ dbName ++ "." ++ extension).

Definition ensureDirectory (dirPath : string) : M unit :=
  try_catch (fs_access dirPath) (fun _ => fs_mkdir_recursive dirPath).

Definition deleteFile (filePath : string) : M unit :=
  try_catch (fs_unlink filePath)
    (fun error =>
       if negb (bool_decide (err_code error = Some "ENOENT")) then throw error
       else mret tt).

(** [fs.readFile(p, 'utf-8')] followed by [JSON.parse].  The message of the
    SyntaxError depends on the text; the one of an empty text is given. *)
Definition read_and_parse (p : string) : M JsVal :=
  fun w =>
    match fs w !! p with
    | None => (w, Throw (SystemError "ENOENT"
                           ("no such file or directory, open '" ++ p ++ "'")))
    | Some Dir => (w, Throw (SystemError "EISDIR"
                               "illegal operation on a directory, read"))
    | Some (File None) => (w, Throw (mkError "SyntaxError" "Unexpected end of JSON input" None))
    | Some (File (Some v)) => (w, Normal v)
    end.

Definition readJsonFile (filePath : string) : M JsVal :=
  try_catch (read_and_parse filePath)
    (fun error =>
       throw (Error ("Failed to read JSON file " ++ filePath ++ ": " ++ err_message error))).

Definition Object_prototype : list string :=
  ["constructor"; "__defineGetter__"; "__defineSetter__"; "hasOwnProperty";
   "__lookupGetter__"; "__lookupSetter__"; "isPrototypeOf"; "propertyIsEnumerable";
   "toString"; "valueOf"; "__proto__"; "toLocaleString"].

(** Own [length] and the methods of [Array.prototype] (ES2023). *)
Definition Array_prototype : list string :=
  ["length"; "at"; "concat"; "copyWithin"; "fill"; "find"; "findIndex"; "findLast";
   "findLastIndex"; "lastIndexOf"; "pop"; "push"; "reverse"; "shift"; "unshift";
   "slice"; "sort"; "splice"; "includes"; "indexOf"; "join"; "keys"; "entries";
   "values"; "forEach"; "filter"; "flat"; "flatMap"; "map"; "every"; "some";
   "reduce"; "reduceRight"; "toReversed"; "toSorted"; "toSpliced"; "with"].

Definition mem_string (k : string) (l : list string) : bool :=
  existsb (String.eqb k) l.

(** [key in obj] for an object or an array: own properties, then the
    prototype chain. *)
Definition has_property (obj : JsVal) (key : string) : bool :=
  match obj with
  | JObj m => bool_decide (is_Some (m !! key)) || mem_string key Object_prototype
  | JArr l =>
      existsb (fun i => String.eqb key (string_of_Z (Z.of_nat i))) (seq 0 (length l))
      || mem_string key Array_prototype || mem_string key Object_prototype
  | _ => false
  end.

(** [requiredKeys.filter((key) => !(key in obj))]: the [in] operator throws
    on a primitive, at the first key it is asked about. *)
Definition validateRequiredKeys (obj : JsVal) (requiredKeys : list string) : Completion unit :=
  match obj with
  | JObj _ | JArr _ =>
      let missingKeys := List.filter (fun key => negb (has_property obj key)) requiredKeys in
      if (0 <? length missingKeys)%nat
      then Throw (Error ("Missing required keys: " ++ join ", " missingKeys))
      else Normal tt
  | _ =>
      match requiredKeys with
      | [] => Normal tt
      | key :: _ =>
          Throw (TypeError ("Cannot use 'in' operator to search for '" ++ key
                            ++ "' in " ++ to_string obj))
      end
  end.

Definition getAbsolutePath (relativePath : string) : string :=
  if startsWith relativePath "/" then relativePath else path_join (cwd E) relativePath.

Definition lift {A} (c : Completion A) : M A := fun w => (w, c).

(** *** The providers *)

Record Validation : Type := mkValidation {
  valid : bool;
  errors : list string
}.

(** [errors.push(x)] *)
Definition push (errors : list string) (x : string) : list string :=
  app errors [x].

(** [{ valid: errors.length === 0, errors }] *)
Definition validation_of (errors : list string) : Validation :=
  mkValidation (length errors =? 0)%nat errors.

(** The contract every provider object implements. *)
Record Provider : Type := mkProvider {
  name : string;
  displayName : string;
  isAvailable : M bool;
  createDump : string -> JsObj -> M unit;
  getFileExtension : string;
  restoreFromDump : string -> JsObj -> M unit;
  validateConfig : JsObj -> Completion Validation
}.

Definition dq : string := String (ascii_of_nat 34) EmptyString.

(** [try { await execAsync(cmd); return true; } catch { return false; }] *)
Definition probe (cmd : string) : M bool :=
  try_catch (execAsync cmd NoOutput;; mret true) (fun _ => mret false).

(** [if (stderr && !stderr.includes(word)) console.warn(label, stderr)] *)
Definition warn_unless (word label stderr : string) : M unit :=
  when (truthy (JStr stderr) && negb (includes stderr word))
       (console_log (label ++ " " ++ stderr)).

(** supabase.js *)

Definition supabase_createDump (outputPath : string) (_options : JsObj) : M unit :=
  try_catch
    (stderr ← execAsync ("pnpx supabase db dump -f " ++ outputPath) (OutFile outputPath);
     warn_unless "Dumping" "Database dump warnings:" stderr)
    (fun error => throw (Error ("Supabase dump failed: " ++ err_message error))).

Definition supabase_restoreFromDump (dumpPath : string) (_options : JsObj) : M unit :=
  try_catch
    (stderr ← execAsync ("pnpx supabase db reset --db-url file://" ++ dumpPath) NoOutput;
     warn_unless "Restoring" "Database restore warnings:" stderr)
    (fun error => throw (Error ("Supabase restore failed: " ++ err_message error))).

Definition supabase_validateConfig (_config : JsObj) : Completion Validation :=
  let errors := [] in
  Normal (validation_of errors).

Definition supabaseProvider : Provider :=
  mkProvider "supabase" "Supabase" (probe "pnpx supabase --version")
    supabase_createDump "sql" supabase_restoreFromDump supabase_validateConfig.

(** mongodb.js *)

Definition mongodb_createDump (outputPath : string) (options : JsObj) : M unit :=
  try_catch
    (let uri := get options "uri" in
     let database := get options "database" in
     if negb (truthy uri) then throw (Error "MongoDB URI is required")
     else
       let cmd := command_line
         [JStr "mongodump";
          JStr ("--uri=" ++ dq ++ to_string uri ++ dq);
          JStr (if truthy database then "--db=" ++ dq ++ to_string database ++ dq else "");
          JStr ("--archive=" ++ dq ++ outputPath ++ dq);
          JStr "--gzip"] in
       stderr ← execAsync cmd (OutFile outputPath);
       warn_unless "done" "MongoDB dump warnings:" stderr)
    (fun error => throw (Error ("MongoDB dump failed: " ++ err_message error))).

Definition mongodb_validateConfig (config : JsObj) : Completion Validation :=
  let mongodbUri := get config "mongodbUri" in
  if truthy mongodbUri then
    match mongodbUri with
    | JStr s =>
        Normal (validation_of
                  (if negb (startsWith s "mongodb://")
                   then ["MongoDB URI must start with mongodb://"] else []))
    | _ => Throw (TypeError "config.mongodbUri.startsWith is not a function")
    end
  else Normal (validation_of []).

Definition mongodb_restoreFromDump (dumpPath : string) (options : JsObj) : M unit :=
  try_catch
    (let uri := get options "uri" in
     let database := get options "database" in
     let drop := get_default options "drop" (JBool false) in
     if negb (truthy uri) then throw (Error "MongoDB URI is required for restore")
     else
       let cmd := command_line
         [JStr "mongorestore";
          JStr ("--uri=" ++ dq ++ to_string uri ++ dq);
          JStr (if truthy database then "--db=" ++ dq ++ to_string database ++ dq else "");
          JStr (if truthy drop then "--drop" else "");
          JStr ("--archive=" ++ dq ++ dumpPath ++ dq);
          JStr "--gzip"] in
       stderr ← execAsync cmd NoOutput;
       warn_unless "done" "MongoDB restore warnings:" stderr)
    (fun error => throw (Error ("MongoDB restore failed: " ++ err_message error))).

Definition mongodbProvider : Provider :=
  mkProvider "mongodb" "MongoDB" (probe "mongodump --version")
    mongodb_createDump "archive" mongodb_restoreFromDump mongodb_validateConfig.

(** mysql.js *)

Definition mysql_createDump (outputPath : string) (options : JsObj) : M unit :=
  try_catch
    (let host := get_default options "host" (JStr "localhost") in
     let port := get_default options "port" (JNum 3306) in
     let user := get options "user" in
     let password := get options "password" in
     let database := get options "database" in
     if negb (truthy user) || negb (truthy database)
     then throw (Error "MySQL user and database are required")
     else
       let cmd := command_line
         [JStr "mysqldump";
          JStr ("--host=" ++ to_string host);
          JStr ("--port=" ++ to_string port);
          JStr ("--user=" ++ to_string user);
          JStr (if truthy password then "--password=" ++ to_string password else "");
          JStr "--single-transaction";
          JStr "--routines";
          JStr "--triggers";
          JStr "--events";
          JStr ("--result-file=" ++ outputPath);
          database] in
       stderr ← execAsync cmd (OutFile outputPath);
       warn_unless "Warning" "MySQL dump warnings:" stderr)
    (fun error => throw (Error ("MySQL dump failed: " ++ err_message error))).

Definition mysql_validateConfig (config : JsObj) : Completion Validation :=
  let errors : list string := [] in
  let errors := if negb (truthy (get config "mysqlUser"))
                then push errors "MySQL user is required" else errors in
  let errors := if negb (truthy (get config "mysqlDatabase"))
                then push errors "MySQL database is required" else errors in
  Normal (validation_of errors).

(** The redirection is part of the command line (it runs under /bin/bash). *)
Definition mysql_restoreFromDump (dumpPath : string) (options : JsObj) : M unit :=
  try_catch
    (let host := get_default options "host" (JStr "localhost") in
     let port := get_default options "port" (JNum 3306) in
     let user := get options "user" in
     let password := get options "password" in
     let database := get options "database" in
     if negb (truthy user) || negb (truthy database)
     then throw (Error "MySQL user and database are required for restore")
     else
       let cmd := command_line
         [JStr "mysql";
          JStr ("--host=" ++ to_string host);
          JStr ("--port=" ++ to_string port);
          JStr ("--user=" ++ to_string user);
          JStr (if truthy password then "--password=" ++ to_string password else "");
          database;
          JStr ("< " ++ dumpPath)] in
       stderr ← execAsync cmd NoOutput;
       warn_unless "Warning" "MySQL restore warnings:" stderr)
    (fun error => throw (Error ("MySQL restore failed: " ++ err_message error))).

Definition mysqlProvider : Provider :=
  mkProvider "mysql" "MySQL" (probe "mysqldump --version")
    mysql_createDump "sql" mysql_restoreFromDump mysql_validateConfig.

(** postgres.js.  The password travels in the child's environment
    (PGPASSWORD), which is not part of the command line. *)

Definition postgres_createDump (outputPath : string) (options : JsObj) : M unit :=
  try_catch
    (let host := get_default options "host" (JStr "localhost") in
     let port := get_default options "port" (JNum 5432) in
     let user := get options "user" in
     let database := get options "database" in
     let format := get_default options "format" (JStr "custom") in
     if negb (truthy user) || negb (truthy database)
     then throw (Error "PostgreSQL user and database are required")
     else
       let cmd := join_vals " "
         [JStr "pg_dump";
          JStr ("--host=" ++ to_string host);
          JStr ("--port=" ++ to_string port);
          JStr ("--username=" ++ to_string user);
          JStr ("--format=" ++ to_string format);
          JStr "--verbose";
          JStr "--no-owner";
          JStr "--no-acl";
          JStr ("--file=" ++ outputPath);
          database] in
       stderr ← execAsync cmd (OutFile outputPath);
       warn_unless "pg_dump" "PostgreSQL dump warnings:" stderr)
    (fun error => throw (Error ("PostgreSQL dump failed: " ++ err_message error))).

Definition postgres_validateConfig (config : JsObj) : Completion Validation :=
  let errors : list string := [] in
  let errors := if negb (truthy (get config "postgresUser"))
                then push errors "PostgreSQL user is required" else errors in
  let errors := if negb (truthy (get config "postgresDatabase"))
                then push errors "PostgreSQL database is required" else errors in
  Normal (validation_of errors).

Definition postgres_restoreFromDump (dumpPath : string) (options : JsObj) : M unit :=
  try_catch
    (let host := get_default options "host" (JStr "localhost") in
     let port := get_default options "port" (JNum 5432) in
     let user := get options "user" in
     let database := get options "database" in
     let clean := get_default options "clean" (JBool false) in
     if negb (truthy user) || negb (truthy database)
     then throw (Error "PostgreSQL user and database are required for restore")
     else
       let cmd := command_line
         [JStr "pg_restore";
          JStr ("--host=" ++ to_string host);
          JStr ("--port=" ++ to_string port);
          JStr ("--username=" ++ to_string user);
          JStr ("--dbname=" ++ to_string database);
          JStr "--verbose";
          JStr "--no-owner";
          JStr "--no-acl";
          JStr (if truthy clean then "--clean" else "");
          JStr "--if-exists";
          JStr dumpPath] in
       stderr ← execAsync cmd NoOutput;
       warn_unless "pg_restore" "PostgreSQL restore warnings:" stderr)
    (fun error => throw (Error ("PostgreSQL restore failed: " ++ err_message error))).

Definition postgresProvider : Provider :=
  mkProvider "postgres" "PostgreSQL" (probe "pg_dump --version")
    postgres_createDump "dump" postgres_restoreFromDump postgres_validateConfig.

(** providers/index.js: the registry, in registration order. *)

Definition providers : list (string * Provider) :=
  [("supabase", supabaseProvider);
   ("mongodb", mongodbProvider);
   ("mysql", mysqlProvider);
   ("postgres", postgresProvider);
   ("postgresql", postgresProvider)].

(** [String.prototype.toLowerCase] on the letters A to Z; a string is a
    sequence of bytes here, and the cased letters outside ASCII, which
    JavaScript lowers too, are left as they are. *)
Definition lower_char (c : ascii) : ascii :=
  let n := nat_of_ascii c in
  if (65 <=? n)%nat && (n <=? 90)%nat then ascii_of_nat (n + 32) else c.

Fixpoint toLowerCase (s : string) : string :=
  match s with
  | EmptyString => EmptyString
  | String c rest => String (lower_char c) (toLowerCase rest)
  end.

(** The strings on which this [toLowerCase] is that of JavaScript: those
    made of ASCII characters. *)
Fixpoint ascii_only (s : string) : bool :=
  match s with
  | EmptyString => true
  | String c rest => (nat_of_ascii c <? 128)%nat && ascii_only rest
  end.

Fixpoint Map_get {A} (m : list (string * A)) (k : string) : option A :=
  match m with
  | [] => None
  | (k', v) :: rest => if String.eqb k' k then Some v else Map_get rest k
  end.

Definition getProvider (name : string) : Completion Provider :=
  match Map_get providers (toLowerCase name) with
  | Some provider => Normal provider
  | None =>
      let available := join ", " (List.map fst providers) in
      Throw (Error ("Provider '" ++ name ++ "' not found. Available providers: " ++ available))
  end.

Definition defaultProvider : Provider := supabaseProvider.

(** [providerName ? getProvider(providerName) : defaultProvider] *)
Definition select_provider (providerName : string) : M Provider :=
  if truthy (JStr providerName) then lift (getProvider providerName)
  else mret defaultProvider.

(** *** backup.js *)

Definition dumpDatabase (outputPath providerName : string) (options : JsObj) : M unit :=
  try_catch
    (provider ← select_provider providerName;
     available ← isAvailable provider;
     if negb available
     then throw (Error (displayName provider
                        ++ " is not available. Please ensure it is installed and configured."))
     else
       createDump provider outputPath options;;
       fs_access outputPath)
    (fun error => throw (Error ("Database dump failed: " ++ err_message error))).

(** The error with which the write stream on [p] fails, if it does: [p] is
    a directory, or the operating system refuses to open it for writing. *)
Definition stream_error (w : World) (p : string) : option JsError :=
  match fs w !! p with
  | Some Dir => Some (SystemError "EISDIR"
                        ("illegal operation on a directory, open '" ++ p ++ "'"))
  | _ => refuses E OpWrite p
  end.

(** The write stream opens [outputZip]; the promise resolves when the stream
    closes and rejects when the archiver reports an error.  Nobody listens
    to the errors of the write stream: when it fails, neither [resolve] nor
    [reject] is called, the error event takes the process down and the
    promise never settles. *)
Definition createZipArchive (sourceFile outputZip : string) : M unit :=
  fun w =>
    match stream_error w outputZip with
    | Some _ => (w, Unsettled)
    | None =>
        let r := archiver E sourceFile outputZip in
        let w' := with_fs (deposit (OutFile outputZip) r) w in
        match failure r with
        | Some msg => (w', Throw (Error ("ZIP creation failed: " ++ msg)))
        | None => (w', Normal tt)
        end
    end.

Record BackupFiles : Type := mkBackupFiles {
  dumpFile : string;
  zipFile : string
}.

(** The [try] block of [createBackup]: the dump stage, then the archive
    stage. *)
Definition createBackup_stages (provider : Provider)
    (dumpFilename zipFilename dumpPath zipPath providerName : string)
    (providerOptions : JsObj) : M BackupFiles :=
  console_log ("Creating " ++ displayName provider ++ " database dump: " ++ dumpFilename);;
  dumpDatabase dumpPath providerName providerOptions;;
  console_log ("Creating ZIP archive: " ++ zipFilename);;
  createZipArchive dumpPath zipPath;;
  mret (mkBackupFiles dumpPath zipPath).

(** The clean-up of its [catch] block:
    [await fs.unlink(p).catch(() => {})] for both files, errors ignored. *)
Definition createBackup_cleanup (dumpPath zipPath : string) : M unit :=
  try_catch
    (try_catch (fs_unlink dumpPath) (fun _ => mret tt);;
     try_catch (fs_unlink zipPath) (fun _ => mret tt))
    (fun _ => mret tt).

Definition createBackup (dbName workDir providerName : string) (providerOptions : JsObj)
  : M BackupFiles :=
  ensureDirectory workDir;;
  provider ← select_provider providerName;
  let fileExtension := getFileExtension provider in
  dumpFilename ← generateBackupFilename dbName fileExtension;
  zipFilename ← generateBackupFilename dbName "zip";
  let dumpPath := path_join workDir dumpFilename in
  let zipPath := path_join workDir zipFilename in
  try_catch
    (createBackup_stages provider dumpFilename zipFilename dumpPath zipPath
                         providerName providerOptions)
    (fun error =>
       createBackup_cleanup dumpPath zipPath;;
       throw error).

(** *** encrypt.js *)

Definition loadKeys (keysPath : string) : M JsVal :=
  keys ← readJsonFile keysPath;
  lift (validateRequiredKeys keys ["publicKey"; "privateKey"]);;
  mret keys.

(** [keys.k] on what [loadKeys] returned. *)
Definition key_of (keys : JsVal) (k : string) : Completion JsVal :=
  match keys with
  | JObj m => Normal (get m k)
  | JUndefined | JNull =>
      Throw (TypeError ("Cannot read properties of " ++ to_string keys
                        ++ " (reading '" ++ k ++ "')"))
  | _ => Normal JUndefined
  end.

(** A call of the post-quantum helper: it leaves its output or not, and
    rejects or not, as its run says. *)
Definition run_cipher (r : Run) (outputFile : string) : M unit :=
  fun w =>
    let w' := with_fs (deposit (OutFile outputFile) r) w in
    match failure r with
    | Some msg => (w', Throw (Error msg))
    | None => (w', Normal tt)
    end.

Definition encryptBackupFile (inputFile outputFile : string) (keys : JsVal) : M unit :=
  try_catch
    (fs_access inputFile;;
     publicKey ← lift (key_of keys "publicKey");
     run_cipher (pq_encryptFile E inputFile outputFile publicKey) outputFile;;
     fs_access outputFile)
    (fun error => throw (Error ("Encryption failed: " ++ err_message error))).

Definition decryptBackupFile (inputFile outputFile : string) (keys : JsVal) : M unit :=
  try_catch
    (fs_access inputFile;;
     privateKey ← lift (key_of keys "privateKey");
     run_cipher (pq_decryptFile E inputFile outputFile privateKey) outputFile;;
     fs_access outputFile)
    (fun error => throw (Error ("Decryption failed: " ++ err_message error))).

(** [fs.stat(filePath).size] *)
Definition getFileSize (filePath : string) : M Z :=
  fun w =>
    if exists_at w filePath then (w, Normal (stat_size E filePath))
    else (w, Throw (SystemError "ENOENT"
                      ("no such file or directory, stat '" ++ filePath ++ "'"))).

(** *** email.js *)

Definition getenv (k : string) : M JsVal :=
  fun w => (w, Normal (match process_env w !! k with
                       | Some v => JStr v
                       | None => JUndefined
                       end)).

(** [if (!process.env[k]) process.env[k] = v] *)
Definition setenv_if_unset (k : string) (v : string) : M unit :=
  fun w =>
    match process_env w !! k with
    | Some old =>
        if String.eqb old "" then (with_process_env (insert k v) w, Normal tt)
        else (w, Normal tt)
    | None => (with_process_env (insert k v) w, Normal tt)
    end.

Definition createTransporter : M (Mail -> option string) :=
  user ← getenv "SMTP_USER";
  pass ← getenv "SMTP_PASS";
  if negb (truthy user) || negb (truthy pass)
  then throw (Error
    "SMTP credentials not found. Set SMTP_USER and SMTP_PASS environment variables.")
  else mret (sendMail E).

Definition sendBackupEmail (to : JsVal) (subject attachmentPath : string)
    (transporter : option (Mail -> option string)) : M unit :=
  transport ← match transporter with
              | Some t => mret t
              | None => createTransporter
              end;
  fs_access attachmentPath;;
  from ← getenv "SMTP_USER";
  let mailOptions := mkMail from to subject attachmentPath in
  try_catch
    (match transport mailOptions with
     | None => mret tt
     | Some msg => throw (Error msg)
     end)
    (fun error => throw (Error ("Failed to send email: " ++ err_message error))).

(** *** restore.js *)

Definition is_dump_name (f : string) : bool :=
  endsWith f ".sql" || endsWith f ".dump" || endsWith f ".archive" || endsWith f ".bson".

Definition extractZipArchive (zipPath outputDir : string) : M string :=
  ensureDirectory outputDir;;
  try_catch
    (execAsync ("unzip -o " ++ dq ++ zipPath ++ dq ++ " -d " ++ dq ++ outputDir ++ dq)
               (OutDir outputDir);;
     files ← fs_readdir outputDir;
     match List.find is_dump_name files with
     | None => throw (Error "No database dump file found in archive")
     | Some dumpFile => mret (path_join outputDir dumpFile)
     end)
    (fun error => throw (Error ("Failed to extract archive: " ++ err_message error))).

(** The [try] block of [restoreFromBackup]: decrypt, extract, restore. *)
Definition restore_stages (encryptedBackupPath : string) (keys : JsVal)
    (providerName : string) (providerOptions : JsObj)
    (decryptedZipPath extractDir : string) : M string :=
  console_log "🔓 Decrypting backup...";;
  decryptBackupFile encryptedBackupPath decryptedZipPath keys;;
  console_log ("✓ Backup decrypted" ++ nl);;
  console_log "📦 Extracting archive...";;
  dumpFilePath ← extractZipArchive decryptedZipPath extractDir;
  console_log ("✓ Archive extracted: " ++ basename dumpFilePath ++ nl);;
  provider ← select_provider providerName;
  console_log ("🔄 Restoring to " ++ displayName provider ++ " database...");;
  restoreFromDump provider dumpFilePath providerOptions;;
  console_log ("✓ Database restored successfully" ++ nl);;
  mret dumpFilePath.

(** Its [finally] block. *)
Definition restore_cleanup (workDir : string) : M unit :=
  try_catch
    (fs_rm_recursive_force workDir)
    (fun error =>
       console_log ("Warning: Failed to clean up temporary files: " ++ err_message error)).

Definition restoreFromBackup (encryptedBackupPath : string) (keys : JsVal)
    (providerName : string) (providerOptions : JsObj) (workDir : string) : M string :=
  ensureDirectory workDir;;
  let decryptedZipPath := path_join workDir "decrypted-backup.zip" in
  let extractDir := path_join workDir "extracted" in
  try_finally
    (restore_stages encryptedBackupPath keys providerName providerOptions
                    decryptedZipPath extractDir)
    (restore_cleanup workDir).

(** *** cli.js: the backup command *)

(** What [mergeConfig] hands to the command: the configuration loader itself
    stays outside, the command is followed from its result on. *)
Record Config : Type := mkConfig {
  cfg_email : JsVal;
  cfg_keys : JsVal;
  cfg_dbName : JsVal;
  cfg_workDir : string;
  smtp_host : JsVal;
  smtp_port : JsVal;
  smtp_secure : JsVal;
  smtp_user : JsVal;
  smtp_pass : JsVal
}.

(** The two properties of [options] the action reads beside those that
    [mergeConfig] reads.  [noEmail] is [options.noEmail] as the code tests
    it; the command line cannot set it ([--no-email] arrives as
    [options.email = false]), so that it is [false] on every run started
    from there. *)
Record BackupOptions : Type := mkBackupOptions {
  noEmail : bool;
  keepFiles : bool
}.

Definition getConfigPath : string :=
  path_join (path_join (path_join (homedir E) ".config") "quantum-database-backups")
            "config.json".

Definition configExists : M bool :=
  try_catch (fs_access getConfigPath;; mret true) (fun _ => mret false).

(** The subject line of [generateBackupEmailContent]. *)
Definition email_subject (dbName : string) : string :=
  "Encrypted Database Backup - " ++ dbName.

(** The command runs in three parts: it produces the encrypted artifact,
    delivers it, and concludes.  [backup_produce] returns what the later
    parts use: the two intermediate files and the path of the encrypted one. *)
Definition backup_produce (config : Config) (options : BackupOptions)
  : M (BackupFiles * string) :=
  console_log ("🔐 Starting quantum database backup..." ++ nl);;
  when (negb (truthy (cfg_keys config)))
    (throw (Error ("Keys path not specified. Run " ++ dq ++ "qdb init" ++ dq
                   ++ " or use --keys option.")));;
  when (negb (truthy (cfg_email config)) && negb (noEmail options))
    (throw (Error ("Email not specified. Run " ++ dq ++ "qdb init" ++ dq
                   ++ " or use --email option.")));;
  when (negb (truthy (cfg_dbName config)))
    (throw (Error ("Database name not specified. Run " ++ dq ++ "qdb init" ++ dq
                   ++ " or use --db-name option.")));;
  when (truthy (cfg_email config) && negb (noEmail options))
    (when (negb (truthy (smtp_user config)) || negb (truthy (smtp_pass config)))
       (throw (Error ("SMTP not configured. Run " ++ dq ++ "qdb init" ++ dq
                      ++ " or set SMTP_USER and SMTP_PASS environment variables."))));;
  console_log "📋 Loading encryption keys...";;
  let keysPath := getAbsolutePath (to_string (cfg_keys config)) in
  keys ← loadKeys keysPath;
  console_log ("✓ Keys loaded successfully" ++ nl);;
  console_log "💾 Creating database backup...";;
  files ← createBackup (to_string (cfg_dbName config)) (cfg_workDir config) "supabase" ∅;
  console_log ("✓ Database dump created: " ++ basename (dumpFile files));;
  console_log ("✓ ZIP archive created: " ++ basename (zipFile files) ++ nl);;
  console_log "🔒 Encrypting backup with post-quantum cryptography...";;
  let encryptedFile := zipFile files ++ ".encrypted" in
  encryptBackupFile (zipFile files) encryptedFile keys;;
  fileSize ← getFileSize encryptedFile;
  console_log ("✓ Backup encrypted: " ++ basename encryptedFile);;
  console_log ("✓ File size: " ++ formatBytes E fileSize ++ nl);;
  mret (files, encryptedFile).

Definition backup_deliver (config : Config) (options : BackupOptions)
    (encryptedFile : string) : M unit :=
  when (truthy (cfg_email config) && negb (noEmail options))
    (console_log ("📧 Sending encrypted backup to " ++ to_string (cfg_email config) ++ "...");;
     let subject := email_subject (to_string (cfg_dbName config)) in
     setenv_if_unset "SMTP_USER" (to_string (smtp_user config));;
     setenv_if_unset "SMTP_PASS" (to_string (smtp_pass config));;
     setenv_if_unset "SMTP_HOST" (to_string (smtp_host config));;
     setenv_if_unset "SMTP_PORT" (to_string (smtp_port config));;
     setenv_if_unset "SMTP_SECURE" (to_string (smtp_secure config));;
     sendBackupEmail (cfg_email config) subject encryptedFile None;;
     console_log ("✓ Email sent successfully" ++ nl)).

Definition backup_conclude (options : BackupOptions) (files : BackupFiles)
    (encryptedFile : string) : M unit :=
  when (negb (keepFiles options))
    (console_log "🧹 Cleaning up intermediate files...";;
     deleteFile (dumpFile files);;
     deleteFile (zipFile files);;
     console_log ("✓ Cleanup complete" ++ nl));;
  console_log "✅ Backup process completed successfully!";;
  console_log ("📦 Encrypted backup: " ++ encryptedFile);;
  when (negb (keepFiles options))
    (console_log (nl ++ "⚠️  IMPORTANT: Keep your keys.json file safe!");;
     console_log "   Without it, you cannot decrypt this backup.");;
  saved ← configExists;
  when saved (console_log (nl ++ "📁 Using config from: " ++ getConfigPath)).

(** [try { ... } catch (error) { console.error(...); process.exit(1); }] *)
Definition backup_command (config : Config) (options : BackupOptions) : M unit :=
  try_catch
    (produced ← backup_produce config options;
     backup_deliver config options produced.2;;
     backup_conclude options produced.1 produced.2)
    (fun error =>
       console_log (nl ++ "❌ Error: " ++ err_message error);;
       process_exit 1).

(** *** providers/index.js: the registry as a value

    The module keeps its providers in a [Map] that [registerProvider]
    updates; the functions below take the map they work on.  [providers]
    above is the map as the module leaves it after loading. *)

(** [Map.prototype.set]: the value of an existing key is replaced in place,
    a new key goes last. *)
Fixpoint Map_set {A} (m : list (string * A)) (k : string) (v : A) : list (string * A) :=
  match m with
  | [] => [(k, v)]
  | (k', v') :: rest =>
      if String.eqb k' k then (k', v) :: rest else (k', v') :: Map_set rest k v
  end.

Definition Map_has {A} (m : list (string * A)) (k : string) : bool :=
  match Map_get m k with
  | Some _ => true
  | None => false
  end.

Definition getProvider_from (registry : list (string * Provider)) (name : string)
  : Completion Provider :=
  match Map_get registry (toLowerCase name) with
  | Some provider => Normal provider
  | None =>
      let available := join ", " (List.map fst registry) in
      Throw (Error ("Provider '" ++ name ++ "' not found. Available providers: " ++ available))
  end.

Definition getAllProviders (registry : list (string * Provider)) : list Provider :=
  List.map snd registry.

Definition getProviderNames (registry : list (string * Provider)) : list string :=
  List.map fst registry.

Definition hasProvider (registry : list (string * Provider)) (name : string) : bool :=
  Map_has registry (toLowerCase name).

Definition registerProvider (registry : list (string * Provider)) (name : string)
    (provider : Provider) : list (string * Provider) :=
  Map_set registry (toLowerCase name) provider.

(** *** email.js: isSmtpConfigured *)

(** [!!(process.env.SMTP_USER && process.env.SMTP_PASS)] *)
Definition isSmtpConfigured : M bool :=
  user ← getenv "SMTP_USER";
  pass ← getenv "SMTP_PASS";
  mret (truthy user && truthy pass).

(** *** config.js *)

Definition getConfigDir : string :=
  path_join (path_join (homedir E) ".config") "quantum-database-backups".

Definition loadConfig : M JsVal :=
  try_catch
    (readJsonFile getConfigPath)
    (fun error => throw (Error ("Failed to load config: " ++ err_message error))).

(** [a || b] *)
Definition js_or (a b : JsVal) : JsVal := if truthy a then a else b.

(** [v.k] for the property names the configuration code reads, none of which
    a prototype defines: reading from [null] or [undefined] throws, an
    object gives its own property, any other value gives [undefined]. *)
Definition read_prop (v : JsVal) (k : string) : Completion JsVal :=
  match v with
  | JObj m => Normal (get m k)
  | JUndefined | JNull =>
      Throw (TypeError ("Cannot read properties of " ++ to_string v
                        ++ " (reading '" ++ k ++ "')"))
  | _ => Normal JUndefined
  end.

(** [v?.k] for the same property names. *)
Definition read_prop_opt (v : JsVal) (k : string) : JsVal :=
  match v with
  | JObj m => get m k
  | _ => JUndefined
  end.

Definition is_space (c : ascii) : bool :=
  let n := nat_of_ascii c in
  (n =? 32)%nat || ((9 <=? n)%nat && (n <=? 13)%nat).

Fixpoint skip_spaces (s : string) : string :=
  match s with
  | String c rest => if is_space c then skip_spaces rest else s
  | EmptyString => s
  end.

(** The value of the longest run of decimal digits [s] starts with, after
    the digits already read into [acc]; [seen] tells whether a digit was
    read. *)
Fixpoint read_digits (s : string) (acc : Z) (seen : bool) : option Z :=
  match s with
  | String c rest =>
      if is_digit c
      then read_digits rest (10 * acc + Z.of_nat (nat_of_ascii c - 48)) true
      else if seen then Some acc else None
  | EmptyString => if seen then Some acc else None
  end.

(** [parseInt(v, 10)]; [None] stands for NaN.  White space is the ASCII
    one: the other white-space characters of Unicode are not skipped. *)
Definition parseInt10 (v : JsVal) : option Z :=
  match skip_spaces (to_string v) with
  | String "-"%char rest => option_map Z.opp (read_digits rest 0 false)
  | String "+"%char rest => read_digits rest 0 false
  | s => read_digits s 0 false
  end.

(** The object [mergeConfig] returns. *)
Record Merged : Type := mkMerged {
  merged_email : JsVal;
  merged_keys : JsVal;
  merged_dbName : JsVal;
  merged_workDir : JsVal;
  merged_smtp_host : JsVal;
  merged_smtp_port : Z;
  merged_smtp_secure : JsVal;
  merged_smtp_user : JsVal;
  merged_smtp_pass : JsVal
}.

(** [v === s] for a string literal [s]. *)
Definition is_string (v : JsVal) (s : string) : bool :=
  match v with
  | JStr x => String.eqb x s
  | _ => false
  end.

(** [a || b] where reading [b] may throw: [b] is read only when [a] is
    falsy. *)
Definition or_else (a : JsVal) (b : M JsVal) : M JsVal :=
  if truthy a then mret a else b.

(** [config.smtp?.k] *)
Definition smtp_prop (config : JsVal) (k : string) : M JsVal :=
  smtp ← lift (read_prop config "smtp");
  mret (read_prop_opt smtp k).

Definition mergeConfig (options : JsObj) : M Merged :=
  config ← (configExists ≫= fun saved : bool =>
            if saved then loadConfig else ret (JObj ∅));
  email ← or_else (get options "email") (lift (read_prop config "defaultEmail"));
  keys ← or_else (get options "keys") (lift (read_prop config "keysPath"));
  dbName ← or_else (get options "dbName") (lift (read_prop config "defaultDbName"));
  workDir ← or_else (get options "workDir") (lift (read_prop config "workDir"));
  SMTP_HOST ← getenv "SMTP_HOST";
  host ← or_else SMTP_HOST (smtp_prop config "host");
  SMTP_PORT ← getenv "SMTP_PORT";
  port ← or_else SMTP_PORT (smtp_prop config "port");
  SMTP_SECURE ← getenv "SMTP_SECURE";
  secure ← or_else (JBool (is_string SMTP_SECURE "true"))
                   (smtp_prop config "secure");
  SMTP_USER ← getenv "SMTP_USER";
  user ← or_else SMTP_USER (smtp_prop config "user");
  SMTP_PASS ← getenv "SMTP_PASS";
  pass ← or_else SMTP_PASS (smtp_prop config "pass");
  mret {|
    merged_email := js_or email JNull;
    merged_keys := js_or keys JNull;
    merged_dbName := js_or dbName JNull;
    merged_workDir := js_or workDir (JStr "./backups");
    merged_smtp_host := js_or host (JStr "smtp.gmail.com");
    merged_smtp_port :=
      match parseInt10 (js_or port (JStr "587")) with
      | Some n => if n =? 0 then 587 else n
      | None => 587
      end;
    merged_smtp_secure := js_or secure (JBool false);
    merged_smtp_user := js_or user JNull;
    merged_smtp_pass := js_or pass JNull
  |}.

(** [validateConfig] of config.js.  The first property it reads is
    [config.keysPath]: on [null] and [undefined] that read throws; on every
    other value the later reads [config.k] give what [config?.k] gives. *)
Definition config_validateConfig (config : JsVal) : Completion Validation :=
  match read_prop config "keysPath" with
  | Normal keysPath =>
      let errors : list string := [] in
      let errors := if negb (truthy keysPath)
                    then push errors "Keys path is required" else errors in
      let errors := if negb (truthy (read_prop_opt config "defaultEmail"))
                    then push errors "Default email is required" else errors in
      let errors := if negb (truthy (read_prop_opt config "defaultDbName"))
                    then push errors "Default database name is required" else errors in
      let smtp := read_prop_opt config "smtp" in
      let errors := if negb (truthy (read_prop_opt smtp "user"))
                    then push errors "SMTP user is required" else errors in
      let errors := if negb (truthy (read_prop_opt smtp "pass"))
                    then push errors "SMTP password is required" else errors in
      Normal (validation_of errors)
  | Throw e => Throw e
  | Unsettled => Unsettled
  end.

End Program.

(** ** Patterns of file names *)

Inductive Item : Type :=
| Lit (s : string)
| Digits (n : nat).

(** [take_digits n s]: what follows the first [n] characters of [s], when
    there are that many and all are digits. *)
Fixpoint take_digits (n : nat) (s : string) : option string :=
  match n with
  | O => Some s
  | S n' =>
      match s with
      | String c rest => if is_digit c then take_digits n' rest else None
      | EmptyString => None
      end
  end.

(** The items match [s] from its first to its last character. *)
Fixpoint match_items (items : list Item) (s : string) : bool :=
  match items with
  | [] => String.eqb s ""
  | Lit l :: rest =>
      String.prefix l s && match_items rest (drop_chars (String.length l) s)
  | Digits n :: rest =>
      match take_digits n s with
      | Some s' => match_items rest s'
      | None => false
      end
  end.

(** [*] followed by the items: some suffix of [s] matches them. *)
Definition glob_match (items : list Item) (s : string) : bool :=
  existsb (fun i => match_items items (drop_chars i s)) (seq 0 (S (String.length s))).

(** [*-backup-<8 digits>-<6 digits>-<dbname>.<ext>] *)
Definition backup_pattern (dbName ext : string) : list Item :=
  [Lit "-backup-"; Digits 8; Lit "-"; Digits 6; Lit ("-" ++ dbName ++ "." ++ ext)].

(** A reading of the local clock in the ranges the getters of a valid
    [Date] have. *)
Definition calendar_date (d : Date) : bool :=
  (-271821 <=? getFullYear d) && (getFullYear d <=? 275760)
  && (0 <=? getMonth d) && (getMonth d <=? 11)
  && (1 <=? getDate d) && (getDate d <=? 31)
  && (0 <=? getHours d) && (getHours d <=? 23)
  && (0 <=? getMinutes d) && (getMinutes d <=? 59)
  && (0 <=? getSeconds d) && (getSeconds d <=? 59).

Definition four_digit_year (d : Date) : bool :=
  (1000 <=? getFullYear d) && (getFullYear d <=? 9999).

Definition two_digits (s : string) : bool :=
  match s with
  | String a (String b EmptyString) => is_digit a && is_digit b
  | _ => false
  end.

Definition four_digits (s : string) : bool :=
  match s with
  | String a (String b (String c (String d EmptyString))) =>
      is_digit a && is_digit b && is_digit c && is_digit d
  | _ => false
  end.

(** ** Scenarios

    Concrete environments and worlds on which the program is run below. *)

Definition clean_run : Run :=
  {| writes := true; entries := []; stderr := ""; failure := None |}.

Definition jan5 : Date :=
  {| getFullYear := 2024; getMonth := 0; getDate := 5;
     getHours := 13; getMinutes := 7; getSeconds := 9 |}.

(** Every collaborator does its work, nothing is refused. *)
Definition calm : Env :=
  {| clock := fun _ => jan5;
     tool := fun _ => clean_run;
     refuses := fun _ _ => None;
     archiver := fun _ _ => clean_run;
     pq_encryptFile := fun _ _ _ => clean_run;
     pq_decryptFile := fun _ _ _ => clean_run;
     sendMail := fun _ => None;
     stat_size := fun _ => 2048;
     formatBytes := fun _ => "2 KB";
     cwd := "/home/u";
     homedir := "/home/u" |}.

Definition empty_world : World :=
  {| fs := ∅; console := []; spawned := []; ticks := 0; process_env := ∅;
     exit_code := None; syscalls := [] |}.

(** A world that holds one file. *)
Definition world_with (p : string) (node : Node) : World :=
  with_fs (insert p node) empty_world.

(** A keys file whose two fields are present but hold no strings. *)
Definition odd_keys : JsVal :=
  JObj (<["publicKey" := JNum 1]> (<["privateKey" := JNull]> ∅)).

(** A regular file named plain: no path can lead through it. *)
Definition below_a_file : World := world_with "plain" (File None).

Definition odd_keys_world : World := world_with "/home/u/keys.json" (File (Some odd_keys)).


Definition with_tool (t : string -> Run) (E : Env) : Env :=
  {| clock := clock E; tool := t; refuses := refuses E; archiver := archiver E;
     pq_encryptFile := pq_encryptFile E; pq_decryptFile := pq_decryptFile E;
     sendMail := sendMail E; stat_size := stat_size E; formatBytes := formatBytes E;
     cwd := cwd E; homedir := homedir E |}.

Definition with_refusals (r : FsOp -> string -> option JsError) (E : Env) : Env :=
  {| clock := clock E; tool := tool E; refuses := r; archiver := archiver E;
     pq_encryptFile := pq_encryptFile E; pq_decryptFile := pq_decryptFile E;
     sendMail := sendMail E; stat_size := stat_size E; formatBytes := formatBytes E;
     cwd := cwd E; homedir := homedir E |}.

Definition with_archiver (a : string -> string -> Run) (E : Env) : Env :=
  {| clock := clock E; tool := tool E; refuses := refuses E; archiver := a;
     pq_encryptFile := pq_encryptFile E; pq_decryptFile := pq_decryptFile E;
     sendMail := sendMail E; stat_size := stat_size E; formatBytes := formatBytes E;
     cwd := cwd E; homedir := homedir E |}.

Definition with_sendMail (m : Mail -> option string) (E : Env) : Env :=
  {| clock := clock E; tool := tool E; refuses := refuses E; archiver := archiver E;
     pq_encryptFile := pq_encryptFile E; pq_decryptFile := pq_decryptFile E;
     sendMail := m; stat_size := stat_size E; formatBytes := formatBytes E;
     cwd := cwd E; homedir := homedir E |}.

(** The archive unpacks into a dump and a note. *)
Definition unpacking_run : Run :=
  {| writes := true; entries := ["orders_db.sql"; "readme.txt"]; stderr := "";
     failure := None |}.

Definition obliging : Env := with_tool (fun _ => unpacking_run) calm.

(** The same, where the operating system refuses to remove directories:
    they are busy. *)
Definition stubborn : Env :=
  with_refusals
    (fun op p =>
       match op with
       | OpRm => Some (SystemError "EBUSY" ("resource busy or locked, rmdir '" ++ p ++ "'"))
       | _ => None
       end)
    obliging.

Definition good_keys : JsVal :=
  JObj (<["publicKey" := JStr "pk"]> (<["privateKey" := JStr "sk"]> ∅)).

Definition backup_on_disk : World := world_with "/srv/orders.zip.encrypted" (File None).

(** The dump succeeds and the archiver breaks off after it has opened its
    output. *)
Definition broken_archiver : Env :=
  with_archiver
    (fun _ _ => {| writes := true; entries := []; stderr := "";
                   failure := Some "write EPIPE" |})
    calm.

(** The same, where the operating system refuses to unlink: the files are
    held open elsewhere. *)
Definition jammed : Env :=
  with_refusals
    (fun op p =>
       match op with
       | OpUnlink => Some (SystemError "EBUSY"
                             ("resource busy or locked, unlink '" ++ p ++ "'"))
       | _ => None
       end)
    broken_archiver.


(** The SMTP server turns the transport down. *)
Definition mail_down : Env :=
  with_sendMail (fun _ => Some "Invalid login: 535 Authentication failed") calm.

Definition keys_on_disk : World := world_with "/home/u/keys.json" (File (Some good_keys)).

Definition nightly : Config :=
  {| cfg_email := JStr "dba@example.com";
     cfg_keys := JStr "keys.json";
     cfg_dbName := JStr "orders_db";
     cfg_workDir := "/var/backups";
     smtp_host := JStr "smtp.gmail.com";
     smtp_port := JNum 587;
     smtp_secure := JBool false;
     smtp_user := JStr "mailer";
     smtp_pass := JStr "app-password" |}.

Definition plain_options : BackupOptions := {| noEmail := false; keepFiles := false |}.

(** No database tool is installed: every command fails and leaves nothing. *)
Definition no_tools : Env :=
  with_tool (fun _ => {| writes := false; entries := []; stderr := "";
                         failure := Some "/bin/sh: 1: mysqldump: not found" |}) calm.

(** Every command reports success and leaves nothing behind. *)
Definition silent_tool : Env :=
  with_tool (fun _ => {| writes := false; entries := []; stderr := ""; failure := None |})
            calm.


(** The encrypted backup is on disk and the SMTP credentials are in the
    environment. *)
Definition smtp_ready : World :=
  with_process_env (fun _ => <["SMTP_USER" := "mailer"]> {["SMTP_PASS" := "app-password"]})
                   backup_on_disk.

(** A saved configuration and an environment that overrides its SMTP user. *)
Definition saved_world : World :=
  with_process_env (fun _ => {["SMTP_USER" := "override"]})
    (world_with "/home/u/.config/quantum-database-backups/config.json"
       (File (Some (JObj (<["defaultEmail" := JStr "dba@example.com"]>
                           (<["smtp" := JObj {["user" := JStr "mailer"]}]> ∅)))))).

(** The settings of [nightly] without a keys path. *)
Definition no_keys : Config :=
  {| cfg_email := JStr "dba@example.com"; cfg_keys := JNull; cfg_dbName := JStr "orders_db";
     cfg_workDir := "/var/backups"; smtp_host := JStr "smtp.gmail.com";
     smtp_port := JNum 587; smtp_secure := JBool false;
     smtp_user := JStr "mailer"; smtp_pass := JStr "app-password" |}.

(** A run with --no-email that cleans up after itself. *)
Definition quiet_night : BackupOptions := {| noEmail := true; keepFiles := false |}.

(** Every collaborator does its work, but the operating system refuses to
    unlink: the files are held open elsewhere. *)
Definition busy : Env :=
  with_refusals
    (fun op p =>
       match op with
       | OpUnlink => Some (SystemError "EBUSY"
                             ("resource busy or locked, unlink '" ++ p ++ "'"))
       | _ => None
       end)
    calm.

(** The archive unpacks into a note only; a dump of an earlier run is still
    in the directory. *)
Definition notes_only : Env :=
  with_tool (fun _ => {| writes := true; entries := ["readme.txt"]; stderr := "";
                         failure := None |}) calm.

Definition stale_dump : World :=
  with_fs (insert "restore-temp/extracted/old.sql" (File None))
          (world_with "restore-temp/extracted" Dir).

(** ** Specification predicates *)

(** [p.isAvailable()] runs [cmd], always resolves, and resolves with [true]
    exactly when the run of [cmd] did not fail. *)
Definition probes (E : Env) (p : Provider) (cmd : string) : Prop :=
  forall w, exists w',
    isAvailable p w = (w', Normal (bool_decide (failure (tool E cmd) = None)))
    /\ spawned w' = app (spawned w) [cmd]
    /\ fs w' = fs w.

(** The parsed keys file is an object that has both key names. *)
Definition keys_object (v : JsVal) : Prop :=
  exists m : JsObj, v = JObj m /\ is_Some (m !! "publicKey") /\ is_Some (m !! "privateKey").

(** The required key names an object does not have, in the order asked. *)
Definition missing_keys (m : JsObj) : list string :=
  List.filter (fun k => negb (bool_decide (is_Some (m !! k)))) ["publicKey"; "privateKey"].

(** The config fields the providers read. *)
Definition provider_fields : list string :=
  ["mysqlUser"; "mysqlDatabase"; "postgresUser"; "postgresDatabase"; "mongodbUri"].

(** [always m R]: however a run of [m] ends, it relates the world it
    started in to the world it ends in by [R]. *)
Definition always {A} (m : M A) (R : World -> World -> Prop) : Prop :=
  forall w w' r, m w = (w', r) -> R w w'.

(** The file system differs at most at the paths [ps], where a regular file
    was written. *)
Definition touches (ps : list string) (w w' : World) : Prop :=
  forall q, fs w' !! q = fs w !! q \/ (In q ps /\ fs w' !! q = Some (File None)).

(** The providers of the registry. *)
Definition registered (E : Env) (p : Provider) : Prop :=
  In p (List.map snd (providers E)).

(** The name [generateBackupFilename] gives at the clock reading [d]. *)
Definition backup_name (d : Date) (dbName ext : string) : string :=
  "supabase-backup-" ++ format_timestamp d ++ "-" ++ dbName ++ "." ++ ext.

Fixpoint last_char (s : string) : option ascii :=
  match s with
  | EmptyString => None
  | String c rest =>
      match last_char rest with
      | Some c' => Some c'
      | None => Some c
      end
  end.

(** A run that changes no file and only adds lines to the console. *)
Definition quiet (w w' : World) : Prop :=
  fs w' = fs w /\ exists lines, console w' = app (console w) lines.

(** The number a two-character field of a time stamp stands for. *)
Definition field_value (s : string) : Z :=
  match s with
  | String a (String b EmptyString) =>
      10 * (Z.of_nat (nat_of_ascii a) - 48) + (Z.of_nat (nat_of_ascii b) - 48)
  | _ => -1
  end.

(** [process.env.k] is set and not the empty string. *)
Definition env_set (w : World) (k : string) : bool :=
  match process_env w !! k with
  | Some v => negb (String.eqb v "")
  | None => false
  end.

(** [process.env.k] as the program reads it. *)
Definition env_value (w : World) (k : string) : JsVal :=
  match process_env w !! k with
  | Some v => JStr v
  | None => JUndefined
  end.

(** The result of [mergeConfig] when the saved configuration is the object
    [m] (the empty object when nothing is saved). *)
Definition merged_with (options m : JsObj) (w : World) : Merged :=
  {| merged_email := js_or (js_or (get options "email") (get m "defaultEmail")) JNull;
     merged_keys := js_or (js_or (get options "keys") (get m "keysPath")) JNull;
     merged_dbName := js_or (js_or (get options "dbName") (get m "defaultDbName")) JNull;
     merged_workDir := js_or (js_or (get options "workDir") (get m "workDir"))
                             (JStr "./backups");
     merged_smtp_host := js_or (js_or (env_value w "SMTP_HOST")
                                      (read_prop_opt (get m "smtp") "host"))
                               (JStr "smtp.gmail.com");
     merged_smtp_port :=
       match parseInt10 (js_or (js_or (env_value w "SMTP_PORT")
                                      (read_prop_opt (get m "smtp") "port"))
                               (JStr "587")) with
       | Some n => if n =? 0 then 587 else n
       | None => 587
       end;
     merged_smtp_secure := js_or (js_or (JBool (is_string (env_value w "SMTP_SECURE") "true"))
                                        (read_prop_opt (get m "smtp") "secure"))
                                 (JBool false);
     merged_smtp_user := js_or (js_or (env_value w "SMTP_USER")
                                      (read_prop_opt (get m "smtp") "user")) JNull;
     merged_smtp_pass := js_or (js_or (env_value w "SMTP_PASS")
                                      (read_prop_opt (get m "smtp") "pass")) JNull |}.

(** The saved configuration is the object [m]: the file holds it, or there
    is no file and [m] is empty. *)
Definition saved_config (E : Env) (w : World) (m : JsObj) : Prop :=
  (fs w !! getConfigPath E = None /\ m = ∅)
  \/ fs w !! getConfigPath E = Some (File (Some (JObj m))).

(** [result] is [first || second || fallback]. *)
Definition prefers (result first second fallback : JsVal) : Prop :=
  (truthy first = true -> result = first)
  /\ (truthy first = false -> truthy second = true -> result = second)
  /\ (truthy first = false -> truthy second = false -> result = fallback).

(** A run that leaves the world as it is. *)
Definition unchanged (w w' : World) : Prop := w' = w.



(** A run that issues no call of its own that changes the file system and
    does not read the clock. *)
Definition hands_off (w w' : World) : Prop :=
  syscalls w' = syscalls w /\ ticks w' = ticks w.

(** A call whose promise settles, however it is run. *)
Definition settles {A} (m : M A) : Prop :=
  forall w w' r, m w = (w', r) -> r <> Unsettled.

(** The message of the first check of the backup command that fails, in the
    order in which the command makes them. *)
Definition preflight_error (config : Config) (options : BackupOptions) : option string :=
  if negb (truthy (cfg_keys config))
  then Some ("Keys path not specified. Run " ++ dq ++ "qdb init" ++ dq
             ++ " or use --keys option.")
  else if negb (truthy (cfg_email config)) && negb (noEmail options)
  then Some ("Email not specified. Run " ++ dq ++ "qdb init" ++ dq
             ++ " or use --email option.")
  else if negb (truthy (cfg_dbName config))
  then Some ("Database name not specified. Run " ++ dq ++ "qdb init" ++ dq
             ++ " or use --db-name option.")
  else if truthy (cfg_email config) && negb (noEmail options)
          && (negb (truthy (smtp_user config)) || negb (truthy (smtp_pass config)))
  then Some ("SMTP not configured. Run " ++ dq ++ "qdb init" ++ dq
             ++ " or set SMTP_USER and SMTP_PASS environment variables.")
  else None.

(** * Properties *)

Ltac munfold :=
  unfold mbind, mret, M_bind, M_ret, bind, ret, throw, try_catch, try_finally,
         when, lift in *.

(** ** deleteFile *)

Lemma blocked_false (m : gmap string Node) (p : string) :
  blocked m p = false <-> forall d, In d (parents p) -> is_file (m !! d) = false.
Proof.
  unfold blocked. split.
  - intros H d Hd. destruct (is_file (m !! d)) eqn:Hf; [|reflexivity].
    rewrite <- H. symmetry. apply existsb_exists. eauto.
  - intros H. destruct (existsb _ _) eqn:Hex; [|reflexivity].
    apply existsb_exists in Hex as (d & Hd & Hf). rewrite (H d Hd) in Hf. discriminate.
Qed.

Lemma blocked_delete (m : gmap string Node) (p q : string) :
  blocked m p = false -> blocked (delete q m) p = false.
Proof.
  rewrite !blocked_false. intros H d Hd. specialize (H d Hd).
  destruct (String.eq_dec q d) as [->|Hne].
  - rewrite lookup_delete_eq. reflexivity.
  - rewrite lookup_delete_ne by exact Hne. exact H.
Qed.

(** C10, refuted as stated: nothing exists at plain/child, because plain is
    a regular file; unlink fails there with ENOTDIR, not with ENOENT, and
    deleteFile rejects with that error. *)
Lemma deleteFile_rejects_below_a_file :
  fs below_a_file !! "plain/child" = None
  /\ deleteFile calm "plain/child" below_a_file
     = (record_call OpUnlink "plain/child" below_a_file,
        Throw (SystemError "ENOTDIR" "not a directory, unlink 'plain/child'")).
Proof. split; reflexivity. Qed.

(** C10, amended: deleteFile resolves, the file system left as it was, when
    unlink fails with ENOENT, as it does where nothing exists at the path,
    no regular file stands on the way to it and the operating system does
    not turn the call down; it rejects with the very error of unlink when
    that error is another one, also at a path where no file exists; and it
    can be repeated: after a deletion that resolved, deleting again resolves
    and changes no file. *)
Theorem deleteFile_swallows_only_ENOENT (E : Env) (p : string) (w : World) :
  (forall w' e, fs_unlink E p w = (w', Throw e) -> err_code e = Some "ENOENT" ->
     deleteFile E p w = (w', Normal tt) /\ fs w' = fs w)
  /\ (fs w !! p = None -> blocked (fs w) p = false -> refuses E OpUnlink p = None ->
      exists w', deleteFile E p w = (w', Normal tt) /\ fs w' = fs w)
  /\ (forall w' e, fs_unlink E p w = (w', Throw e) ->
        err_code e <> Some "ENOENT" -> deleteFile E p w = (w', Throw e))
  /\ (forall w1, deleteFile E p w = (w1, Normal tt) ->
        exists w2, deleteFile E p w1 = (w2, Normal tt) /\ fs w2 = fs w1).
Proof.
  split; [|split; [|split]].
  - intros w' e Hun Hcode. unfold deleteFile, try_catch. rewrite Hun.
    rewrite bool_decide_eq_true_2 by exact Hcode. cbn. split; [reflexivity|].
    revert Hun. unfold fs_unlink. cbn.
    destruct (refuses E OpUnlink p); [intros [= <- _]; reflexivity|].
    destruct (blocked (fs w) p); [intros [= <- _]; reflexivity|].
    destruct (fs w !! p) as [[|c]|]; intros [= <- _]; reflexivity.
  - intros Hnone Hfree Href. unfold deleteFile, try_catch, fs_unlink. cbn.
    rewrite Href, Hfree, Hnone. cbn. eauto.
  - intros w' e Hun Hcode. unfold deleteFile, try_catch. rewrite Hun.
    rewrite bool_decide_eq_false_2 by exact Hcode. reflexivity.
  - intros w1. unfold deleteFile, try_catch, fs_unlink. cbn.
    destruct (refuses E OpUnlink p) as [e|] eqn:Hr; cbn.
    + case_bool_decide as Hc; cbn; [|discriminate].
      intros [= <-]. cbn. rewrite ?Hr.
      rewrite ?bool_decide_eq_true_2 by exact Hc. cbn. eauto.
    + destruct (blocked (fs w) p) eqn:Hfree; [cbn; discriminate|].
      destruct (fs w !! p) as [[|c]|] eqn:Hp; cbn.
      * discriminate.
      * intros [= <-]. cbn. rewrite ?Hr, (blocked_delete _ _ _ Hfree), lookup_delete_eq.
        cbn. eauto.
      * intros [= <-]. cbn. rewrite ?Hr, Hfree, Hp. cbn. eauto.
Qed.

Lemma deleteFile_swallows_only_ENOENT_witness :
  (exists w', deleteFile calm "backups/a.sql" empty_world = (w', Normal tt)
              /\ fs w' = fs empty_world)
  /\ deleteFile jammed "/srv/orders.zip.encrypted" backup_on_disk
     = (record_call OpUnlink "/srv/orders.zip.encrypted" backup_on_disk,
        Throw (SystemError "EBUSY"
                 "resource busy or locked, unlink '/srv/orders.zip.encrypted'")).
Proof.
  split.
  - apply (proj1 (proj2 (deleteFile_swallows_only_ENOENT calm "backups/a.sql" empty_world)));
      reflexivity.
  - apply (proj1 (proj2 (proj2 (deleteFile_swallows_only_ENOENT jammed
                                  "/srv/orders.zip.encrypted" backup_on_disk)))).
    + reflexivity.
    + discriminate.
Defined.

(** ** isAvailable *)

Lemma probe_spec (E : Env) (cmd : string) (w : World) :
  exists w',
    probe E cmd w = (w', Normal (bool_decide (failure (tool E cmd) = None)))
    /\ spawned w' = app (spawned w) [cmd]
    /\ fs w' = fs w.
Proof.
  unfold probe, execAsync. munfold. cbn.
  destruct (failure (tool E cmd)) as [msg|] eqn:Hf; cbn.
  - eexists. split; [reflexivity|]. cbn. unfold deposit.
    destruct (writes (tool E cmd)); auto.
  - eexists. split; [reflexivity|]. cbn. unfold deposit.
    destruct (writes (tool E cmd)); auto.
Qed.

(** C7: for each of the four providers isAvailable never throws: it runs the
    version command of the provider's tool and resolves with true when that
    run succeeds and with false when it fails, whatever the failure. *)
Theorem isAvailable_never_throws (E : Env) :
  probes E (supabaseProvider E) "pnpx supabase --version"
  /\ probes E (mongodbProvider E) "mongodump --version"
  /\ probes E (mysqlProvider E) "mysqldump --version"
  /\ probes E (postgresProvider E) "pg_dump --version".
Proof.
  repeat split; intros w; apply probe_spec.
Qed.

(** ** Fail-fast option checks of the providers *)

Lemma get_missing (o : JsObj) (k : string) : o !! k = None -> get o k = JUndefined.
Proof. intros H. unfold get. rewrite H. reflexivity. Qed.

(** C5: createDump and restoreFromDump of the MySQL provider on options
    without a user or without a database, and those of the MongoDB provider
    on options without a uri, reject with an error whose message names what
    is required; the world is the one the call started in, so no command was
    spawned. *)
Theorem providers_fail_fast (E : Env) (path : string) (options : JsObj) (w : World) :
  (options !! "user" = None \/ options !! "database" = None ->
     createDump (mysqlProvider E) path options w
       = (w, Throw (Error "MySQL dump failed: MySQL user and database are required"))
     /\ restoreFromDump (mysqlProvider E) path options w
       = (w, Throw (Error
            "MySQL restore failed: MySQL user and database are required for restore")))
  /\ (options !! "uri" = None ->
     createDump (mongodbProvider E) path options w
       = (w, Throw (Error "MongoDB dump failed: MongoDB URI is required"))
     /\ restoreFromDump (mongodbProvider E) path options w
       = (w, Throw (Error "MongoDB restore failed: MongoDB URI is required for restore"))).
Proof.
  split.
  - intros Hmiss. cbn. unfold mysql_createDump, mysql_restoreFromDump. munfold.
    assert (Hb : negb (truthy (get options "user"))
                 || negb (truthy (get options "database")) = true).
    { destruct Hmiss as [H|H]; rewrite (get_missing _ _ H); cbn;
        [reflexivity | apply orb_true_r]. }
    rewrite Hb. split; reflexivity.
  - intros Hmiss. cbn. unfold mongodb_createDump, mongodb_restoreFromDump. munfold.
    rewrite (get_missing _ _ Hmiss). cbn. split; reflexivity.
Qed.

Lemma providers_fail_fast_witness :
  createDump (mysqlProvider calm) "backups/a.sql" {["host" := JStr "db.local"]} empty_world
    = (empty_world,
       Throw (Error "MySQL dump failed: MySQL user and database are required"))
  /\ createDump (mongodbProvider calm) "backups/a.archive"
       {["host" := JStr "db.local"]} empty_world
    = (empty_world, Throw (Error "MongoDB dump failed: MongoDB URI is required")).
Proof.
  split.
  - apply (proj1 (providers_fail_fast calm "backups/a.sql"
                    {["host" := JStr "db.local"]} empty_world)).
    left. reflexivity.
  - apply (proj2 (providers_fail_fast calm "backups/a.archive"
                    {["host" := JStr "db.local"]} empty_world)).
    reflexivity.
Defined.

(** ** validateConfig of the providers *)

Lemma get_insert_other (o : JsObj) (k k' : string) (v : JsVal) :
  k <> k' -> get (<[k := v]> o) k' = get o k'.
Proof. intros H. unfold get. rewrite lookup_insert_ne by exact H. reflexivity. Qed.

(** C3, refuted as stated: a config without any URI passes the validation of
    the MongoDB provider. *)
Lemma validateConfig_accepts_missing_uri :
  (∅ : JsObj) !! "uri" = None
  /\ (∅ : JsObj) !! "mongodbUri" = None
  /\ validateConfig (mongodbProvider calm) ∅ = Normal (mkValidation true []).
Proof. repeat split. Qed.

(** C3, amended: Supabase accepts every config; MySQL and PostgreSQL read the
    fields mysqlUser, mysqlDatabase and postgresUser, postgresDatabase,
    reject with a non-empty list of errors when one of the two is missing or
    falsy and accept with no error when both are truthy; MongoDB requires no
    field: it accepts a config whose mongodbUri is missing or falsy, and a
    non-empty string mongodbUri exactly when it starts with mongodb://.  The
    result never depends on another field of the config. *)
Theorem validateConfig_reads_prefixed_fields (E : Env) (config : JsObj) :
  validateConfig (supabaseProvider E) config = Normal (mkValidation true [])
  /\ (truthy (get config "mysqlUser") = false \/ truthy (get config "mysqlDatabase") = false ->
       exists errs, validateConfig (mysqlProvider E) config = Normal (mkValidation false errs)
                    /\ errs <> [])
  /\ (truthy (get config "mysqlUser") = true -> truthy (get config "mysqlDatabase") = true ->
       validateConfig (mysqlProvider E) config = Normal (mkValidation true []))
  /\ (truthy (get config "postgresUser") = false
       \/ truthy (get config "postgresDatabase") = false ->
       exists errs, validateConfig (postgresProvider E) config
                      = Normal (mkValidation false errs)
                    /\ errs <> [])
  /\ (truthy (get config "postgresUser") = true ->
       truthy (get config "postgresDatabase") = true ->
       validateConfig (postgresProvider E) config = Normal (mkValidation true []))
  /\ (truthy (get config "mongodbUri") = false ->
       validateConfig (mongodbProvider E) config = Normal (mkValidation true []))
  /\ (forall s, get config "mongodbUri" = JStr s -> s <> "" ->
       validateConfig (mongodbProvider E) config
         = Normal (mkValidation (startsWith s "mongodb://")
                     (if startsWith s "mongodb://" then []
                      else ["MongoDB URI must start with mongodb://"])))
  /\ (forall k v, ~ In k provider_fields ->
       Forall (fun p : Provider => validateConfig p (<[k := v]> config)
                                   = validateConfig p config)
              (List.map snd (providers E))).
Proof.
  repeat apply conj.
  - reflexivity.
  - intros H. cbn. unfold mysql_validateConfig.
    destruct (truthy (get config "mysqlUser")), (truthy (get config "mysqlDatabase"));
      cbn; try (destruct H; discriminate); eexists; (split; [reflexivity | discriminate]).
  - intros H1 H2. cbn. unfold mysql_validateConfig. rewrite H1, H2. reflexivity.
  - intros H. cbn. unfold postgres_validateConfig.
    destruct (truthy (get config "postgresUser")),
             (truthy (get config "postgresDatabase"));
      cbn; try (destruct H; discriminate); eexists; (split; [reflexivity | discriminate]).
  - intros H1 H2. cbn. unfold postgres_validateConfig. rewrite H1, H2. reflexivity.
  - intros H. cbn. unfold mongodb_validateConfig. rewrite H. reflexivity.
  - intros s Hs Hne. cbn. unfold mongodb_validateConfig. rewrite Hs. cbn.
    destruct (String.eqb_spec s "") as [->|_]; [congruence|]. cbn.
    destruct (startsWith s "mongodb://"); reflexivity.
  - intros k v Hk. cbn in Hk.
    assert (Hget : forall k', In k' provider_fields ->
                              get (<[k := v]> config) k' = get config k').
    { intros k' Hin. apply get_insert_other. intros ->. apply Hk. exact Hin. }
    repeat constructor; cbn;
      unfold mysql_validateConfig, postgres_validateConfig, mongodb_validateConfig;
      rewrite ?Hget by (cbn; tauto); reflexivity.
Qed.

Lemma validateConfig_reads_prefixed_fields_witness :
  (exists errs, validateConfig (mysqlProvider calm) {["mysqlUser" := JStr "root"]}
                  = Normal (mkValidation false errs) /\ errs <> [])
  /\ validateConfig (mysqlProvider calm)
       (<["mysqlUser" := JStr "root"]> {["mysqlDatabase" := JStr "orders"]})
     = Normal (mkValidation true [])
  /\ validateConfig (mongodbProvider calm) {["mongodbUri" := JStr "mongodb://db:27017"]}
     = Normal (mkValidation true []).
Proof.
  split; [|split].
  - apply (validateConfig_reads_prefixed_fields calm {["mysqlUser" := JStr "root"]}).
    right. reflexivity.
  - apply (validateConfig_reads_prefixed_fields calm
             (<["mysqlUser" := JStr "root"]> {["mysqlDatabase" := JStr "orders"]}));
      reflexivity.
  - apply (proj1 (proj2 (proj2 (proj2 (proj2 (proj2 (proj2
             (validateConfig_reads_prefixed_fields calm
                {["mongodbUri" := JStr "mongodb://db:27017"]}))))))) "mongodb://db:27017").
    + reflexivity.
    + discriminate.
Defined.

(** ** loadKeys *)

Lemma has_property_required (m : JsObj) (k : string) :
  In k ["publicKey"; "privateKey"] ->
  has_property (JObj m) k = bool_decide (is_Some (m !! k)).
Proof.
  intros [<-|[<-|[]]]; unfold has_property; cbn; apply orb_false_r.
Qed.

Lemma validateRequiredKeys_object (m : JsObj) :
  validateRequiredKeys (JObj m) ["publicKey"; "privateKey"]
  = match missing_keys m with
    | [] => Normal tt
    | ks => Throw (Error ("Missing required keys: " ++ join ", " ks))
    end.
Proof.
  unfold validateRequiredKeys, missing_keys. cbn [List.filter].
  rewrite !has_property_required by (cbn; tauto).
  destruct (bool_decide (is_Some (m !! "publicKey"))),
           (bool_decide (is_Some (m !! "privateKey"))); reflexivity.
Qed.

Lemma missing_keys_nil (m : JsObj) :
  missing_keys m = [] <-> is_Some (m !! "publicKey") /\ is_Some (m !! "privateKey").
Proof.
  unfold missing_keys. cbn [List.filter].
  do 2 case_bool_decide; cbn; split; try tauto; try discriminate.
Qed.

(** The name of an array index starts with a digit, the key names do not. *)
Lemma index_name_not_key (z : Z) (k : string) :
  In k ["publicKey"; "privateKey"] -> String.eqb k (string_of_Z z) = false.
Proof.
  intros [<-|[<-|[]]]; unfold string_of_Z, NilZero.string_of_int, NilZero.string_of_uint;
    destruct z as [|q|q]; cbn; try reflexivity; destruct (Pos.to_uint q); reflexivity.
Qed.

Lemma has_property_array (l : list JsVal) (k : string) :
  In k ["publicKey"; "privateKey"] -> has_property (JArr l) k = false.
Proof.
  intros Hk. unfold has_property.
  assert (Hidx : forall idx : list nat,
             existsb (fun i => String.eqb k (string_of_Z (Z.of_nat i))) idx = false).
  { induction idx as [|i idx IH]; cbn; [reflexivity|].
    rewrite (index_name_not_key _ _ Hk). exact IH. }
  rewrite Hidx. destruct Hk as [<-|[<-|[]]]; reflexivity.
Qed.

Lemma validateRequiredKeys_not_object (v : JsVal) :
  (forall m, v <> JObj m) ->
  exists e, validateRequiredKeys v ["publicKey"; "privateKey"] = Throw e.
Proof.
  intros Hv. destruct v; cbn [validateRequiredKeys]; eauto.
  - cbn [List.filter]. rewrite !has_property_array by (cbn; tauto). cbn. eauto.
  - exfalso. eapply Hv. reflexivity.
Qed.

Lemma loadKeys_parsed (p : string) (w : World) (v : JsVal) :
  fs w !! p = Some (File (Some v)) ->
  loadKeys p w
  = match validateRequiredKeys v ["publicKey"; "privateKey"] with
    | Normal _ => (w, Normal v)
    | Throw e => (w, Throw e)
    | Unsettled => (w, Unsettled)
    end.
Proof.
  intros Hp. unfold loadKeys, readJsonFile, read_and_parse. munfold. rewrite Hp.
  destruct (validateRequiredKeys v _); reflexivity.
Qed.

(** C6, refuted as stated: a keys file whose publicKey is a number and whose
    privateKey is null is accepted and returned as parsed. *)
Lemma loadKeys_accepts_non_string_fields :
  loadKeys "/home/u/keys.json" odd_keys_world = (odd_keys_world, Normal odd_keys)
  /\ key_of odd_keys "publicKey" = Normal (JNum 1)
  /\ key_of odd_keys "privateKey" = Normal JNull.
Proof. repeat split. Qed.

(** C6, amended: of the keys files that parse as JSON, loadKeys accepts
    exactly the objects that have the two keys publicKey and privateKey,
    whatever the type of their values, and returns the parsed object; every
    other parsed value is rejected, and an object that lacks one of the two
    keys is rejected with the error "Missing required keys: " followed by
    every missing key. *)
Theorem loadKeys_accepts_exactly (p : string) (w : World) (v : JsVal) :
  fs w !! p = Some (File (Some v)) ->
  (keys_object v -> loadKeys p w = (w, Normal v))
  /\ (~ keys_object v -> exists e, loadKeys p w = (w, Throw e))
  /\ (forall m, v = JObj m -> missing_keys m <> [] ->
        loadKeys p w
        = (w, Throw (Error ("Missing required keys: " ++ join ", " (missing_keys m))))).
Proof.
  intros Hp. rewrite (loadKeys_parsed p w v Hp). split; [|split].
  - intros (m & -> & Hpub & Hpriv). rewrite validateRequiredKeys_object.
    rewrite (proj2 (missing_keys_nil m)) by auto. reflexivity.
  - intros Hno. destruct v;
      try (match goal with
           | |- context [validateRequiredKeys ?u _] =>
               destruct (validateRequiredKeys_not_object u) as [e ->];
               [intros ?; discriminate | eauto]
           end; fail).
    rewrite validateRequiredKeys_object.
    destruct (missing_keys props) eqn:Hm.
    + exfalso. apply Hno. exists props. split; [reflexivity|].
      apply missing_keys_nil. exact Hm.
    + eauto.
  - intros m -> Hm. rewrite validateRequiredKeys_object.
    destruct (missing_keys m); [congruence | reflexivity].
Qed.

Lemma loadKeys_accepts_exactly_witness :
  loadKeys "/home/u/keys.json" odd_keys_world = (odd_keys_world, Normal odd_keys).
Proof.
  apply (loadKeys_accepts_exactly "/home/u/keys.json" odd_keys_world odd_keys).
  - reflexivity.
  - eexists. split; [reflexivity|]. split; eexists; reflexivity.
Defined.

(** ** generateBackupFilename *)

Lemma forallb_Z_range (f : Z -> bool) (lo n : Z) :
  forallb f (List.map (fun i => lo + Z.of_nat i) (seq 0 (Z.to_nat n))) = true ->
  forall z, lo <= z < lo + n -> f z = true.
Proof.
  intros Hall z Hz. rewrite forallb_forall in Hall. apply Hall.
  apply in_map_iff. exists (Z.to_nat (z - lo)). split; [lia|].
  apply in_seq. lia.
Qed.

Lemma padStart_two_digits (n : Z) :
  0 <= n <= 99 -> two_digits (padStart 2 "0" (string_of_Z n)) = true.
Proof.
  intros Hn.
  apply (forallb_Z_range (fun z => two_digits (padStart 2 "0" (string_of_Z z))) 0 100);
    [vm_compute; reflexivity | lia].
Qed.

Lemma year_four_digits (y : Z) :
  1000 <= y <= 9999 -> four_digits (string_of_Z y) = true.
Proof.
  intros Hy.
  apply (forallb_Z_range (fun z => four_digits (string_of_Z z)) 1000 9000);
    [vm_compute; reflexivity | lia].
Qed.

Lemma prefix_refl (s : string) : String.prefix s s = true.
Proof.
  induction s as [|c s IH]; cbn; [reflexivity|].
  destruct (ascii_dec c c); [exact IH | congruence].
Qed.

Lemma drop_chars_all (s : string) : drop_chars (String.length s) s = "".
Proof. induction s as [|c s IH]; cbn; [reflexivity | exact IH]. Qed.

Lemma glob_match_at (items : list Item) (s : string) (i : nat) :
  (i <= String.length s)%nat ->
  match_items items (drop_chars i s) = true ->
  glob_match items s = true.
Proof.
  intros Hi Hm. unfold glob_match. apply existsb_exists. exists i. split; [|exact Hm].
  apply in_seq. lia.
Qed.

(** A timestamp of eight digits, a dash and six digits makes the file name
    match the pattern of backups. *)
Lemma timestamp_matches (y mo d h mi s dbName ext : string) :
  four_digits y = true -> two_digits mo = true -> two_digits d = true ->
  two_digits h = true -> two_digits mi = true -> two_digits s = true ->
  glob_match (backup_pattern dbName ext)
    ("supabase-backup-" ++ (y ++ mo ++ d ++ "-" ++ h ++ mi ++ s)
                        ++ "-" ++ dbName ++ "." ++ ext) = true.
Proof.
  intros Hy Hmo Hd Hh Hmi Hs.
  destruct y as [|y1 [|y2 [|y3 [|y4 [|]]]]]; try discriminate.
  destruct mo as [|m1 [|m2 [|]]]; try discriminate.
  destruct d as [|d1 [|d2 [|]]]; try discriminate.
  destruct h as [|h1 [|h2 [|]]]; try discriminate.
  destruct mi as [|i1 [|i2 [|]]]; try discriminate.
  destruct s as [|s1 [|s2 [|]]]; try discriminate.
  cbn in Hy, Hmo, Hd, Hh, Hmi, Hs.
  repeat match goal with
         | H : _ && _ = true |- _ => apply andb_prop in H; destruct H
         end.
  unfold backup_pattern.
  set (tail := "-" ++ dbName ++ "." ++ ext). clearbody tail.
  cbv [String.append].
  apply (glob_match_at _ _ 8); [cbn; lia|].
  cbn. repeat match goal with
              | H : is_digit ?c = true |- _ => rewrite H; clear H
              end.
  cbn. rewrite prefix_refl, drop_chars_all. reflexivity.
Qed.

(** C8: at every reading of the clock that is a calendar date of a year of
    four digits, generateBackupFilename(dbName, ext) returns supabase-backup-, the
    timestamp of that reading, a dash, the database name, a dot and the
    extension, and this name matches *-backup-<8 digits>-<6 digits>-dbName.ext;
    so it does for orders_db with sql, and with zip the name differs from
    that in its suffix only. *)
Theorem generateBackupFilename_matches (E : Env) (w : World) (dbName ext : string) :
  calendar_date (clock E (ticks w)) = true ->
  four_digit_year (clock E (ticks w)) = true ->
  generateBackupFilename E dbName ext w
  = (with_ticks S w,
     Normal ("supabase-backup-" ++ format_timestamp (clock E (ticks w))
             ++ "-" ++ dbName ++ "." ++ ext))
  /\ glob_match (backup_pattern dbName ext)
       ("supabase-backup-" ++ format_timestamp (clock E (ticks w))
        ++ "-" ++ dbName ++ "." ++ ext) = true.
Proof.
  intros Hcal Hyear. split; [reflexivity|].
  unfold calendar_date, four_digit_year in *.
  repeat match goal with
         | H : _ && _ = true |- _ => apply andb_prop in H; destruct H
         end.
  repeat match goal with
         | H : (_ <=? _) = true |- _ => apply Z.leb_le in H
         end.
  unfold format_timestamp.
  apply timestamp_matches;
    (apply year_four_digits || apply padStart_two_digits); lia.
Qed.

Lemma generateBackupFilename_matches_witness :
  generateBackupFilename calm "orders_db" "sql" empty_world
  = (with_ticks S empty_world, Normal "supabase-backup-20240105-130709-orders_db.sql")
  /\ glob_match (backup_pattern "orders_db" "zip")
       "supabase-backup-20240105-130709-orders_db.zip" = true.
Proof.
  split.
  - apply (generateBackupFilename_matches calm empty_world "orders_db" "sql");
      reflexivity.
  - apply (generateBackupFilename_matches calm empty_world "orders_db" "zip");
      reflexivity.
Defined.

(** ** Runs, step by step *)

Lemma bind_run {A B} (m : M A) (k : A -> M B) (w : World) :
  (m ≫= k) w
  = match m w with
    | (w', Normal a) => k a w'
    | (w', Throw e) => (w', Throw e)
    | (w', Unsettled) => (w', Unsettled)
    end.
Proof. reflexivity. Qed.

Lemma bind_normal {A B} (m : M A) (k : A -> M B) (w w1 : World) (a : A) :
  m w = (w1, Normal a) -> (m ≫= k) w = k a w1.
Proof. intros H. rewrite bind_run, H. reflexivity. Qed.

Lemma bind_throw {A B} (m : M A) (k : A -> M B) (w w1 : World) (e : JsError) :
  m w = (w1, Throw e) -> (m ≫= k) w = (w1, Throw e).
Proof. intros H. rewrite bind_run, H. reflexivity. Qed.

Lemma bind_inv {A B} (m : M A) (k : A -> M B) (w w' : World) (r : Completion B) :
  (m ≫= k) w = (w', r) ->
  (exists e, m w = (w', Throw e) /\ r = Throw e)
  \/ (exists w1 a, m w = (w1, Normal a) /\ k a w1 = (w', r))
  \/ (m w = (w', Unsettled) /\ r = Unsettled).
Proof.
  rewrite bind_run. destruct (m w) as [w1 [a|e|]]; intros H.
  - right. left. eauto.
  - left. injection H as <- <-. eauto.
  - right. right. injection H as <- <-. auto.
Qed.

Lemma bind_throw_inv {A B} (m : M A) (k : A -> M B) (w w' : World) (e : JsError) :
  (m ≫= k) w = (w', Throw e) ->
  (exists e', m w = (w', Throw e') /\ Throw e = Throw e' :> Completion B)
  \/ (exists w1 a, m w = (w1, Normal a) /\ k a w1 = (w', Throw e)).
Proof.
  intros H. apply bind_inv in H as [H|[H|[_ H]]]; [left; exact H | right; exact H|].
  discriminate.
Qed.

Lemma bind_normal_inv {A B} (m : M A) (k : A -> M B) (w w' : World) (b : B) :
  (m ≫= k) w = (w', Normal b) ->
  exists w1 a, m w = (w1, Normal a) /\ k a w1 = (w', Normal b).
Proof.
  intros H. apply bind_inv in H as [(e & _ & He)|[H|[_ He]]];
    [discriminate | exact H | discriminate].
Qed.

Lemma try_finally_run {A} (m : M A) (f : M unit) (w : World) :
  try_finally m f w
  = match m w with
    | (w1, r) =>
        match r with
        | Unsettled => (w1, Unsettled)
        | _ =>
            match f w1 with
            | (w2, Normal _) => (w2, r)
            | (w2, Throw e) => (w2, Throw e)
            | (w2, Unsettled) => (w2, Unsettled)
            end
        end
    end.
Proof. unfold try_finally. destruct (m w) as [w1 [a|e|]]; reflexivity. Qed.

(** ** Strings and paths *)

Lemma append_assoc (a b c : string) : (a ++ b) ++ c = a ++ (b ++ c).
Proof.
  induction a as [|x a IH]; cbv [String.append]; fold String.append;
    [reflexivity | rewrite IH; reflexivity].
Qed.

Lemma prefix_append (a b c : string) :
  String.prefix (a ++ b) (a ++ c) = String.prefix b c.
Proof.
  induction a as [|x a IH]; cbv [String.append]; fold String.append; [reflexivity|].
  cbn. destruct (ascii_dec x x); [exact IH | congruence].
Qed.

Lemma prefix_append_nil (a c : string) : String.prefix a (a ++ c) = true.
Proof.
  induction a as [|x a IH]; cbv [String.append]; fold String.append.
  - destruct c; reflexivity.
  - cbn. destruct (ascii_dec x x); [exact IH | congruence].
Qed.

Lemma under_self (d : string) : under d d = true.
Proof. unfold under. rewrite String.eqb_refl. reflexivity. Qed.

(** What is joined below a directory lies under it. *)
Lemma under_join (d name : string) : under d (path_join d name) = true.
Proof.
  unfold under, path_join.
  replace (d ++ "/" ++ name) with ((d ++ "/") ++ name) by apply append_assoc.
  rewrite prefix_append_nil. apply orb_true_r.
Qed.

Lemma under_join_join (d sub name : string) :
  under d (path_join (path_join d sub) name) = true.
Proof.
  unfold under, path_join.
  replace ((d ++ "/" ++ sub) ++ "/" ++ name) with ((d ++ "/") ++ sub ++ "/" ++ name)
    by (rewrite !append_assoc; reflexivity).
  rewrite prefix_append_nil. apply orb_true_r.
Qed.

(** ** The registry *)

Lemma Map_get_In {A} (m : list (string * A)) (k : string) (v : A) :
  Map_get m k = Some v -> In v (List.map snd m).
Proof.
  induction m as [|[k' v'] m IH]; cbn; [discriminate|].
  destruct (String.eqb k' k); [intros [= ->]; left; reflexivity | right; auto].
Qed.

Lemma select_provider_run (E : Env) (providerName : string) (w : World) :
  exists c, select_provider E providerName w = (w, c)
            /\ (forall p, c = Normal p -> registered E p).
Proof.
  unfold select_provider. destruct (truthy (JStr providerName)).
  - unfold lift, getProvider.
    destruct (Map_get (providers E) (toLowerCase providerName)) as [p|] eqn:Hget.
    + eexists. split; [reflexivity|]. intros q [= <-].
      exact (Map_get_In _ _ _ Hget).
    + eexists. split; [reflexivity|]. intros q [=].
  - eexists. split; [reflexivity|]. intros q [= <-]. left. reflexivity.
Qed.

(** ** Runs that settle *)

Lemma settles_ret {A} (a : A) : settles (mret a).
Proof. intros w w' r [= _ <-]. discriminate. Qed.

Lemma settles_throw {A} (e : JsError) : settles (@throw A e).
Proof. intros w w' r [= _ <-]. discriminate. Qed.

Lemma settles_lift {A} (c : Completion A) : c <> Unsettled -> settles (lift c).
Proof. intros Hc w w' r [= _ <-]. exact Hc. Qed.

Lemma settles_bind_post {A B} (m : M A) (k : A -> M B) (P : A -> Prop) :
  (forall w w' a, m w = (w', Normal a) -> P a) ->
  settles m -> (forall a, P a -> settles (k a)) -> settles (m ≫= k).
Proof.
  intros HP Hm Hk w w' r Hrun.
  apply bind_inv in Hrun as [(e & _ & ->)|[(w1 & a & H & H')|(H & _)]].
  - discriminate.
  - exact (Hk a (HP _ _ _ H) _ _ _ H').
  - destruct (Hm _ _ _ H eq_refl).
Qed.

Lemma settles_bind {A B} (m : M A) (k : A -> M B) :
  settles m -> (forall a, settles (k a)) -> settles (m ≫= k).
Proof. intros Hm Hk. apply (settles_bind_post m k (fun _ => True)); auto. Qed.

Lemma settles_try_catch {A} (m : M A) (h : JsError -> M A) :
  settles m -> (forall e, settles (h e)) -> settles (try_catch m h).
Proof.
  intros Hm Hh w w' r. unfold try_catch.
  destruct (m w) as [w1 [a|e|]] eqn:H.
  - intros [= _ <-]. discriminate.
  - apply Hh.
  - destruct (Hm _ _ _ H eq_refl).
Qed.

Lemma settles_when (b : bool) (m : M unit) : settles m -> settles (when b m).
Proof. intros Hm. destruct b; [exact Hm | apply settles_ret]. Qed.

(** The calls of the platform settle: each of them resolves or rejects. *)
Ltac settles_leaf :=
  intros ? ? ?;
  repeat match goal with
         | |- context [match ?x with _ => _ end] => destruct x
         | |- context [if ?b then _ else _] => destruct b
         end;
  intros [= _ <-]; discriminate.

Lemma console_log_settles (line : string) : settles (console_log line).
Proof. unfold console_log. settles_leaf. Qed.

Lemma fs_access_settles (p : string) : settles (fs_access p).
Proof. unfold fs_access. settles_leaf. Qed.

Lemma fs_mkdir_recursive_settles (E : Env) (p : string) : settles (fs_mkdir_recursive E p).
Proof. unfold fs_mkdir_recursive. cbv zeta. settles_leaf. Qed.

Lemma fs_rm_recursive_force_settles (E : Env) (p : string) :
  settles (fs_rm_recursive_force E p).
Proof. unfold fs_rm_recursive_force. cbv zeta. settles_leaf. Qed.

Lemma fs_readdir_settles (dir : string) : settles (fs_readdir dir).
Proof. unfold fs_readdir. settles_leaf. Qed.

Lemma execAsync_settles (E : Env) (cmd : string) (t : Target) : settles (execAsync E cmd t).
Proof. unfold execAsync. cbv zeta. settles_leaf. Qed.

Lemma run_cipher_settles (r : Run) (outputFile : string) : settles (run_cipher r outputFile).
Proof. unfold run_cipher. cbv zeta. settles_leaf. Qed.

Lemma key_of_settles (keys : JsVal) (k : string) : key_of keys k <> Unsettled.
Proof. destruct keys; discriminate. Qed.

Lemma getProvider_settles (E : Env) (name : string) : getProvider E name <> Unsettled.
Proof. unfold getProvider. destruct (Map_get _ _); discriminate. Qed.

(** One step of a proof that a run settles. *)
Ltac settle_step :=
  lazymatch goal with
  | |- settles (mret _) => apply settles_ret
  | |- settles (throw _) => apply settles_throw
  | |- settles (lift (key_of _ _)) => apply settles_lift, key_of_settles
  | |- settles (lift (getProvider _ _)) => apply settles_lift, getProvider_settles
  | |- settles (console_log _) => apply console_log_settles
  | |- settles (fs_access _) => apply fs_access_settles
  | |- settles (fs_mkdir_recursive _ _) => apply fs_mkdir_recursive_settles
  | |- settles (fs_readdir _) => apply fs_readdir_settles
  | |- settles (execAsync _ _ _) => apply execAsync_settles
  | |- settles (run_cipher _ _) => apply run_cipher_settles
  | |- settles (_ ≫= _) => apply settles_bind; [|intros ?]
  | |- settles (try_catch _ _) => apply settles_try_catch; [|intros ?]
  | |- settles (when _ _) => apply settles_when
  | |- settles (if ?b then _ else _) => destruct b
  | |- settles (match ?x with _ => _ end) => destruct x
  end.

Ltac settle := cbv zeta; repeat settle_step.

Lemma ensureDirectory_settles (E : Env) (d : string) : settles (ensureDirectory E d).
Proof. unfold ensureDirectory. settle. Qed.

Lemma select_provider_settles (E : Env) (providerName : string) :
  settles (select_provider E providerName).
Proof. unfold select_provider. settle. Qed.

Lemma registered_settles (E : Env) (p : Provider) :
  registered E p ->
  settles (isAvailable p)
  /\ (forall out options, settles (createDump p out options))
  /\ (forall dump options, settles (restoreFromDump p dump options)).
Proof.
  intros Hp. unfold registered in Hp. cbn in Hp.
  destruct Hp as [<-|[<-|[<-|[<-|[<-|[]]]]]]; cbn;
    (split; [unfold probe; settle|]);
    (split; [intros out options | intros dump options]);
    unfold supabase_createDump, supabase_restoreFromDump, mongodb_createDump,
           mongodb_restoreFromDump, mysql_createDump, mysql_restoreFromDump,
           postgres_createDump, postgres_restoreFromDump, warn_unless;
    settle.
Qed.

Lemma select_provider_registered (E : Env) (providerName : string) (w w' : World)
    (p : Provider) :
  select_provider E providerName w = (w', Normal p) -> registered E p.
Proof.
  intros H. destruct (select_provider_run E providerName w) as (c & Hsel & Hreg).
  rewrite Hsel in H. injection H as _ ->. apply Hreg. reflexivity.
Qed.

Lemma decryptBackupFile_settles (E : Env) (inputFile outputFile : string) (keys : JsVal) :
  settles (decryptBackupFile E inputFile outputFile keys).
Proof. unfold decryptBackupFile. settle. Qed.

Lemma extractZipArchive_settles (E : Env) (zipPath outputDir : string) :
  settles (extractZipArchive E zipPath outputDir).
Proof.
  unfold extractZipArchive.
  apply settles_bind; [apply ensureDirectory_settles | intros _]. settle.
Qed.

Lemma restore_stages_settles (E : Env) (encryptedBackupPath : string) (keys : JsVal)
    (providerName : string) (providerOptions : JsObj)
    (decryptedZipPath extractDir : string) :
  settles (restore_stages E encryptedBackupPath keys providerName providerOptions
                          decryptedZipPath extractDir).
Proof.
  unfold restore_stages.
  apply settles_bind; [apply console_log_settles | intros _].
  apply settles_bind; [apply decryptBackupFile_settles | intros _].
  apply settles_bind; [apply console_log_settles | intros _].
  apply settles_bind; [apply console_log_settles | intros _].
  apply settles_bind; [apply extractZipArchive_settles | intros dumpFilePath].
  apply settles_bind; [apply console_log_settles | intros _].
  apply (settles_bind_post _ _ (registered E));
    [intros w w' a; apply select_provider_registered
    | apply select_provider_settles | intros provider Hreg].
  destruct (registered_settles E provider Hreg) as (_ & _ & Hrestore).
  apply settles_bind; [apply console_log_settles | intros _].
  apply settles_bind; [apply Hrestore | intros _].
  settle.
Qed.

(** ** restoreFromBackup: the working directory *)

Lemma removed_under (d p : string) (m : gmap string Node) :
  under d p = true ->
  filter (fun kv : string * Node => under d kv.1 = false) m !! p = None.
Proof.
  intros Hu. apply map_lookup_filter_None. right. intros x _. cbn. congruence.
Qed.

Lemma restore_cleanup_spec (E : Env) (workDir : string) (w1 : World) :
  exists w2,
    restore_cleanup E workDir w1 = (w2, Normal tt)
    /\ last (syscalls w2) = Some (OpRm, workDir)
    /\ (refuses E OpRm workDir = None ->
        fs w2 = filter (fun kv : string * Node => under workDir kv.1 = false) (fs w1))
    /\ (forall err, refuses E OpRm workDir = Some err ->
        fs w2 = fs w1
        /\ console w2 = app (console w1)
             ["Warning: Failed to clean up temporary files: " ++ err_message err]).
Proof.
  unfold restore_cleanup, fs_rm_recursive_force, console_log. munfold.
  destruct (refuses E OpRm workDir) as [err|] eqn:Hr; cbn.
  - eexists. split; [reflexivity|]. cbn. rewrite last_snoc.
    split; [reflexivity|]. split; [intros [=]|].
    intros ? [= <-]. split; reflexivity.
  - eexists. split; [reflexivity|]. cbn. rewrite last_snoc.
    split; [reflexivity|]. split; [reflexivity|]. intros ? [=].
Qed.

(** C2, refuted as stated: when the operating system refuses the removal, the
    working directory is still there after restoreFromBackup has returned
    (here on the exit path of a failed decrypt stage); the refusal ends in a
    warning. *)
Lemma restoreFromBackup_leaves_directory :
  exists w' e,
    restoreFromBackup stubborn "/srv/orders.zip.encrypted" good_keys "supabase" ∅
                      "restore-temp" empty_world = (w', Throw e)
    /\ err_message e
       = "Decryption failed: ENOENT: no such file or directory, access '/srv/orders.zip.encrypted'"
    /\ fs w' !! "restore-temp" = Some Dir
    /\ last (console w')
       = Some "Warning: Failed to clean up temporary files: EBUSY: resource busy or locked, rmdir 'restore-temp'".
Proof. do 2 eexists. split; [vm_compute; reflexivity|]. repeat split. Qed.

(** C2, amended: once the working directory is there, restoreFromBackup
    issues its recursive removal as the last file-system call before it
    returns, on every exit path: its completion, normal or thrown, is the one
    of the decrypt, extract and restore stages.  When the removal is not
    refused, nothing under the working directory exists afterwards, the
    directory itself and its extracted subdirectory included; when it is
    refused, the refusal is logged as a warning and changes neither the tree
    nor the completion. *)
Theorem restoreFromBackup_removes_workdir (E : Env) (encryptedBackupPath : string)
    (keys : JsVal) (providerName : string) (providerOptions : JsObj)
    (workDir : string) (w w0 w' : World) (r : Completion string) :
  ensureDirectory E workDir w = (w0, Normal tt) ->
  restoreFromBackup E encryptedBackupPath keys providerName providerOptions workDir w
    = (w', r) ->
  (exists w1,
      restore_stages E encryptedBackupPath keys providerName providerOptions
        (path_join workDir "decrypted-backup.zip") (path_join workDir "extracted") w0
      = (w1, r)
      /\ (forall err, refuses E OpRm workDir = Some err ->
          fs w' = fs w1
          /\ console w' = app (console w1)
               ["Warning: Failed to clean up temporary files: " ++ err_message err]))
  /\ last (syscalls w') = Some (OpRm, workDir)
  /\ (refuses E OpRm workDir = None ->
      (forall p, under workDir p = true -> fs w' !! p = None)
      /\ fs w' !! workDir = None
      /\ fs w' !! path_join workDir "extracted" = None).
Proof.
  intros Hens Hrun. unfold restoreFromBackup in Hrun.
  rewrite (bind_normal _ _ _ _ _ Hens) in Hrun. cbv zeta in Hrun.
  rewrite try_finally_run in Hrun.
  match type of Hrun with
  | context [restore_stages ?a ?b ?c ?d ?e ?f ?g ?h] =>
      destruct (restore_stages a b c d e f g h) as [w1 r1] eqn:Hst
  end.
  destruct (restore_cleanup_spec E workDir w1) as (w2 & Hcl & Hlast & Hok & Hno).
  rewrite Hcl in Hrun.
  assert (Hend : (w2, r1) = (w', r))
    by (pose proof (restore_stages_settles _ _ _ _ _ _ _ _ _ _ Hst);
        destruct r1; [exact Hrun | exact Hrun | contradiction]).
  clear Hrun. injection Hend as <- <-.
  split; [|split].
  - exists w1. split; [reflexivity | exact Hno].
  - exact Hlast.
  - intros Hr. rewrite (Hok Hr).
    assert (Hall : forall p, under workDir p = true ->
                   filter (fun kv : string * Node => under workDir kv.1 = false) (fs w1) !! p
                   = None) by (intros p; apply removed_under).
    split; [exact Hall|]. split; apply Hall; [apply under_self | apply under_join].
Qed.

Lemma restoreFromBackup_removes_workdir_witness :
  exists w',
    restoreFromBackup obliging "/srv/orders.zip.encrypted" good_keys "supabase" ∅
                      "restore-temp" backup_on_disk
    = (w', Normal "restore-temp/extracted/orders_db.sql")
    /\ last (syscalls w') = Some (OpRm, "restore-temp")
    /\ fs w' !! "restore-temp/extracted" = None.
Proof.
  eexists. split; [vm_compute; reflexivity|].
  split.
  - eapply (restoreFromBackup_removes_workdir obliging "/srv/orders.zip.encrypted"
              good_keys "supabase" ∅ "restore-temp" backup_on_disk);
      vm_compute; reflexivity.
  - eapply (restoreFromBackup_removes_workdir obliging "/srv/orders.zip.encrypted"
              good_keys "supabase" ∅ "restore-temp" backup_on_disk);
      vm_compute; reflexivity.
Defined.

(** ** What a run may change *)

Section Always.

Variable R : World -> World -> Prop.
Hypothesis R_refl : forall w, R w w.
Hypothesis R_trans : forall a b c, R a b -> R b c -> R a c.

Lemma always_ret {A} (a : A) : always (mret a) R.
Proof. intros w w' r [= <- _]. apply R_refl. Qed.

Lemma always_throw {A} (e : JsError) : always (@throw A e) R.
Proof. intros w w' r [= <- _]. apply R_refl. Qed.

Lemma always_lift {A} (c : Completion A) : always (lift c) R.
Proof. intros w w' r [= <- _]. apply R_refl. Qed.

Lemma always_bind_post {A B} (m : M A) (k : A -> M B) (P : A -> Prop) :
  (forall w w' a, m w = (w', Normal a) -> P a) ->
  always m R -> (forall a, P a -> always (k a) R) -> always (m ≫= k) R.
Proof.
  intros HP Hm Hk w w' r Hrun.
  apply bind_inv in Hrun as [(e & H & _)|[(w1 & a & H & H')|(H & _)]].
  - exact (Hm _ _ _ H).
  - eapply R_trans; [exact (Hm _ _ _ H) | exact (Hk a (HP _ _ _ H) _ _ _ H')].
  - exact (Hm _ _ _ H).
Qed.

Lemma always_bind {A B} (m : M A) (k : A -> M B) :
  always m R -> (forall a, always (k a) R) -> always (m ≫= k) R.
Proof.
  intros Hm Hk. apply (always_bind_post m k (fun _ => True)); auto.
Qed.

Lemma always_try_catch {A} (m : M A) (h : JsError -> M A) :
  always m R -> (forall e, always (h e) R) -> always (try_catch m h) R.
Proof.
  intros Hm Hh w w' r. unfold try_catch.
  destruct (m w) as [w1 [a|e|]] eqn:H.
  - intros [= <- _]. exact (Hm _ _ _ H).
  - intros H'. eapply R_trans; [exact (Hm _ _ _ H) | exact (Hh e _ _ _ H')].
  - intros [= <- _]. exact (Hm _ _ _ H).
Qed.

Lemma always_when (b : bool) (m : M unit) : always m R -> always (when b m) R.
Proof. intros Hm. destruct b; [exact Hm | apply always_ret]. Qed.

End Always.

Lemma touches_refl (ps : list string) (w : World) : touches ps w w.
Proof. intros q. left. reflexivity. Qed.

Lemma touches_trans (ps : list string) (a b c : World) :
  touches ps a b -> touches ps b c -> touches ps a c.
Proof.
  intros Hab Hbc q. destruct (Hbc q) as [H|H]; [|right; exact H].
  rewrite H. apply Hab.
Qed.

Lemma touches_same_fs (ps : list string) (w w' : World) : fs w' = fs w -> touches ps w w'.
Proof. intros H q. left. rewrite H. reflexivity. Qed.

Lemma touches_nil (w w' : World) : touches [] w w' -> fs w' = fs w.
Proof.
  intros H. apply map_eq. intros q. destruct (H q) as [Hq|[[] _]]. exact Hq.
Qed.

Lemma touches_insert (ps : list string) (p : string) (w : World) :
  In p ps -> touches ps w (with_fs (insert p (File None)) w).
Proof.
  intros Hin q. cbn. destruct (decide (p = q)) as [<-|Hne].
  - right. split; [exact Hin | apply lookup_insert_eq].
  - left. apply lookup_insert_ne. exact Hne.
Qed.

(** The rules above, for [touches]. *)

Lemma touches_bind (ps : list string) {A B} (m : M A) (k : A -> M B) :
  always m (touches ps) -> (forall a, always (k a) (touches ps)) ->
  always (m ≫= k) (touches ps).
Proof. apply always_bind. apply touches_trans. Qed.

Lemma touches_try_catch (ps : list string) {A} (m : M A) (h : JsError -> M A) :
  always m (touches ps) -> (forall e, always (h e) (touches ps)) ->
  always (try_catch m h) (touches ps).
Proof. apply always_try_catch. apply touches_trans. Qed.

Lemma touches_when (ps : list string) (b : bool) (m : M unit) :
  always m (touches ps) -> always (when b m) (touches ps).
Proof. apply always_when. apply touches_refl. Qed.

Lemma touches_ret (ps : list string) {A} (a : A) : always (mret a) (touches ps).
Proof. apply always_ret. apply touches_refl. Qed.

Lemma touches_throw (ps : list string) {A} (e : JsError) :
  always (@throw A e) (touches ps).
Proof. apply always_throw. apply touches_refl. Qed.

Lemma touches_lift (ps : list string) {A} (c : Completion A) :
  always (lift c) (touches ps).
Proof. apply always_lift. apply touches_refl. Qed.

Ltac same_fs := intros w w' r [= <- _]; apply touches_same_fs; reflexivity.

Lemma console_log_touches (ps : list string) (line : string) :
  always (console_log line) (touches ps).
Proof. same_fs. Qed.

Lemma fs_access_touches (ps : list string) (p : string) :
  always (fs_access p) (touches ps).
Proof.
  intros w w' r. unfold fs_access. destruct (exists_at w p); intros [= <- _];
    apply touches_refl.
Qed.

Lemma execAsync_touches (E : Env) (ps : list string) (cmd : string) (t : Target) :
  match t with
  | NoOutput => True
  | OutFile p => In p ps
  | OutDir _ => False
  end ->
  always (execAsync E cmd t) (touches ps).
Proof.
  intros Ht w w' r. unfold execAsync.
  assert (Hd : touches ps w (with_spawned (fun l => app l [cmd])
                               (with_fs (deposit t (tool E cmd)) w))).
  { unfold deposit. destruct (writes (tool E cmd)); [|apply touches_same_fs; reflexivity].
    destruct t as [|p|d]; [apply touches_same_fs; reflexivity | | destruct Ht].
    intros q. apply (touches_insert ps p w Ht q). }
  destruct (failure (tool E cmd)); intros [= <- _]; exact Hd.
Qed.

(** One step of a proof that a run touches [ps] at most. *)
Ltac touch_step :=
  lazymatch goal with
  | |- always (mret _) _ => apply touches_ret
  | |- always (throw _) _ => apply touches_throw
  | |- always (lift _) _ => apply touches_lift
  | |- always (console_log _) _ => apply console_log_touches
  | |- always (fs_access _) _ => apply fs_access_touches
  | |- always (execAsync _ _ _) _ => apply execAsync_touches; cbn; tauto
  | |- always (_ ≫= _) _ => apply touches_bind; [|intros ?]
  | |- always (try_catch _ _) _ => apply touches_try_catch; [|intros ?]
  | |- always (when _ _) _ => apply touches_when
  | |- always (if ?b then _ else _) _ => destruct b
  | |- always (match ?x with _ => _ end) _ => destruct x
  end.

Ltac touch := cbv zeta; repeat touch_step.

Lemma warn_unless_touches (ps : list string) (word label text : string) :
  always (warn_unless word label text) (touches ps).
Proof. unfold warn_unless. touch. Qed.

Lemma probe_touches (E : Env) (ps : list string) (cmd : string) :
  always (probe E cmd) (touches ps).
Proof. unfold probe. touch. Qed.

(** What the methods of a registered provider may change: [createDump]
    writes its output file at most, the others write nothing. *)
Lemma registered_touches (E : Env) (p : Provider) :
  registered E p ->
  (forall ps, always (isAvailable p) (touches ps))
  /\ (forall ps out options, In out ps -> always (createDump p out options) (touches ps))
  /\ (forall ps dump options, always (restoreFromDump p dump options) (touches ps)).
Proof.
  intros Hp. unfold registered in Hp. cbn in Hp.
  destruct Hp as [<-|[<-|[<-|[<-|[<-|[]]]]]]; cbn;
    (split; [intros ps; apply probe_touches|]);
    (split; [intros ps out options Hout | intros ps dump options]);
    unfold supabase_createDump, supabase_restoreFromDump, mongodb_createDump,
           mongodb_restoreFromDump, mysql_createDump, mysql_restoreFromDump,
           postgres_createDump, postgres_restoreFromDump;
    touch; apply warn_unless_touches.
Qed.

(** ** restoreFromBackup: the returned path *)

Lemma length_append (a b : string) :
  String.length (a ++ b) = (String.length a + String.length b)%nat.
Proof.
  induction a as [|x a IH]; cbv [String.append]; fold String.append; cbn;
    [reflexivity | rewrite IH; reflexivity].
Qed.

Lemma prefix_drop (a q : string) :
  String.prefix a q = true -> q = a ++ drop_chars (String.length a) q.
Proof.
  revert q. induction a as [|x a IH]; intros q H; [reflexivity|].
  destruct q as [|y q]; cbn in H; [discriminate|].
  destruct (ascii_dec x y) as [<-|]; [|discriminate].
  cbv [String.append]; fold String.append. cbn. rewrite <- (IH q H). reflexivity.
Qed.

Lemma child_name_join (dir q name : string) :
  child_name dir q = Some name -> q = path_join dir name.
Proof.
  unfold child_name. destruct (String.prefix (dir ++ "/") q) eqn:Hpre; [|discriminate].
  destruct (_ || _); [discriminate|]. intros [= <-].
  apply prefix_drop in Hpre. rewrite length_append in Hpre. cbn in Hpre.
  unfold path_join. rewrite <- append_assoc. exact Hpre.
Qed.

Lemma fs_readdir_inv (dir : string) (w w' : World) (files : list string) (name : string) :
  fs_readdir dir w = (w', Normal files) -> In name files ->
  w' = w /\ exists_at w (path_join dir name) = true.
Proof.
  unfold fs_readdir. destruct (fs w !! dir) as [[|c]|]; try discriminate.
  intros [= <- <-] Hin. split; [reflexivity|].
  apply list_elem_of_In, list_elem_of_omap in Hin as ([q node] & Hq & Hname).
  apply elem_of_map_to_list in Hq. cbn in Hname.
  apply child_name_join in Hname as <-. unfold exists_at. rewrite Hq. reflexivity.
Qed.

Lemma extractZipArchive_normal (E : Env) (zipPath outputDir : string)
    (w w' : World) (p : string) :
  extractZipArchive E zipPath outputDir w = (w', Normal p) ->
  exists name, p = path_join outputDir name
               /\ is_dump_name name = true
               /\ exists_at w' p = true.
Proof.
  unfold extractZipArchive. intros H.
  apply bind_normal_inv in H as (w1 & [] & _ & H).
  unfold try_catch in H.
  match type of H with
  | context [match ?m w1 with _ => _ end] => destruct (m w1) as [w2 [a|e|]] eqn:Hin
  end; [|discriminate|discriminate].
  injection H as <- <-.
  apply bind_normal_inv in Hin as (w3 & err & _ & Hin).
  apply bind_normal_inv in Hin as (w4 & files & Hdir & Hin).
  destruct (List.find is_dump_name files) as [name|] eqn:Hfind; [|discriminate].
  injection Hin as <- <-.
  apply find_some in Hfind as [Hmem Hname].
  destruct (fs_readdir_inv _ _ _ _ _ Hdir Hmem) as [-> Hex].
  exists name. auto.
Qed.

Lemma touches_exists (w w' : World) (p : string) :
  touches [] w w' -> exists_at w p = true -> exists_at w' p = true.
Proof. intros H. unfold exists_at. rewrite (touches_nil _ _ H). auto. Qed.

Lemma restore_stages_normal (E : Env) (encryptedBackupPath : string) (keys : JsVal)
    (providerName : string) (providerOptions : JsObj)
    (decryptedZipPath extractDir : string) (w w' : World) (p : string) :
  restore_stages E encryptedBackupPath keys providerName providerOptions
                 decryptedZipPath extractDir w = (w', Normal p) ->
  exists name, p = path_join extractDir name
               /\ is_dump_name name = true
               /\ exists_at w' p = true.
Proof.
  unfold restore_stages. intros H.
  apply bind_normal_inv in H as (w1 & [] & _ & H).
  apply bind_normal_inv in H as (w2 & [] & _ & H).
  apply bind_normal_inv in H as (w3 & [] & _ & H).
  apply bind_normal_inv in H as (w4 & [] & _ & H).
  apply bind_normal_inv in H as (w5 & dumpFilePath & Hext & H).
  apply bind_normal_inv in H as (w6 & [] & H6 & H).
  apply bind_normal_inv in H as (w7 & provider & H7 & H).
  apply bind_normal_inv in H as (w8 & [] & H8 & H).
  apply bind_normal_inv in H as (w9 & [] & H9 & H).
  apply bind_normal_inv in H as (w10 & [] & H10 & H).
  injection H as <- <-.
  destruct (extractZipArchive_normal _ _ _ _ _ _ Hext) as (name & -> & Hname & Hex).
  exists name. split; [reflexivity|]. split; [exact Hname|].
  destruct (select_provider_run E providerName w6) as (c & Hsel & Hreg).
  rewrite Hsel in H7. injection H7 as Hw Hc. subst w7 c.
  destruct (registered_touches E provider (Hreg _ eq_refl)) as (_ & _ & Hrestore).
  apply (touches_exists w8); [|apply (touches_exists w6); [|apply (touches_exists w5)]];
    try exact Hex.
  - eapply touches_trans; [exact (Hrestore [] _ _ _ _ _ H9)|].
    exact (console_log_touches [] _ _ _ _ H10).
  - exact (console_log_touches [] _ _ _ _ H8).
  - exact (console_log_touches [] _ _ _ _ H6).
Qed.

Lemma restoreFromBackup_inv (E : Env) (encryptedBackupPath : string)
    (keys : JsVal) (providerName : string) (providerOptions : JsObj)
    (workDir : string) (w w0 w' : World) (r : Completion string) :
  ensureDirectory E workDir w = (w0, Normal tt) ->
  restoreFromBackup E encryptedBackupPath keys providerName providerOptions workDir w
    = (w', r) ->
  exists w1,
    restore_stages E encryptedBackupPath keys providerName providerOptions
      (path_join workDir "decrypted-backup.zip") (path_join workDir "extracted") w0
    = (w1, r)
    /\ restore_cleanup E workDir w1 = (w', Normal tt).
Proof.
  intros Hens Hrun. unfold restoreFromBackup in Hrun.
  rewrite (bind_normal _ _ _ _ _ Hens) in Hrun. cbv zeta in Hrun.
  rewrite try_finally_run in Hrun.
  match type of Hrun with
  | context [restore_stages ?a ?b ?c ?d ?e ?f ?g ?h] =>
      destruct (restore_stages a b c d e f g h) as [w1 r1] eqn:Hst
  end.
  destruct (restore_cleanup_spec E workDir w1) as (w2 & Hcl & _).
  rewrite Hcl in Hrun.
  assert (Hend : (w2, r1) = (w', r))
    by (pose proof (restore_stages_settles _ _ _ _ _ _ _ _ _ _ Hst);
        destruct r1; [exact Hrun | exact Hrun | contradiction]).
  clear Hrun. injection Hend as <- <-.
  exists w1. split; [reflexivity | exact Hcl].
Qed.

(** C9, refuted as stated: when the operating system refuses the removal of
    the working directory, a successful restoreFromBackup returns the path of
    a file that still exists. *)
Lemma restoreFromBackup_returns_existing_path :
  exists w',
    restoreFromBackup stubborn "/srv/orders.zip.encrypted" good_keys "supabase" ∅
                      "restore-temp" backup_on_disk
    = (w', Normal "restore-temp/extracted/orders_db.sql")
    /\ fs w' !! "restore-temp/extracted/orders_db.sql" = Some (File None).
Proof. eexists. split; [vm_compute; reflexivity | reflexivity]. Qed.

(** C9, amended: on every successful run restoreFromBackup resolves with the
    path of the dump file found in the extracted subdirectory of the working
    directory, a file that exists when the stages are done; the path lies
    under the working directory, whose recursive removal has been issued
    before the function returns; unless that removal was refused, the
    returned path names no file any more. *)
Theorem restoreFromBackup_returns_removed_path (E : Env) (encryptedBackupPath : string)
    (keys : JsVal) (providerName : string) (providerOptions : JsObj)
    (workDir : string) (w w' : World) (p : string) :
  restoreFromBackup E encryptedBackupPath keys providerName providerOptions workDir w
    = (w', Normal p) ->
  (exists name,
      p = path_join (path_join workDir "extracted") name /\ is_dump_name name = true)
  /\ (exists w0 w1,
      ensureDirectory E workDir w = (w0, Normal tt)
      /\ restore_stages E encryptedBackupPath keys providerName providerOptions
           (path_join workDir "decrypted-backup.zip") (path_join workDir "extracted") w0
         = (w1, Normal p)
      /\ exists_at w1 p = true)
  /\ under workDir p = true
  /\ last (syscalls w') = Some (OpRm, workDir)
  /\ (refuses E OpRm workDir = None -> fs w' !! p = None).
Proof.
  intros Hrun.
  assert (Hens : exists w0, ensureDirectory E workDir w = (w0, Normal tt)).
  { unfold restoreFromBackup in Hrun.
    apply bind_normal_inv in Hrun as (w0 & [] & Hens & _). eauto. }
  destruct Hens as (w0 & Hens).
  destruct (restoreFromBackup_inv _ _ _ _ _ _ _ _ _ _ Hens Hrun) as (w1 & Hst & Hcl).
  destruct (restore_stages_normal _ _ _ _ _ _ _ _ _ _ Hst) as (name & -> & Hname & Hex).
  destruct (restore_cleanup_spec E workDir w1) as (w2 & Hcl' & Hlast & Hok & _).
  rewrite Hcl in Hcl'. injection Hcl' as <-.
  split; [|split; [|split; [|split]]].
  - exists name. auto.
  - exists w0, w1. auto.
  - apply under_join_join.
  - exact Hlast.
  - intros Hr. rewrite (Hok Hr). apply removed_under, under_join_join.
Qed.

Lemma restoreFromBackup_returns_removed_path_witness :
  exists w',
    restoreFromBackup obliging "/srv/orders.zip.encrypted" good_keys "supabase" ∅
                      "restore-temp" backup_on_disk
    = (w', Normal "restore-temp/extracted/orders_db.sql")
    /\ under "restore-temp" "restore-temp/extracted/orders_db.sql" = true
    /\ fs w' !! "restore-temp/extracted/orders_db.sql" = None.
Proof.
  eexists. split; [vm_compute; reflexivity|].
  split.
  - eapply (restoreFromBackup_returns_removed_path obliging "/srv/orders.zip.encrypted"
              good_keys "supabase" ∅ "restore-temp" backup_on_disk);
      vm_compute; reflexivity.
  - eapply (restoreFromBackup_returns_removed_path obliging "/srv/orders.zip.encrypted"
              good_keys "supabase" ∅ "restore-temp" backup_on_disk);
      vm_compute; reflexivity.
Defined.

(** ** createBackup: what a failed run leaves behind *)




Lemma make_dirs_cons (d : string) (ds : list string) (m : gmap string Node) :
  make_dirs (d :: ds) m
  = match make_dirs ds m !! d with
    | Some _ => make_dirs ds m
    | None => <[d := Dir]> (make_dirs ds m)
    end.
Proof. reflexivity. Qed.

Lemma make_dirs_keeps (ds : list string) (m : gmap string Node) (q : string) (n : Node) :
  m !! q = Some n -> make_dirs ds m !! q = Some n.
Proof.
  intros Hq. induction ds as [|d ds IH]; [exact Hq|]. rewrite make_dirs_cons.
  destruct (make_dirs ds m !! d) eqn:Hd; [exact IH|].
  destruct (String.eq_dec d q) as [->|Hne]; [congruence|].
  rewrite lookup_insert_ne by exact Hne. exact IH.
Qed.

Lemma make_dirs_other (ds : list string) (m : gmap string Node) (q : string) :
  ~ In q ds -> make_dirs ds m !! q = m !! q.
Proof.
  induction ds as [|d ds IH]; [reflexivity|]. rewrite make_dirs_cons. intros Hq.
  assert (Hne : d <> q) by (intros ->; apply Hq; left; reflexivity).
  assert (Hrest : ~ In q ds) by (intros H; apply Hq; right; exact H).
  destruct (make_dirs ds m !! d) eqn:Hd; [apply IH, Hrest|].
  rewrite lookup_insert_ne by exact Hne. apply IH, Hrest.
Qed.

Lemma make_dirs_makes (ds : list string) (m : gmap string Node) (q : string) :
  In q ds -> exists n, make_dirs ds m !! q = Some n.
Proof.
  induction ds as [|d ds IH]; [intros []|]. rewrite make_dirs_cons. intros [->|Hq].
  - destruct (make_dirs ds m !! q) eqn:Hd; [eauto|].
    rewrite lookup_insert_eq. eauto.
  - destruct (IH Hq) as [n Hn]. destruct (make_dirs ds m !! d) eqn:Hd; [eauto|].
    destruct (String.eq_dec d q) as [->|Hne]; [congruence|].
    rewrite lookup_insert_ne by exact Hne. eauto.
Qed.

(** What a mkdir that resolved has done. *)
Lemma fs_mkdir_recursive_normal (E : Env) (p : string) (w w' : World) :
  fs_mkdir_recursive E p w = (w', Normal tt) ->
  w' = with_fs (make_dirs (app (parents p) [p])) (record_call OpMkdir p w)
  /\ refuses E OpMkdir p = None /\ blocked (fs w) p = false.
Proof.
  unfold fs_mkdir_recursive. cbn.
  destruct (refuses E OpMkdir p); [discriminate|].
  destruct (blocked (fs w) p); [discriminate|].
  destruct (is_file (fs w !! p)); [discriminate|]. intros [= <-]. auto.
Qed.

Lemma ensureDirectory_normal (E : Env) (d : string) (w w0 : World) :
  ensureDirectory E d w = (w0, Normal tt) ->
  ticks w0 = ticks w /\ console w0 = console w /\ spawned w0 = spawned w
  /\ exists_at w0 d = true
  /\ (forall q n, fs w !! q = Some n -> fs w0 !! q = Some n)
  /\ (forall q, q <> d -> ~ In q (parents d) -> fs w0 !! q = fs w !! q).
Proof.
  unfold ensureDirectory, try_catch, fs_access.
  destruct (exists_at w d) eqn:Hex.
  - intros [= <-]. auto 10.
  - intros H. apply fs_mkdir_recursive_normal in H as (-> & _ & _). cbn.
    split; [reflexivity|]. split; [reflexivity|]. split; [reflexivity|]. split; [|split].
    + unfold exists_at. cbn.
      destruct (make_dirs_makes (app (parents d) [d]) (fs w) d) as [n ->];
        [apply in_or_app; right; left; reflexivity | reflexivity].
    + intros q n. apply make_dirs_keeps.
    + intros q Hq Hpar. apply make_dirs_other. rewrite in_app_iff. cbn. intuition congruence.
Qed.


Lemma createZipArchive_touches (E : Env) (ps : list string) (sourceFile outputZip : string) :
  In outputZip ps -> always (createZipArchive E sourceFile outputZip) (touches ps).
Proof.
  intros Hin w w' r. unfold createZipArchive.
  destruct (stream_error E w outputZip); [intros [= <- _]; apply touches_refl|].
  assert (Hd : touches ps w
                 (with_fs (deposit (OutFile outputZip) (archiver E sourceFile outputZip)) w)).
  { unfold deposit. destruct (writes _); [|apply touches_same_fs; reflexivity].
    apply touches_insert, Hin. }
  destruct (failure _); intros [= <- _]; exact Hd.
Qed.


Lemma last_char_append (a b : string) :
  last_char (a ++ b)
  = match last_char b with
    | Some c => Some c
    | None => last_char a
    end.
Proof.
  induction a as [|x a IH]; cbv [String.append]; fold String.append.
  - cbn. destruct (last_char b); reflexivity.
  - cbn. rewrite IH. destruct (last_char b); reflexivity.
Qed.

Lemma last_char_backup_path (workDir : string) (d : Date) (dbName ext : string) (c : ascii) :
  last_char ext = Some c ->
  last_char (path_join workDir (backup_name d dbName ext)) = Some c.
Proof.
  intros Hc. unfold path_join, backup_name. rewrite !last_char_append, Hc. reflexivity.
Qed.

Lemma path_join_longer (d x : string) :
  (String.length d < String.length (path_join d x))%nat.
Proof. unfold path_join. rewrite !length_append. cbn. lia. Qed.

(** The dump files of the registered providers end in l, e or p. *)
Lemma registered_extension (E : Env) (p : Provider) :
  registered E p ->
  exists c, last_char (getFileExtension p) = Some c /\ c <> "d"%char.
Proof.
  unfold registered. cbn. intros [<-|[<-|[<-|[<-|[<-|[]]]]]]; cbn;
    eexists; (split; [reflexivity | discriminate]).
Qed.

Lemma fs_access_normal (p : string) (w w' : World) :
  fs_access p w = (w', Normal tt) -> w' = w /\ exists_at w p = true.
Proof.
  unfold fs_access. destruct (exists_at w p); [|discriminate].
  intros [= <-]. auto.
Qed.

Lemma try_catch_rethrow_normal {A} (m : M A) (f : JsError -> JsError)
    (w w' : World) (a : A) :
  try_catch m (fun error => throw (f error)) w = (w', Normal a) ->
  m w = (w', Normal a).
Proof.
  unfold try_catch, throw.
  destruct (m w) as [w1 [x|e|]]; [auto | discriminate | discriminate].
Qed.

Lemma dumpDatabase_normal (E : Env) (outputPath providerName : string) (options : JsObj)
    (w w' : World) :
  dumpDatabase E outputPath providerName options w = (w', Normal tt) ->
  exists_at w' outputPath = true.
Proof.
  unfold dumpDatabase. intros H. apply try_catch_rethrow_normal in H.
  apply bind_normal_inv in H as (w1 & provider & _ & H).
  apply bind_normal_inv in H as (w2 & available & _ & H).
  destruct (negb available); [discriminate|].
  apply bind_normal_inv in H as (w3 & [] & _ & H).
  apply fs_access_normal in H as [-> H]. exact H.
Qed.

(** From the working directory and the provider on, [createBackup] is its
    [try] block under its [catch] block, after two readings of the clock. *)
Lemma createBackup_run (E : Env) (dbName workDir providerName : string)
    (options : JsObj) (w w0 : World) (provider : Provider) :
  ensureDirectory E workDir w = (w0, Normal tt) ->
  select_provider E providerName w0 = (w0, Normal provider) ->
  let dumpName := backup_name (clock E (ticks w0)) dbName (getFileExtension provider) in
  let zipName := backup_name (clock E (S (ticks w0))) dbName "zip" in
  createBackup E dbName workDir providerName options w
  = try_catch
      (createBackup_stages E provider dumpName zipName (path_join workDir dumpName)
                           (path_join workDir zipName) providerName options)
      (fun error =>
         createBackup_cleanup E (path_join workDir dumpName) (path_join workDir zipName);;
         throw error)
      (with_ticks S (with_ticks S w0)).
Proof.
  intros Hens Hsel dumpName zipName. unfold createBackup.
  rewrite (bind_normal _ _ _ _ _ Hens), (bind_normal _ _ _ _ _ Hsel). cbv zeta.
  rewrite (bind_normal _ _ w0 (with_ticks S w0) dumpName) by reflexivity.
  rewrite (bind_normal _ _ (with_ticks S w0) (with_ticks S (with_ticks S w0)) zipName)
    by reflexivity.
  reflexivity.
Qed.





(** ** The backup command: a delivery that fails *)

Lemma touches_grows (ps : list string) (w w' : World) (p : string) :
  touches ps w w' -> exists_at w p = true -> exists_at w' p = true.
Proof.
  intros H. unfold exists_at. destruct (H p) as [->|[_ ->]]; auto.
Qed.

Lemma createBackup_normal (E : Env) (dbName workDir providerName : string)
    (options : JsObj) (w w' : World) (files : BackupFiles) :
  createBackup E dbName workDir providerName options w = (w', Normal files) ->
  exists_at w' (dumpFile files) = true.
Proof.
  unfold createBackup. intros H.
  apply bind_normal_inv in H as (w1 & [] & _ & H).
  apply bind_normal_inv in H as (w2 & provider & _ & H). cbv zeta in H.
  apply bind_normal_inv in H as (w3 & dumpFilename & _ & H).
  apply bind_normal_inv in H as (w4 & zipFilename & _ & H).
  unfold try_catch in H.
  match type of H with
  | context [match ?m w4 with _ => _ end] => destruct (m w4) as [w5 [x|e|]] eqn:Hst
  end; [| |discriminate].
  - injection H as <- <-. unfold createBackup_stages in Hst.
    apply bind_normal_inv in Hst as (v1 & [] & _ & Hst).
    apply bind_normal_inv in Hst as (v2 & [] & Hdump & Hst).
    apply bind_normal_inv in Hst as (v3 & [] & Hlog & Hst).
    apply bind_normal_inv in Hst as (v4 & [] & Hzip & Hst).
    injection Hst as <- <-. cbn.
    apply dumpDatabase_normal in Hdump.
    apply (touches_grows [path_join workDir zipFilename] v3);
      [eapply createZipArchive_touches; [|exact Hzip]; left; reflexivity|].
    apply (touches_grows [] v2); [exact (console_log_touches _ _ _ _ _ Hlog) | exact Hdump].
  - apply bind_inv in H as [(e' & _ & [=])|[(v & [] & _ & H)|(_ & [=])]].
    unfold throw in H. discriminate.
Qed.

Lemma run_cipher_touches (ps : list string) (r : Run) (outputFile : string) :
  In outputFile ps -> always (run_cipher r outputFile) (touches ps).
Proof.
  intros Hin w w' c. unfold run_cipher.
  assert (Hd : touches ps w (with_fs (deposit (OutFile outputFile) r) w)).
  { unfold deposit. destruct (writes r); [|apply touches_same_fs; reflexivity].
    apply touches_insert, Hin. }
  destruct (failure r); intros [= <- _]; exact Hd.
Qed.

Lemma encryptBackupFile_normal (E : Env) (inputFile outputFile : string) (keys : JsVal)
    (w w' : World) :
  encryptBackupFile E inputFile outputFile keys w = (w', Normal tt) ->
  exists_at w' inputFile = true /\ exists_at w' outputFile = true
  /\ touches [outputFile] w w'.
Proof.
  unfold encryptBackupFile. intros H. apply try_catch_rethrow_normal in H.
  apply bind_normal_inv in H as (w1 & [] & Hin & H).
  apply fs_access_normal in Hin as [-> Hin].
  apply bind_normal_inv in H as (w2 & publicKey & Hkey & H).
  assert (w2 = w) as -> by (unfold lift in Hkey; congruence).
  apply bind_normal_inv in H as (w3 & [] & Hrun & H).
  apply fs_access_normal in H as [-> Hout].
  assert (Ht : touches [outputFile] w w3)
    by (eapply run_cipher_touches; [|exact Hrun]; left; reflexivity).
  split; [exact (touches_grows _ _ _ _ Ht Hin)|]. split; [exact Hout | exact Ht].
Qed.

Lemma console_log_inv (line : string) (w w' : World) (r : Completion unit) :
  console_log line w = (w', r) ->
  w' = with_console (fun c => app c [line]) w /\ r = Normal tt.
Proof. intros [= <- <-]. auto. Qed.

Lemma console_log_exists (line : string) (w w' : World) (r : Completion unit) (p : string) :
  console_log line w = (w', r) -> exists_at w p = true -> exists_at w' p = true.
Proof. intros H. apply console_log_inv in H as [-> _]. auto. Qed.

Lemma getFileSize_inv (E : Env) (p : string) (w w' : World) (n : Z) :
  getFileSize E p w = (w', Normal n) -> w' = w.
Proof. unfold getFileSize. destruct (exists_at w p); [|discriminate]. congruence. Qed.

(** What a successful [backup_produce] has established. *)
Lemma backup_produce_normal (E : Env) (config : Config) (options : BackupOptions)
    (w w1 : World) (files : BackupFiles) (enc : string) :
  backup_produce E config options w = (w1, Normal (files, enc)) ->
  enc = zipFile files ++ ".encrypted"
  /\ In ("✓ Backup encrypted: " ++ basename enc) (console w1)
  /\ exists_at w1 (dumpFile files) = true
  /\ exists_at w1 (zipFile files) = true
  /\ exists_at w1 enc = true.
Proof.
  unfold backup_produce. intros H.
  apply bind_normal_inv in H as (v1 & [] & _ & H).
  apply bind_normal_inv in H as (v2 & [] & _ & H).
  apply bind_normal_inv in H as (v3 & [] & _ & H).
  apply bind_normal_inv in H as (v4 & [] & _ & H).
  apply bind_normal_inv in H as (v5 & [] & _ & H).
  apply bind_normal_inv in H as (v6 & [] & _ & H). cbv zeta in H.
  apply bind_normal_inv in H as (v7 & keys & _ & H).
  apply bind_normal_inv in H as (v8 & [] & _ & H).
  apply bind_normal_inv in H as (v9 & [] & _ & H).
  apply bind_normal_inv in H as (v10 & made & Hmade & H).
  apply bind_normal_inv in H as (v11 & [] & H11 & H).
  apply bind_normal_inv in H as (v12 & [] & H12 & H).
  apply bind_normal_inv in H as (v13 & [] & H13 & H). cbv zeta in H.
  apply bind_normal_inv in H as (v14 & [] & Henc & H).
  apply bind_normal_inv in H as (v15 & fileSize & Hsize & H).
  apply bind_normal_inv in H as (v16 & [] & H16 & H).
  apply bind_normal_inv in H as (v17 & [] & H17 & H).
  injection H as <- <- <-.
  apply createBackup_normal in Hmade.
  apply encryptBackupFile_normal in Henc as (Hzip & Hout & Htouch).
  apply getFileSize_inv in Hsize as ->.
  pose proof (console_log_exists _ _ _ _ (dumpFile made) H11 Hmade) as Hd.
  pose proof (console_log_exists _ _ _ _ (dumpFile made) H12 Hd) as Hd'.
  pose proof (console_log_exists _ _ _ _ (dumpFile made) H13 Hd') as Hd''.
  pose proof (touches_grows _ _ _ _ Htouch Hd'') as Hdump.
  apply console_log_inv in H16 as [-> _]. apply console_log_inv in H17 as [-> _].
  split; [reflexivity|]. cbn. split; [|auto].
  apply in_or_app. left. apply in_or_app. right. left. reflexivity.
Qed.

Lemma quiet_refl (w : World) : quiet w w.
Proof. split; [reflexivity|]. exists []. symmetry. apply app_nil_r. Qed.

Lemma quiet_trans (a b c : World) : quiet a b -> quiet b c -> quiet a c.
Proof.
  intros [Hf1 [l1 Hc1]] [Hf2 [l2 Hc2]]. split; [congruence|].
  exists (app l1 l2). rewrite Hc2, Hc1, <- app_assoc. reflexivity.
Qed.

Lemma console_log_quiet (line : string) : always (console_log line) quiet.
Proof. intros w w' r [= <- _]. split; [reflexivity|]. exists [line]. reflexivity. Qed.

Lemma fs_access_quiet (p : string) : always (fs_access p) quiet.
Proof.
  intros w w' r. unfold fs_access. destruct (exists_at w p); intros [= <- _];
    apply quiet_refl.
Qed.

Lemma getenv_quiet (k : string) : always (getenv k) quiet.
Proof. intros w w' r [= <- _]. apply quiet_refl. Qed.

Lemma setenv_if_unset_quiet (k v : string) : always (setenv_if_unset k v) quiet.
Proof.
  intros w w' r. unfold setenv_if_unset.
  destruct (process_env w !! k) as [old|]; [destruct (String.eqb old "")|];
    intros [= <- _]; split; try reflexivity; exists []; symmetry; apply app_nil_r.
Qed.

Create HintDb frame.

#[local] Hint Resolve console_log_quiet fs_access_quiet getenv_quiet
  setenv_if_unset_quiet : frame.

Ltac quiet_step :=
  lazymatch goal with
  | |- always (mret _) _ => apply (always_ret _ quiet_refl)
  | |- always (throw _) _ => apply (always_throw _ quiet_refl)
  | |- always (_ ≫= _) _ => apply (always_bind _ quiet_trans); [|intros ?]
  | |- always (try_catch _ _) _ => apply (always_try_catch _ quiet_trans); [|intros ?]
  | |- always (when _ _) _ => apply (always_when _ quiet_refl)
  | |- always (if ?b then _ else _) _ => destruct b
  | |- always (match ?x with _ => _ end) _ => destruct x
  | |- always _ quiet => solve [auto with frame]
  end.

Lemma sendBackupEmail_quiet (E : Env) (to : JsVal) (subject attachmentPath : string) :
  always (sendBackupEmail E to subject attachmentPath None) quiet.
Proof. unfold sendBackupEmail, createTransporter. cbv zeta. repeat quiet_step. Qed.

Lemma backup_deliver_quiet (E : Env) (config : Config) (options : BackupOptions)
    (encryptedFile : string) :
  always (backup_deliver E config options encryptedFile) quiet.
Proof.
  unfold backup_deliver. cbv zeta. repeat quiet_step. apply sendBackupEmail_quiet.
Qed.

(** C4, refuted as stated: the backup succeeds up to the encrypted artifact
    and the mail is turned down; the command ends with the error line and
    exit status 1, and no line of its output holds the path of the encrypted
    artifact, which is on disk. *)
Lemma backup_command_hides_artifact_path :
  exists w',
    backup_command mail_down nightly plain_options keys_on_disk = (w', Normal tt)
    /\ exit_code w' = Some 1
    /\ last (console w')
       = Some (nl ++ "❌ Error: Failed to send email: Invalid login: 535 Authentication failed")
    /\ existsb (fun line =>
                  includes line
                    "/var/backups/supabase-backup-20240105-130709-orders_db.zip.encrypted")
               (console w') = false
    /\ exists_at w' "/var/backups/supabase-backup-20240105-130709-orders_db.zip.encrypted"
       = true.
Proof. eexists. split; [vm_compute; reflexivity|]. repeat split. Qed.

(** C4, amended: when the dump, archive and encrypt stages succeed and the
    delivery fails, the command ends the way it ends on every failure: it
    logs the error of the delivery as its last line and exits with status 1.
    Nothing after the delivery is run: the closing line with the path of the
    encrypted artifact is not printed and the intermediate files are not
    cleaned up.  What the log holds about the artifact is the line printed
    after the encryption, with its base name.  The encrypted artifact remains
    on disk, and so do the dump file and the archive. *)
Theorem backup_command_delivery_failure (E : Env) (config : Config)
    (options : BackupOptions) (w w1 w2 : World) (files : BackupFiles) (enc : string)
    (e : JsError) :
  backup_produce E config options w = (w1, Normal (files, enc)) ->
  backup_deliver E config options enc w1 = (w2, Throw e) ->
  exists w3,
    backup_command E config options w = (w3, Normal tt)
    /\ exit_code w3 = Some 1
    /\ console w3 = app (console w2) [nl ++ "❌ Error: " ++ err_message e]
    /\ In ("✓ Backup encrypted: " ++ basename enc) (console w3)
    /\ enc = zipFile files ++ ".encrypted"
    /\ fs w3 = fs w1
    /\ exists_at w3 enc = true
    /\ exists_at w3 (dumpFile files) = true
    /\ exists_at w3 (zipFile files) = true.
Proof.
  intros Hprod Hdel.
  destruct (backup_produce_normal _ _ _ _ _ _ _ Hprod) as (Henc & Hline & Hd & Hz & He).
  destruct (backup_deliver_quiet _ _ _ _ _ _ _ Hdel) as (Hfs & lines & Hcon).
  eexists. split.
  - unfold backup_command, try_catch.
    rewrite (bind_normal _ _ _ _ _ Hprod). cbn [fst snd].
    rewrite (bind_throw _ _ _ _ _ Hdel). reflexivity.
  - cbn. unfold exists_at in *. cbn. rewrite Hfs.
    repeat split; auto.
    apply in_or_app. left. rewrite Hcon. apply in_or_app. left. exact Hline.
Qed.

Lemma backup_command_delivery_failure_witness :
  exists w3,
    backup_command mail_down nightly plain_options keys_on_disk = (w3, Normal tt)
    /\ exit_code w3 = Some 1
    /\ In "✓ Backup encrypted: supabase-backup-20240105-130709-orders_db.zip.encrypted"
          (console w3)
    /\ exists_at w3 "/var/backups/supabase-backup-20240105-130709-orders_db.zip.encrypted"
       = true.
Proof.
  edestruct (backup_command_delivery_failure mail_down nightly plain_options keys_on_disk)
    as (w3 & Hrun & Hexit & _ & Hline & _ & _ & Hex & _);
    [vm_compute; reflexivity | vm_compute; reflexivity |].
  exists w3. repeat split; assumption.
Defined.

(** * Further properties of the code *)

(** ** The registry of providers *)

Lemma Map_get_set_eq {A} (m : list (string * A)) (k : string) (v : A) :
  Map_get (Map_set m k v) k = Some v.
Proof.
  induction m as [|[k' v'] m IH]; cbn.
  - rewrite String.eqb_refl. reflexivity.
  - destruct (String.eqb k' k) eqn:Hk; cbn; rewrite Hk; [reflexivity | exact IH].
Qed.

Lemma Map_get_set_ne {A} (m : list (string * A)) (k k' : string) (v : A) :
  k <> k' -> Map_get (Map_set m k v) k' = Map_get m k'.
Proof.
  intros Hne. induction m as [|[k0 v0] m IH]; cbn.
  - destruct (String.eqb_spec k k'); [contradiction | reflexivity].
  - destruct (String.eqb_spec k0 k) as [->|Hk0]; cbn.
    + destruct (String.eqb_spec k k'); [contradiction | reflexivity].
    + destruct (String.eqb k0 k'); [reflexivity | exact IH].
Qed.

Lemma Map_set_keys {A} (m : list (string * A)) (k : string) (v : A) :
  List.map fst (Map_set m k v)
  = if Map_has m k then List.map fst m else app (List.map fst m) [k].
Proof.
  unfold Map_has. induction m as [|[k' v'] m IH]; cbn; [reflexivity|].
  destruct (String.eqb_spec k' k) as [->|Hk]; cbn; [reflexivity|].
  rewrite IH. destruct (Map_get m k); reflexivity.
Qed.

(** X1: the lookup of a provider ignores the case of the name: names that
    agree once lowered resolve to the same provider; postgres and postgresql
    are two names of the PostgreSQL provider; a name resolves exactly when
    hasProvider says so, and otherwise the error lists the five registered
    names in registration order. *)
Theorem getProvider_ignores_case (E : Env) (name : string) :
  (forall name' p, toLowerCase name' = toLowerCase name ->
     getProvider E name = Normal p -> getProvider E name' = Normal p)
  /\ (toLowerCase name = "postgres" \/ toLowerCase name = "postgresql" ->
      getProvider E name = Normal (postgresProvider E))
  /\ (hasProvider (providers E) name = true <-> exists p, getProvider E name = Normal p)
  /\ (hasProvider (providers E) name = false ->
      getProvider E name
      = Throw (Error ("Provider '" ++ name ++ "' not found. Available providers: "
                      ++ "supabase, mongodb, mysql, postgres, postgresql"))).
Proof.
  unfold getProvider, hasProvider, Map_has. split; [|split; [|split]].
  - intros name' p Heq. rewrite Heq.
    destruct (Map_get (providers E) (toLowerCase name)); [auto | discriminate].
  - intros [->| ->]; reflexivity.
  - destruct (Map_get (providers E) (toLowerCase name)); split; eauto; try discriminate.
    intros [p [=]].
  - destruct (Map_get (providers E) (toLowerCase name)); [discriminate | reflexivity].
Qed.

Lemma getProvider_ignores_case_witness :
  getProvider calm "PostgreSQL" = Normal (postgresProvider calm)
  /\ getProvider calm "MySQL" = Normal (mysqlProvider calm).
Proof.
  split.
  - apply (getProvider_ignores_case calm "PostgreSQL"). right. reflexivity.
  - apply (proj1 (getProvider_ignores_case calm "mysql") "MySQL"); reflexivity.
Defined.

(** X2: registering a provider and looking it up is a round trip: after
    registerProvider(name, p) every spelling of the name that agrees with it
    once its letters A to Z are lowered resolves to p, and has it.  For
    names of ASCII characters, on which lowering A to Z is all that
    toLowerCase does: the names that differ from it once lowered resolve as
    they did; the list of names gains the lowered name at its end when it is
    new and is unchanged when it replaces a provider. *)
Theorem registerProvider_lookup (registry : list (string * Provider)) (name : string)
    (p : Provider) :
  (forall name', toLowerCase name' = toLowerCase name ->
     getProvider_from (registerProvider registry name p) name' = Normal p
     /\ hasProvider (registerProvider registry name p) name' = true)
  /\ (forall name' q,
        ascii_only name = true -> ascii_only name' = true ->
        toLowerCase name' <> toLowerCase name ->
        (getProvider_from (registerProvider registry name p) name' = Normal q
         <-> getProvider_from registry name' = Normal q))
  /\ (ascii_only name = true ->
      getProviderNames (registerProvider registry name p)
      = (if hasProvider registry name then getProviderNames registry
         else app (getProviderNames registry) [toLowerCase name])).
Proof.
  unfold getProvider_from, hasProvider, registerProvider, getProviderNames.
  split; [|split].
  - intros name' ->. unfold Map_has. rewrite Map_get_set_eq. auto.
  - intros name' q _ _ Hne. rewrite Map_get_set_ne by congruence.
    destruct (Map_get registry (toLowerCase name')); split; congruence.
  - intros _. apply Map_set_keys.
Qed.

Lemma registerProvider_lookup_witness :
  getProvider_from (registerProvider (providers calm) "MariaDB" (mysqlProvider calm))
                   "mariadb" = Normal (mysqlProvider calm)
  /\ getProviderNames (registerProvider (providers calm) "MariaDB" (mysqlProvider calm))
     = ["supabase"; "mongodb"; "mysql"; "postgres"; "postgresql"; "mariadb"].
Proof.
  destruct (registerProvider_lookup (providers calm) "MariaDB" (mysqlProvider calm))
    as (Hget & _ & Hnames).
  split; [apply Hget; reflexivity | exact (Hnames eq_refl)].
Defined.

(** ** The providers: options, command lines, extensions *)

(** X3: createDump and restoreFromDump of the PostgreSQL provider on options
    without a user or without a database reject with an error that names
    what is required, and leave the world as it was: nothing is spawned. *)
Theorem postgres_fails_fast (E : Env) (path : string) (options : JsObj) (w : World) :
  options !! "user" = None \/ options !! "database" = None ->
  createDump (postgresProvider E) path options w
    = (w, Throw (Error "PostgreSQL dump failed: PostgreSQL user and database are required"))
  /\ restoreFromDump (postgresProvider E) path options w
    = (w, Throw (Error
         "PostgreSQL restore failed: PostgreSQL user and database are required for restore")).
Proof.
  intros Hmiss. cbn. unfold postgres_createDump, postgres_restoreFromDump. munfold.
  assert (Hb : negb (truthy (get options "user"))
               || negb (truthy (get options "database")) = true).
  { destruct Hmiss as [H|H]; rewrite (get_missing _ _ H); cbn;
      [reflexivity | apply orb_true_r]. }
  rewrite Hb. split; reflexivity.
Qed.

Lemma postgres_fails_fast_witness :
  createDump (postgresProvider calm) "backups/a.dump" {["user" := JStr "postgres"]}
             empty_world
  = (empty_world,
     Throw (Error "PostgreSQL dump failed: PostgreSQL user and database are required")).
Proof.
  apply (postgres_fails_fast calm "backups/a.dump" {["user" := JStr "postgres"]} empty_world).
  right. reflexivity.
Defined.

Lemma get_insert_same (o : JsObj) (k : string) (v : JsVal) : get (<[k := v]> o) k = v.
Proof. unfold get. rewrite lookup_insert_eq. reflexivity. Qed.

(** X4: the PostgreSQL provider never puts the password on a command line:
    the commands that createDump and restoreFromDump spawn are the same
    whatever the password option holds. *)
Theorem postgres_password_off_command_line (E : Env) (path : string) (options : JsObj)
    (password : JsVal) (w : World) :
  spawned (createDump (postgresProvider E) path (<["password" := password]> options) w).1
  = spawned (createDump (postgresProvider E) path options w).1
  /\ spawned (restoreFromDump (postgresProvider E) path
                (<["password" := password]> options) w).1
     = spawned (restoreFromDump (postgresProvider E) path options w).1.
Proof.
  cbn. unfold postgres_createDump, postgres_restoreFromDump, get_default.
  rewrite !get_insert_other by discriminate. split; reflexivity.
Qed.

Lemma includes_prefix (s t : string) : String.prefix t s = true -> includes s t = true.
Proof. intros H. destruct s; cbn in *; rewrite H; reflexivity. Qed.

Lemma includes_append_r (a s t : string) : includes s t = true -> includes (a ++ s) t = true.
Proof.
  intros H. induction a as [|c a IH]; cbv [String.append]; fold String.append; [exact H|].
  cbn [includes]. rewrite IH. apply orb_true_r.
Qed.

Lemma includes_append_l (s t : string) : includes (t ++ s) t = true.
Proof. apply includes_prefix, prefix_append_nil. Qed.

Lemma includes_refl (s : string) : includes s s = true.
Proof. apply includes_prefix, prefix_refl. Qed.

Lemma includes_join (sep x : string) (l : list string) :
  In x l -> includes (join sep l) x = true.
Proof.
  unfold join. induction l as [|a l IH]; [intros []|].
  intros [->|Hin]; cbn [String.concat]; destruct l as [|b l].
  - apply includes_refl.
  - apply includes_append_l.
  - destruct Hin.
  - do 2 apply includes_append_r. apply IH, Hin.
Qed.

(** A non-empty string among the parts of a command line is part of the
    command. *)
Lemma includes_command_line (parts : list JsVal) (part : string) :
  In (JStr part) parts -> part <> "" -> includes (command_line parts) part = true.
Proof.
  intros Hin Hne. unfold command_line, join_vals. apply includes_join.
  apply in_map_iff. exists (JStr part). split; [reflexivity|].
  apply filter_In. split; [exact Hin|]. cbn.
  apply String.eqb_neq in Hne. rewrite Hne. reflexivity.
Qed.

(** A provider's way to run its tool: the command is spawned once, whatever
    comes of it. *)
Lemma tool_run_spawned (E : Env) (cmd : string) (t : Target) (word label : string)
    (f : JsError -> JsError) (w : World) :
  spawned (try_catch (execAsync E cmd t ≫= fun stderr => warn_unless word label stderr)
                     (fun error => throw (f error)) w).1
  = app (spawned w) [cmd].
Proof.
  unfold try_catch, execAsync, warn_unless, when, console_log. rewrite bind_run.
  destruct (failure (tool E cmd)); cbn; [reflexivity|].
  destruct (_ && _); reflexivity.
Qed.

(** X5: the MySQL provider does put a password on the command line: with a
    user, a database and a non-empty string password, createDump spawns
    exactly one command, and that command holds --password= followed by the
    password. *)
Theorem mysql_password_on_command_line (E : Env) (path user database password : string)
    (options : JsObj) (w : World) :
  user <> "" -> database <> "" -> password <> "" ->
  get options "user" = JStr user ->
  get options "database" = JStr database ->
  get options "password" = JStr password ->
  exists cmd,
    spawned (createDump (mysqlProvider E) path options w).1 = app (spawned w) [cmd]
    /\ includes cmd ("--password=" ++ password) = true.
Proof.
  intros Hu Hd Hp Gu Gd Gp. cbn. unfold mysql_createDump.
  rewrite Gu, Gd, Gp. cbn [truthy].
  apply String.eqb_neq in Hu, Hd, Hp. rewrite Hu, Hd, Hp. cbn [negb orb].
  eexists. split; [apply tool_run_spawned|].
  apply includes_command_line; [cbn; tauto|].
  cbv [String.append]. discriminate.
Qed.

Lemma mysql_password_on_command_line_witness :
  exists cmd,
    spawned (createDump (mysqlProvider calm) "backups/a.sql"
               (<["user" := JStr "root"]>
                  (<["database" := JStr "orders"]> {["password" := JStr "s3cret"]}))
               empty_world).1 = [cmd]
    /\ includes cmd "--password=s3cret" = true.
Proof.
  apply (mysql_password_on_command_line calm "backups/a.sql" "root" "orders" "s3cret");
    (discriminate || reflexivity).
Defined.

Lemma string_rev_acc_append (s acc : string) :
  string_rev_acc s acc = string_rev_acc s "" ++ acc.
Proof.
  revert acc. induction s as [|c s IH]; intros acc; cbn; [reflexivity|].
  rewrite (IH (String c acc)), (IH (String c "")), append_assoc. reflexivity.
Qed.

Lemma string_rev_append (a b : string) :
  string_rev (a ++ b) = string_rev b ++ string_rev a.
Proof.
  unfold string_rev. induction a as [|c a IH]; cbv [String.append]; fold String.append.
  - induction (string_rev_acc b "") as [|x r IHr]; cbv [String.append];
      fold String.append; [reflexivity | rewrite <- IHr; reflexivity].
  - cbn. rewrite (string_rev_acc_append (a ++ b)), IH,
      (string_rev_acc_append a (String c "")), append_assoc. reflexivity.
Qed.

Lemma endsWith_append (a suffix : string) : endsWith (a ++ suffix) suffix = true.
Proof. unfold endsWith. rewrite string_rev_append. apply prefix_append_nil. Qed.

(** X6: what the backup side writes, the restore side finds: for every
    registered provider a file name that ends in a dot and the provider's
    extension is a name the extraction step recognises as a dump, and so is
    the name createBackup gives the dump file. *)
Theorem provider_extensions_recognised (E : Env) (p : Provider) (stem : string)
    (d : Date) (dbName : string) :
  registered E p ->
  is_dump_name (stem ++ "." ++ getFileExtension p) = true
  /\ is_dump_name (backup_name d dbName (getFileExtension p)) = true.
Proof.
  intros Hp.
  assert (H : forall s, is_dump_name (s ++ "." ++ getFileExtension p) = true).
  { intros s. unfold is_dump_name. unfold registered in Hp. cbn in Hp.
    destruct Hp as [<-|[<-|[<-|[<-|[<-|[]]]]]]; cbn [getFileExtension];
      match goal with
      | |- context ["." ++ ?e] =>
          let t := eval vm_compute in ("." ++ e) in
          change ("." ++ e) with t; rewrite (endsWith_append s t)
      end; cbn; rewrite ?orb_true_r; reflexivity. }
  split; [apply H|]. unfold backup_name.
  set (tail := "." ++ getFileExtension p).
  rewrite <- !append_assoc. apply H.
Qed.

Lemma provider_extensions_recognised_witness :
  is_dump_name ("nightly" ++ "." ++ getFileExtension (mongodbProvider calm)) = true.
Proof.
  apply (provider_extensions_recognised calm (mongodbProvider calm) "nightly" jan5 "orders").
  right. left. reflexivity.
Defined.

(** X7: validateConfig of the MongoDB provider throws a TypeError, instead
    of returning a result, when mongodbUri is truthy and is no string (a
    number other than 0, true, an array or an object). *)
Theorem mongodb_validateConfig_throws (E : Env) (config : JsObj) :
  truthy (get config "mongodbUri") = true ->
  (forall s, get config "mongodbUri" <> JStr s) ->
  validateConfig (mongodbProvider E) config
  = Throw (TypeError "config.mongodbUri.startsWith is not a function").
Proof.
  intros Ht Hs. cbn. unfold mongodb_validateConfig. rewrite Ht.
  destruct (get config "mongodbUri"); try reflexivity.
  exfalso. eapply Hs. reflexivity.
Qed.

Lemma mongodb_validateConfig_throws_witness :
  validateConfig (mongodbProvider calm) {["mongodbUri" := JNum 27017]}
  = Throw (TypeError "config.mongodbUri.startsWith is not a function").
Proof.
  apply (mongodb_validateConfig_throws calm {["mongodbUri" := JNum 27017]}).
  - reflexivity.
  - intros s. discriminate.
Defined.

(** ** dumpDatabase *)

Lemma registered_probe (E : Env) (p : Provider) :
  registered E p -> exists cmd, isAvailable p = probe E cmd.
Proof.
  unfold registered. cbn. intros [<-|[<-|[<-|[<-|[<-|[]]]]]]; cbn; eauto.
Qed.

Lemma getProvider_registered (E : Env) (name : string) (p : Provider) :
  getProvider E name = Normal p -> registered E p.
Proof.
  unfold getProvider.
  destruct (Map_get (providers E) (toLowerCase name)) as [q|] eqn:H; [|discriminate].
  intros [= <-]. exact (Map_get_In _ _ _ H).
Qed.

(** X8: when the availability probe of the chosen provider fails,
    dumpDatabase rejects with the error that names the provider, after the
    probe and nothing else was spawned: the dump tool is not run and no file
    is written. *)
Theorem dumpDatabase_unavailable (E : Env) (outputPath providerName : string)
    (options : JsObj) (p : Provider) (w w1 : World) :
  providerName <> "" ->
  getProvider E providerName = Normal p ->
  isAvailable p w = (w1, Normal false) ->
  dumpDatabase E outputPath providerName options w
  = (w1, Throw (Error ("Database dump failed: " ++ displayName p
                       ++ " is not available. Please ensure it is installed and configured.")))
  /\ fs w1 = fs w
  /\ exists cmd, spawned w1 = app (spawned w) [cmd].
Proof.
  intros Hne Hget Hav. split.
  - unfold dumpDatabase, try_catch, select_provider. cbn [truthy].
    apply String.eqb_neq in Hne. rewrite Hne. cbn [negb].
    rewrite bind_run. unfold lift. rewrite Hget.
    rewrite (bind_normal _ _ _ _ _ Hav). reflexivity.
  - destruct (registered_probe E p (getProvider_registered _ _ _ Hget)) as [cmd Hcmd].
    rewrite Hcmd in Hav.
    destruct (probe_spec E cmd w) as (w' & Hrun & Hsp & Hfs).
    rewrite Hrun in Hav. injection Hav as <- _. eauto.
Qed.

Lemma dumpDatabase_unavailable_witness :
  dumpDatabase no_tools "backups/a.sql" "mysql" ∅ empty_world
  = (with_spawned (fun l => app l ["mysqldump --version"]) empty_world,
     Throw (Error ("Database dump failed: MySQL"
                   ++ " is not available. Please ensure it is installed and configured."))).
Proof.
  apply (dumpDatabase_unavailable no_tools "backups/a.sql" "mysql" ∅
           (mysqlProvider no_tools) empty_world).
  - discriminate.
  - reflexivity.
  - reflexivity.
Defined.

(** X9: for a name that is not registered dumpDatabase rejects with the
    error of the registry, wrapped, and the world is as it was: no probe, no
    tool, no file. *)
Theorem dumpDatabase_unknown_provider (E : Env) (outputPath providerName : string)
    (options : JsObj) (w : World) :
  providerName <> "" ->
  hasProvider (providers E) providerName = false ->
  dumpDatabase E outputPath providerName options w
  = (w, Throw (Error ("Database dump failed: Provider '" ++ providerName
                      ++ "' not found. Available providers: "
                      ++ "supabase, mongodb, mysql, postgres, postgresql"))).
Proof.
  intros Hne Hhas. unfold dumpDatabase, try_catch, select_provider. cbn [truthy].
  apply String.eqb_neq in Hne. rewrite Hne. cbn [negb].
  rewrite bind_run. unfold lift, getProvider.
  unfold hasProvider, Map_has in Hhas.
  destruct (Map_get (providers E) (toLowerCase providerName)); [discriminate|].
  reflexivity.
Qed.

Lemma dumpDatabase_unknown_provider_witness :
  dumpDatabase calm "backups/a.sql" "oracle" ∅ empty_world
  = (empty_world,
     Throw (Error ("Database dump failed: Provider 'oracle' not found. "
                   ++ "Available providers: supabase, mongodb, mysql, postgres, postgresql"))).
Proof.
  apply (dumpDatabase_unknown_provider calm "backups/a.sql" "oracle" ∅ empty_world).
  - discriminate.
  - reflexivity.
Defined.

Lemma try_catch_rethrow_throw {A} (m : M A) (f : JsError -> JsError)
    (w w' : World) (e : JsError) :
  try_catch m (fun error => throw (f error)) w = (w', Throw e) ->
  exists e0, m w = (w', Throw e0) /\ e = f e0.
Proof.
  unfold try_catch, throw. destruct (m w) as [w1 [x|e0|]]; [discriminate| |discriminate].
  intros [= <- <-]. eauto.
Qed.

Lemma dumpDatabase_settles (E : Env) (outputPath providerName : string) (options : JsObj) :
  settles (dumpDatabase E outputPath providerName options).
Proof.
  unfold dumpDatabase. apply settles_try_catch; [|intros e; apply settles_throw].
  apply (settles_bind_post _ _ (registered E));
    [intros w w' a; apply select_provider_registered
    | apply select_provider_settles | intros provider Hreg].
  destruct (registered_settles E provider Hreg) as (Havail & Hdump & _).
  apply settles_bind; [exact Havail | intros available].
  destruct (negb available); [apply settles_throw|].
  apply settles_bind; [apply Hdump | intros _; apply fs_access_settles].
Qed.

(** X10: dumpDatabase does not take the word of the tool: it resolves only
    when the output file exists afterwards, and when the file is not there
    it rejects, with an error whose message starts with Database dump
    failed, whatever the tool reported. *)
Theorem dumpDatabase_output (E : Env) (outputPath providerName : string)
    (options : JsObj) (w w' : World) (r : Completion unit) :
  dumpDatabase E outputPath providerName options w = (w', r) ->
  (r = Normal tt -> exists_at w' outputPath = true)
  /\ (exists_at w' outputPath = false ->
      exists e, r = Throw e
                /\ String.prefix "Database dump failed: " (err_message e) = true).
Proof.
  intros Hrun. split.
  - intros ->. exact (dumpDatabase_normal _ _ _ _ _ _ Hrun).
  - intros Hno. pose proof (dumpDatabase_settles _ _ _ _ _ _ _ Hrun) as Hs.
    destruct r as [[]|e|]; [| |contradiction].
    + rewrite (dumpDatabase_normal _ _ _ _ _ _ Hrun) in Hno. discriminate.
    + exists e. split; [reflexivity|]. unfold dumpDatabase in Hrun.
      apply try_catch_rethrow_throw in Hrun as (e0 & _ & ->). apply prefix_append_nil.
Qed.

Lemma dumpDatabase_output_witness :
  exists e, snd (dumpDatabase silent_tool "backups/a.sql" "supabase" ∅ empty_world) = Throw e
            /\ String.prefix "Database dump failed: " (err_message e) = true.
Proof.
  destruct (dumpDatabase silent_tool "backups/a.sql" "supabase" ∅ empty_world)
    as [w' r] eqn:Hrun.
  apply (proj2 (dumpDatabase_output silent_tool "backups/a.sql" "supabase" ∅
                  empty_world w' r Hrun)).
  vm_compute in Hrun. injection Hrun as <- _. reflexivity.
Defined.

(** ** createBackup: a run that succeeds *)

(** The shape of a successful run: the working directory, the provider, the
    two names from two readings of the clock, and the stages. *)
Lemma createBackup_files (E : Env) (dbName workDir providerName : string)
    (options : JsObj) (w w' : World) (files : BackupFiles) :
  createBackup E dbName workDir providerName options w = (w', Normal files) ->
  exists w0 provider,
    ensureDirectory E workDir w = (w0, Normal tt)
    /\ registered E provider
    /\ select_provider E providerName w0 = (w0, Normal provider)
    /\ dumpFile files
       = path_join workDir
           (backup_name (clock E (ticks w)) dbName (getFileExtension provider))
    /\ zipFile files
       = path_join workDir (backup_name (clock E (S (ticks w))) dbName "zip")
    /\ createBackup_stages E provider
         (backup_name (clock E (ticks w)) dbName (getFileExtension provider))
         (backup_name (clock E (S (ticks w))) dbName "zip")
         (dumpFile files) (zipFile files) providerName options
         (with_ticks S (with_ticks S w0))
       = (w', Normal files).
Proof.
  intros H.
  assert (H' := H). unfold createBackup in H'.
  apply bind_normal_inv in H' as (w1 & [] & Hens & H').
  apply bind_normal_inv in H' as (w2 & provider & Hsel & _).
  destruct (select_provider_run E providerName w1) as (c & Hsel' & Hreg).
  rewrite Hsel' in Hsel. injection Hsel as <- ->. specialize (Hreg _ eq_refl).
  destruct (ensureDirectory_normal _ _ _ _ Hens) as [Hticks _].
  rewrite (createBackup_run E dbName workDir providerName options w w1 provider Hens Hsel')
    in H.
  rewrite Hticks in H. unfold try_catch in H.
  match type of H with
  | context [match ?m ?x with _ => _ end] => destruct (m x) as [w5 [x'|e|]] eqn:Hst
  end; [| |discriminate].
  - injection H as <- <-. assert (Hst' := Hst).
    unfold createBackup_stages in Hst'.
    apply bind_normal_inv in Hst' as (v1 & [] & _ & Hst').
    apply bind_normal_inv in Hst' as (v2 & [] & _ & Hst').
    apply bind_normal_inv in Hst' as (v3 & [] & _ & Hst').
    apply bind_normal_inv in Hst' as (v4 & [] & _ & Hst').
    injection Hst' as _ <-. cbn [dumpFile zipFile].
    exists w1, provider. repeat (split; [first [assumption | reflexivity]|]).
    exact Hst.
  - apply bind_inv in H as [(e' & _ & [=])|[(v & [] & _ & H)|(_ & [=])]].
    unfold throw in H. discriminate.
Qed.



Lemma console_log_hands_off (line : string) : always (console_log line) hands_off.
Proof. intros w w' r [= <- _]. split; reflexivity. Qed.

Lemma fs_access_hands_off (p : string) : always (fs_access p) hands_off.
Proof.
  intros w w' r. unfold fs_access.
  destruct (exists_at w p); intros [= <- _]; split; reflexivity.
Qed.

Lemma execAsync_hands_off (E : Env) (cmd : string) (t : Target) :
  always (execAsync E cmd t) hands_off.
Proof.
  intros w w' r. unfold execAsync. cbv zeta.
  destruct (failure (tool E cmd)); intros [= <- _]; split; reflexivity.
Qed.

Lemma createZipArchive_hands_off (E : Env) (sourceFile outputZip : string) :
  always (createZipArchive E sourceFile outputZip) hands_off.
Proof.
  intros w w' r. unfold createZipArchive.
  destruct (stream_error E w outputZip); [intros [= <- _]; split; reflexivity|].
  cbv zeta. destruct (failure _); intros [= <- _]; split; reflexivity.
Qed.

#[local] Hint Resolve console_log_hands_off fs_access_hands_off execAsync_hands_off
  createZipArchive_hands_off : frame.

















(** ** encrypt.js *)

Lemma cipher_stage (E : Env) (label : string) (r : JsVal -> Run) (k : string)
    (inputFile outputFile : string) (keys : JsVal) (w w' : World) (c : Completion unit) :
  try_catch
    (fs_access inputFile;;
     key ← lift (key_of keys k);
     run_cipher (r key) outputFile;;
     fs_access outputFile)
    (fun error => throw (Error (label ++ err_message error))) w = (w', c) ->
  touches [outputFile] w w'
  /\ (c = Normal tt -> exists_at w inputFile = true /\ exists_at w' outputFile = true)
  /\ (exists_at w inputFile = false ->
      w' = w
      /\ c = Throw (Error (label ++ "ENOENT: no such file or directory, access '"
                           ++ inputFile ++ "'")))
  /\ (forall e, c = Throw e ->
      err_name e = "Error" /\ err_code e = None /\ String.prefix label (err_message e) = true).
Proof.
  intros Hrun. split; [|split; [|split]].
  - revert Hrun. generalize c. generalize w'. generalize w.
    change (always (try_catch
      (fs_access inputFile;;
       key ← lift (key_of keys k);
       run_cipher (r key) outputFile;;
       fs_access outputFile)
      (fun error => throw (Error (label ++ err_message error)))) (touches [outputFile])).
    apply touches_try_catch; [|intros e; apply touches_throw].
    apply touches_bind; [apply fs_access_touches | intros _].
    apply touches_bind; [apply touches_lift | intros key].
    apply touches_bind; [apply run_cipher_touches; left; reflexivity | intros _].
    apply fs_access_touches.
  - intros ->. apply try_catch_rethrow_normal in Hrun.
    apply bind_normal_inv in Hrun as (w1 & [] & Hin & H).
    apply fs_access_normal in Hin as [-> Hin].
    apply bind_normal_inv in H as (w2 & key & _ & H).
    apply bind_normal_inv in H as (w3 & [] & _ & H).
    apply fs_access_normal in H as [-> Hout]. auto.
  - intros Hno. revert Hrun. unfold try_catch. rewrite bind_run.
    unfold fs_access at 1. rewrite Hno. unfold throw. cbn.
    intros [= <- <-]. auto.
  - intros e ->. revert Hrun. unfold try_catch, throw.
    match goal with
    | |- context [match ?m w with _ => _ end] => destruct (m w) as [w1 [[]|e1|]]
    end; [discriminate| |discriminate].
    intros [= _ <-]. cbn. repeat split. apply prefix_append_nil.
Qed.

(** X13: encryptBackupFile and decryptBackupFile write at most their output
    file; they resolve only when the input existed and the output exists
    afterwards; on a missing input they reject before the cipher runs, with
    the world as it was; and whatever fails, the error they reject with is a
    plain Error whose message starts with Encryption failed or Decryption
    failed: the code of a system error is not passed on. *)
Theorem cipher_contract (E : Env) (inputFile outputFile : string) (keys : JsVal)
    (w w' : World) (c : Completion unit) (label : string) :
  (label = "Encryption failed: "
   /\ encryptBackupFile E inputFile outputFile keys w = (w', c))
  \/ (label = "Decryption failed: "
      /\ decryptBackupFile E inputFile outputFile keys w = (w', c)) ->
  touches [outputFile] w w'
  /\ (c = Normal tt -> exists_at w inputFile = true /\ exists_at w' outputFile = true)
  /\ (exists_at w inputFile = false ->
      w' = w
      /\ c = Throw (Error (label ++ "ENOENT: no such file or directory, access '"
                           ++ inputFile ++ "'")))
  /\ (forall e, c = Throw e ->
      err_name e = "Error" /\ err_code e = None /\ String.prefix label (err_message e) = true).
Proof.
  intros [[-> H]|[-> H]].
  - exact (cipher_stage E _ (pq_encryptFile E inputFile outputFile) "publicKey" _ _ _ _ _ _ H).
  - exact (cipher_stage E _ (pq_decryptFile E inputFile outputFile) "privateKey" _ _ _ _ _ _ H).
Qed.

Lemma cipher_contract_witness :
  decryptBackupFile calm "/srv/orders.zip.encrypted" "restore-temp/decrypted-backup.zip"
                    good_keys empty_world
  = (empty_world,
     Throw (Error ("Decryption failed: " ++ "ENOENT: no such file or directory, access '"
                   ++ "/srv/orders.zip.encrypted" ++ "'"))).
Proof.
  destruct (decryptBackupFile calm "/srv/orders.zip.encrypted"
              "restore-temp/decrypted-backup.zip" good_keys empty_world) as [w' c] eqn:Hrun.
  destruct (cipher_contract calm "/srv/orders.zip.encrypted"
              "restore-temp/decrypted-backup.zip" good_keys empty_world w' c
              "Decryption failed: " (or_intror (conj eq_refl Hrun)))
    as (_ & _ & Hmiss & _).
  destruct (Hmiss eq_refl) as [-> ->]. reflexivity.
Defined.

(** ** utils.js *)




Lemma filter_nil_Forall {A} (f : A -> bool) (l : list A) :
  List.filter f l = [] <-> Forall (fun x => f x = false) l.
Proof.
  induction l as [|x l IH]; cbn.
  - split; [constructor | reflexivity].
  - destruct (f x) eqn:Hx.
    + split; [discriminate|]. intros H. inversion H. congruence.
    + rewrite IH. split; [intros H; constructor; assumption | intros H; inversion H; auto].
Qed.

Lemma mem_string_In (k : string) (l : list string) : mem_string k l = true <-> In k l.
Proof.
  unfold mem_string. rewrite existsb_exists. split.
  - intros (x & Hx & Heq). apply String.eqb_eq in Heq. subst. exact Hx.
  - intros H. exists k. split; [exact H | apply String.eqb_refl].
Qed.

Lemma has_property_object (m : JsObj) (k : string) :
  has_property (JObj m) k = true <-> is_Some (m !! k) \/ In k Object_prototype.
Proof.
  cbn [has_property]. rewrite orb_true_iff, bool_decide_eq_true, mem_string_In. tauto.
Qed.

(** X15: validateRequiredKeys on an object resolves exactly when every
    required key is an own property (whatever its value, [undefined]
    included) or a member of Object.prototype; when it rejects, the message
    lists exactly the required keys that are neither, in the order asked.
    On a value that is neither object nor array it throws a TypeError as
    soon as one key is required, and accepts an empty list of keys. *)
Theorem validateRequiredKeys_contract (obj : JsVal) (requiredKeys : list string) :
  (forall m, obj = JObj m ->
     (validateRequiredKeys obj requiredKeys = Normal tt
      <-> Forall (fun k => is_Some (m !! k) \/ In k Object_prototype) requiredKeys)
     /\ (forall e, validateRequiredKeys obj requiredKeys = Throw e ->
         e = Error ("Missing required keys: "
                    ++ join ", " (List.filter
                                    (fun k => negb (bool_decide (is_Some (m !! k)))
                                              && negb (mem_string k Object_prototype))
                                    requiredKeys))))
  /\ ((forall m, obj <> JObj m) -> (forall l, obj <> JArr l) ->
      match requiredKeys with
      | [] => validateRequiredKeys obj requiredKeys = Normal tt
      | key :: _ =>
          validateRequiredKeys obj requiredKeys
          = Throw (TypeError ("Cannot use 'in' operator to search for '" ++ key
                              ++ "' in " ++ to_string obj))
      end).
Proof.
  split.
  - intros m ->. cbn [validateRequiredKeys].
    set (missing := List.filter (fun key => negb (has_property (JObj m) key)) requiredKeys).
    assert (Hmiss : missing
                    = List.filter (fun k => negb (bool_decide (is_Some (m !! k)))
                                            && negb (mem_string k Object_prototype))
                                  requiredKeys).
    { unfold missing. apply filter_ext. intros k. cbn [has_property].
      apply negb_orb. }
    assert (Hnil : missing = []
                   <-> Forall (fun k => is_Some (m !! k) \/ In k Object_prototype)
                              requiredKeys).
    { unfold missing. rewrite filter_nil_Forall. apply Forall_iff. intros k.
      rewrite negb_false_iff. apply has_property_object. }
    destruct missing as [|k ks] eqn:Hm.
    + cbn. split; [split; [intros _; apply Hnil; reflexivity | reflexivity]|].
      discriminate.
    + cbn [length Nat.ltb Nat.leb]. split.
      * split; [discriminate|]. intros H. apply Hnil in H. discriminate.
      * intros e [= <-]. rewrite <- Hmiss. reflexivity.
  - intros Hobj Harr.
    destruct obj; try (destruct requiredKeys; reflexivity).
    + exfalso. eapply Harr. reflexivity.
    + exfalso. eapply Hobj. reflexivity.
Qed.

Lemma validateRequiredKeys_contract_witness :
  validateRequiredKeys (JObj {["host" := JUndefined]}) ["host"; "toString"] = Normal tt
  /\ validateRequiredKeys (JStr "keys") ["publicKey"]
     = Throw (TypeError "Cannot use 'in' operator to search for 'publicKey' in keys").
Proof.
  split.
  - apply (proj1 (validateRequiredKeys_contract (JObj {["host" := JUndefined]})
                    ["host"; "toString"]) {["host" := JUndefined]} eq_refl).
    constructor; [left; vm_compute; eauto|].
    constructor; [right; vm_compute; tauto | constructor].
  - apply (proj2 (validateRequiredKeys_contract (JStr "keys") ["publicKey"]));
      discriminate.
Defined.

(** X16: readJsonFile and loadConfig read and never write: the world is as
    before.  readJsonFile resolves exactly with the value of a file that
    holds JSON; whatever else happens (no file, a directory, a text that is
    no JSON) it rejects with a plain Error without code whose message starts
    with the path; loadConfig wraps that message once more. *)
Theorem readJsonFile_contract (E : Env) (filePath : string) (w w' : World)
    (r : Completion JsVal) :
  (readJsonFile filePath w = (w', r) ->
   w' = w
   /\ (forall v, r = Normal v <-> fs w !! filePath = Some (File (Some v)))
   /\ (forall e, r = Throw e ->
       err_name e = "Error" /\ err_code e = None
       /\ String.prefix ("Failed to read JSON file " ++ filePath ++ ": ") (err_message e)
          = true))
  /\ (loadConfig E w = (w', r) ->
      w' = w
      /\ (forall v, r = Normal v <-> fs w !! getConfigPath E = Some (File (Some v)))
      /\ (forall e, r = Throw e ->
          err_name e = "Error" /\ err_code e = None
          /\ String.prefix ("Failed to load config: Failed to read JSON file "
                            ++ getConfigPath E ++ ": ") (err_message e) = true)).
Proof.
  assert (Hread : forall p,
    readJsonFile p w
    = (w, match fs w !! p with
          | Some (File (Some v)) => Normal v
          | Some (File None) =>
              Throw (Error ("Failed to read JSON file " ++ p ++ ": "
                            ++ "Unexpected end of JSON input"))
          | Some Dir =>
              Throw (Error ("Failed to read JSON file " ++ p ++ ": "
                            ++ err_message (SystemError "EISDIR"
                                              "illegal operation on a directory, read")))
          | None =>
              Throw (Error ("Failed to read JSON file " ++ p ++ ": "
                            ++ err_message (SystemError "ENOENT"
                                 ("no such file or directory, open '" ++ p ++ "'"))))
          end)).
  { intros p. unfold readJsonFile, read_and_parse, try_catch, throw.
    destruct (fs w !! p) as [[|[v|]]|]; reflexivity. }
  split.
  - rewrite Hread. intros [= <- <-]. split; [reflexivity|].
    destruct (fs w !! filePath) as [[|[v|]]|]; (split; [split; congruence|]);
      intros e [= <-]; cbn [err_name err_code err_message Error];
      repeat split; rewrite !prefix_append; apply prefix_append_nil.
  - unfold loadConfig, try_catch. rewrite Hread.
    destruct (fs w !! getConfigPath E) as [[|[v|]]|]; unfold throw;
      intros [= <- <-]; (split; [reflexivity|]); (split; [split; congruence|]);
      intros e [= <-]; cbn [err_name err_code err_message Error];
      repeat split;
      change ("Failed to load config: Failed to read JSON file " ++ getConfigPath E ++ ": ")
        with ("Failed to load config: "
              ++ ("Failed to read JSON file " ++ getConfigPath E ++ ": "));
      rewrite !prefix_append; apply prefix_append_nil.
Qed.

Lemma readJsonFile_contract_witness :
  readJsonFile "/home/u/keys.json" keys_on_disk = (keys_on_disk, Normal good_keys).
Proof.
  destruct (readJsonFile "/home/u/keys.json" keys_on_disk) as [w' r] eqn:Hrun.
  destruct (proj1 (readJsonFile_contract calm "/home/u/keys.json" keys_on_disk w' r) Hrun)
    as (-> & Hval & _).
  f_equal. apply Hval. reflexivity.
Defined.

(** ** Time stamps and names *)

Lemma string_of_Z_inj (a b : Z) : string_of_Z a = string_of_Z b -> a = b.
Proof.
  unfold string_of_Z. intros H. apply DecimalZ.to_int_inj.
  assert (Hback : forall z, NilZero.int_of_string (NilZero.string_of_int (Z.to_int z))
                            = Some (Z.to_int z)).
  { intros [|p|p]; [reflexivity| |]; apply NilZero.isi; cbn; intros [=];
      eapply DecimalPos.Unsigned.to_uint_nonnil; eassumption. }
  apply (f_equal NilZero.int_of_string) in H. rewrite !Hback in H. congruence.
Qed.

Lemma append_inj_length (a1 a2 b1 b2 : string) :
  String.length b1 = String.length b2 -> a1 ++ b1 = a2 ++ b2 -> a1 = a2 /\ b1 = b2.
Proof.
  intros Hlen. revert a2.
  induction a1 as [|c a1 IH]; intros [|c' a2]; cbv [String.append]; fold String.append.
  - auto.
  - intros H. apply (f_equal String.length) in H. cbn in H.
    rewrite length_append in H. lia.
  - intros H. apply (f_equal String.length) in H. cbn in H.
    rewrite length_append in H. lia.
  - intros [= -> H]. destruct (IH _ H) as [-> ->]. auto.
Qed.

Lemma field_value_padStart (n : Z) :
  0 <= n <= 99 ->
  field_value (padStart 2 "0" (string_of_Z n)) = n
  /\ String.length (padStart 2 "0" (string_of_Z n)) = 2%nat.
Proof.
  intros Hn.
  pose (f := fun z : Z =>
               (field_value (padStart 2 "0" (string_of_Z z)) =? z)
               && Nat.eqb (String.length (padStart 2 "0" (string_of_Z z))) 2).
  assert (H : f n = true)
    by (apply (forallb_Z_range f 0 100); [vm_compute; reflexivity | lia]).
  unfold f in H. apply andb_true_iff in H as [H1 H2].
  split; [apply Z.eqb_eq, H1 | apply Nat.eqb_eq, H2].
Qed.

Lemma format_timestamp_inj (d1 d2 : Date) :
  calendar_date d1 = true -> calendar_date d2 = true ->
  format_timestamp d1 = format_timestamp d2 -> d1 = d2.
Proof.
  unfold calendar_date. intros C1 C2.
  repeat (apply andb_true_iff in C1 as [C1 ?]).
  repeat (apply andb_true_iff in C2 as [C2 ?]).
  repeat match goal with
         | H : (_ <=? _) = true |- _ => apply Z.leb_le in H
         end.
  destruct d1 as [y1 mo1 da1 h1 mi1 s1], d2 as [y2 mo2 da2 h2 mi2 s2]. cbn in *.
  unfold format_timestamp. cbn [getFullYear getMonth getDate getHours getMinutes getSeconds].
  destruct (field_value_padStart (mo1 + 1)) as [Vmo1 Lmo1]; [lia|].
  destruct (field_value_padStart (mo2 + 1)) as [Vmo2 Lmo2]; [lia|].
  destruct (field_value_padStart da1) as [Vda1 Lda1]; [lia|].
  destruct (field_value_padStart da2) as [Vda2 Lda2]; [lia|].
  destruct (field_value_padStart h1) as [Vh1 Lh1]; [lia|].
  destruct (field_value_padStart h2) as [Vh2 Lh2]; [lia|].
  destruct (field_value_padStart mi1) as [Vmi1 Lmi1]; [lia|].
  destruct (field_value_padStart mi2) as [Vmi2 Lmi2]; [lia|].
  destruct (field_value_padStart s1) as [Vs1 Ls1]; [lia|].
  destruct (field_value_padStart s2) as [Vs2 Ls2]; [lia|].
  intros Heq.
  apply append_inj_length in Heq as [Hy Heq];
    [|rewrite !length_append; cbn [String.length]; lia].
  apply append_inj_length in Heq as [Hmo Heq];
    [|rewrite !length_append; cbn [String.length]; lia].
  apply append_inj_length in Heq as [Hda Heq];
    [|rewrite !length_append; cbn [String.length]; lia].
  apply (append_inj_length "-" "-") in Heq as [_ Heq];
    [|rewrite !length_append; lia].
  apply append_inj_length in Heq as [Hh Heq];
    [|rewrite !length_append; lia].
  apply append_inj_length in Heq as [Hmi Hs]; [|lia].
  apply string_of_Z_inj in Hy.
  apply (f_equal field_value) in Hmo, Hda, Hh, Hmi, Hs.
  rewrite Vmo1, Vmo2 in Hmo. rewrite Vda1, Vda2 in Hda. rewrite Vh1, Vh2 in Hh.
  rewrite Vmi1, Vmi2 in Hmi. rewrite Vs1, Vs2 in Hs.
  f_equal; lia.
Qed.

(** X17: two names that generateBackupFilename makes for the same database
    and extension are equal only when the two readings of the clock agree in
    year, month, day, hour, minute and second: backups taken at different
    seconds never overwrite each other, whatever the year. *)
Theorem generateBackupFilename_injective (E : Env) (dbName ext : string) (w1 w2 : World) :
  calendar_date (clock E (ticks w1)) = true ->
  calendar_date (clock E (ticks w2)) = true ->
  (generateBackupFilename E dbName ext w1).2 = (generateBackupFilename E dbName ext w2).2 ->
  clock E (ticks w1) = clock E (ticks w2).
Proof.
  intros C1 C2 Heq.
  change (Normal ("supabase-backup-" ++ format_timestamp (clock E (ticks w1))
                  ++ "-" ++ dbName ++ "." ++ ext)
          = Normal ("supabase-backup-" ++ format_timestamp (clock E (ticks w2))
                    ++ "-" ++ dbName ++ "." ++ ext) :> Completion string) in Heq.
  injection Heq as Heq.
  change (format_timestamp (clock E (ticks w1)) ++ "-" ++ dbName ++ "." ++ ext
          = format_timestamp (clock E (ticks w2)) ++ "-" ++ dbName ++ "." ++ ext) in Heq.
  apply append_inj_length in Heq as [Heq _]; [|reflexivity].
  exact (format_timestamp_inj _ _ C1 C2 Heq).
Qed.

Lemma generateBackupFilename_injective_witness :
  clock calm (ticks empty_world) = clock calm (ticks (with_ticks S empty_world)).
Proof.
  apply (generateBackupFilename_injective calm "orders_db" "sql" empty_world
           (with_ticks S empty_world));
    reflexivity.
Defined.

(** ** email.js *)

Lemma getenv_run (k : string) (w : World) :
  getenv k w = (w, Normal (match process_env w !! k with
                           | Some v => JStr v
                           | None => JUndefined
                           end)).
Proof. reflexivity. Qed.

Lemma isSmtpConfigured_run (w : World) :
  isSmtpConfigured w = (w, Normal (env_set w "SMTP_USER" && env_set w "SMTP_PASS")).
Proof.
  unfold isSmtpConfigured, env_set. munfold. rewrite !getenv_run.
  destruct (process_env w !! "SMTP_USER"), (process_env w !! "SMTP_PASS"); reflexivity.
Qed.

Lemma createTransporter_run (E : Env) (w : World) :
  createTransporter E w
  = (w, if env_set w "SMTP_USER" && env_set w "SMTP_PASS"
        then Normal (sendMail E)
        else Throw (Error
          "SMTP credentials not found. Set SMTP_USER and SMTP_PASS environment variables.")).
Proof.
  unfold createTransporter, env_set. munfold. rewrite !getenv_run.
  destruct (process_env w !! "SMTP_USER") as [u|], (process_env w !! "SMTP_PASS") as [p|];
    cbn; try reflexivity;
    destruct (String.eqb u ""); cbn; try reflexivity;
    destruct (String.eqb p ""); reflexivity.
Qed.

(** X18: sendBackupEmail without a transporter of the caller changes
    nothing in the world.  It resolves exactly when isSmtpConfigured holds,
    the attachment exists and the transport accepts the mail, whose sender
    is SMTP_USER.  The credentials are checked first: without them the
    error is the one of createTransporter even when the attachment is
    missing too; a missing attachment is reported by the error of fs.access
    as it is; only the rejection of the transport is wrapped. *)
Theorem sendBackupEmail_contract (E : Env) (to : JsVal) (subject attachmentPath : string)
    (w w' : World) (r : Completion unit) :
  sendBackupEmail E to subject attachmentPath None w = (w', r) ->
  w' = w
  /\ (r = Normal tt <->
      isSmtpConfigured w = (w, Normal true)
      /\ exists_at w attachmentPath = true
      /\ exists user, process_env w !! "SMTP_USER" = Some user
                      /\ sendMail E (mkMail (JStr user) to subject attachmentPath) = None)
  /\ (isSmtpConfigured w = (w, Normal false) ->
      r = Throw (Error
        "SMTP credentials not found. Set SMTP_USER and SMTP_PASS environment variables."))
  /\ (isSmtpConfigured w = (w, Normal true) -> exists_at w attachmentPath = false ->
      r = Throw (SystemError "ENOENT"
                   ("no such file or directory, access '" ++ attachmentPath ++ "'")))
  /\ (forall e, r = Throw e -> err_code e = None ->
      isSmtpConfigured w = (w, Normal true) ->
      exists msg, err_message e = "Failed to send email: " ++ msg).
Proof.
  rewrite isSmtpConfigured_run.
  unfold sendBackupEmail. rewrite bind_run, createTransporter_run.
  destruct (env_set w "SMTP_USER" && env_set w "SMTP_PASS") eqn:Hcfg.
  - rewrite bind_run. unfold fs_access at 1.
    destruct (exists_at w attachmentPath) eqn:Hex.
    + rewrite bind_run, getenv_run. unfold try_catch.
      apply andb_true_iff in Hcfg as [Hu _]. unfold env_set in Hu.
      destruct (process_env w !! "SMTP_USER") as [user|] eqn:Huser; [|discriminate].
      destruct (sendMail E (mkMail (JStr user) to subject attachmentPath)) as [msg|] eqn:Hsend;
        munfold; intros [= <- <-].
      * split; [reflexivity|]. split.
        { split; [discriminate|]. intros (_ & _ & u & [= <-] & Hu'). congruence. }
        split; [discriminate|]. split; [discriminate|].
        intros e [= <-] _ _. eexists. reflexivity.
      * split; [reflexivity|]. split.
        { split; [|reflexivity]. intros _. split; [reflexivity|]. split; [reflexivity|].
          exists user. auto. }
        split; [discriminate|]. split; [discriminate|]. discriminate.
    + intros [= <- <-]. split; [reflexivity|]. split.
      { split; [discriminate|]. intros (_ & [=] & _). }
      split; [discriminate|]. split; [reflexivity|]. intros e [= <-]. discriminate.
  - intros [= <- <-]. split; [reflexivity|]. split.
    { split; [discriminate|]. intros ([=] & _). }
    split; [reflexivity|]. split; [discriminate|]. intros e _ _ [=].
Qed.

Lemma sendBackupEmail_contract_witness :
  sendBackupEmail calm (JStr "dba@example.com") "Encrypted Database Backup - orders_db"
                  "/srv/orders.zip.encrypted" None smtp_ready
  = (smtp_ready, Normal tt).
Proof.
  destruct (sendBackupEmail calm (JStr "dba@example.com")
              "Encrypted Database Backup - orders_db" "/srv/orders.zip.encrypted" None
              smtp_ready) as [w' r] eqn:Hrun.
  destruct (sendBackupEmail_contract calm _ _ _ _ _ _ Hrun) as (-> & Hok & _).
  f_equal. apply Hok. split; [reflexivity|]. split; [reflexivity|].
  exists "mailer". split; reflexivity.
Defined.

(** ** config.js *)

(** X19: validateConfig of config.js throws a TypeError exactly when the
    configuration is null or undefined (the first property read is
    config.keysPath); on every other value it returns, whatever the smtp
    field holds: the configuration is valid exactly when keysPath,
    defaultEmail, defaultDbName, smtp.user and smtp.pass are all truthy, and
    exactly then the list of errors is empty; when smtp is no object both
    SMTP errors are reported. *)
Theorem config_validateConfig_contract (config : JsVal) :
  (config = JNull \/ config = JUndefined ->
   config_validateConfig config
   = Throw (TypeError ("Cannot read properties of " ++ to_string config
                       ++ " (reading 'keysPath')")))
  /\ (config <> JNull -> config <> JUndefined ->
      exists v,
        config_validateConfig config = Normal v
        /\ (valid v = true
            <-> truthy (read_prop_opt config "keysPath") = true
                /\ truthy (read_prop_opt config "defaultEmail") = true
                /\ truthy (read_prop_opt config "defaultDbName") = true
                /\ truthy (read_prop_opt (read_prop_opt config "smtp") "user") = true
                /\ truthy (read_prop_opt (read_prop_opt config "smtp") "pass") = true)
        /\ (valid v = true <-> errors v = [])
        /\ ((forall m, read_prop_opt config "smtp" <> JObj m) ->
            In "SMTP user is required" (errors v)
            /\ In "SMTP password is required" (errors v))).
Proof.
  split.
  - intros [->| ->]; reflexivity.
  - intros Hnull Hundef.
    assert (Hread : read_prop config "keysPath" = Normal (read_prop_opt config "keysPath"))
      by (destruct config; try reflexivity; congruence).
    unfold config_validateConfig. rewrite Hread. eexists. split; [reflexivity|].
    unfold validation_of, push. split; [|split].
    + destruct (truthy (read_prop_opt config "keysPath")),
        (truthy (read_prop_opt config "defaultEmail")),
        (truthy (read_prop_opt config "defaultDbName")),
        (truthy (read_prop_opt (read_prop_opt config "smtp") "user")),
        (truthy (read_prop_opt (read_prop_opt config "smtp") "pass"));
        cbn; intuition discriminate.
    + destruct (truthy (read_prop_opt config "keysPath")),
        (truthy (read_prop_opt config "defaultEmail")),
        (truthy (read_prop_opt config "defaultDbName")),
        (truthy (read_prop_opt (read_prop_opt config "smtp") "user")),
        (truthy (read_prop_opt (read_prop_opt config "smtp") "pass"));
        cbn; intuition discriminate.
    + intros Hsmtp.
      assert (Hu : forall k, truthy (read_prop_opt (read_prop_opt config "smtp") k) = false).
      { intros k. destruct (read_prop_opt config "smtp"); try reflexivity.
        exfalso. eapply Hsmtp. reflexivity. }
      rewrite !Hu.
      destruct (truthy (read_prop_opt config "keysPath")),
        (truthy (read_prop_opt config "defaultEmail")),
        (truthy (read_prop_opt config "defaultDbName")); cbn; tauto.
Qed.

Lemma config_validateConfig_contract_witness :
  config_validateConfig JUndefined
  = Throw (TypeError "Cannot read properties of undefined (reading 'keysPath')")
  /\ exists v,
       config_validateConfig (JObj {["smtp" := JStr "smtp.gmail.com"]}) = Normal v
       /\ In "SMTP user is required" (errors v).
Proof.
  split.
  - exact (proj1 (config_validateConfig_contract JUndefined) (or_intror eq_refl)).
  - destruct (proj2 (config_validateConfig_contract
                       (JObj {["smtp" := JStr "smtp.gmail.com"]})))
      as (v & Hv & _ & _ & Hsmtp); [discriminate | discriminate |].
    exists v. split; [exact Hv|]. apply Hsmtp. intros m. discriminate.
Defined.

Lemma configExists_run (E : Env) (w : World) :
  configExists E w = (w, Normal (exists_at w (getConfigPath E))).
Proof.
  unfold configExists, try_catch, fs_access. rewrite bind_run.
  destruct (exists_at w (getConfigPath E)); reflexivity.
Qed.

Lemma or_else_object (a : JsVal) (m : JsObj) (k : string) (w : World) :
  or_else a (lift (read_prop (JObj m) k)) w = (w, Normal (js_or a (get m k))).
Proof. unfold or_else, js_or. destruct (truthy a); reflexivity. Qed.

Lemma or_else_smtp (a : JsVal) (m : JsObj) (k : string) (w : World) :
  or_else a (smtp_prop (JObj m) k) w
  = (w, Normal (js_or a (read_prop_opt (get m "smtp") k))).
Proof. unfold or_else, js_or, smtp_prop. destruct (truthy a); reflexivity. Qed.

Ltac merge_run :=
  repeat first [ rewrite (bind_normal _ _ _ _ _ (or_else_object _ _ _ _))
               | rewrite (bind_normal _ _ _ _ _ (or_else_smtp _ _ _ _))
               | rewrite (bind_normal _ _ _ _ _ (getenv_run _ _)) ];
  reflexivity.

Lemma mergeConfig_object (E : Env) (options m : JsObj) (w : World) :
  saved_config E w m ->
  mergeConfig E options w = (w, Normal (merged_with options m w)).
Proof.
  intros Hsaved. unfold mergeConfig. rewrite bind_run.
  change (configExists E ≫= _) with
    (bind (configExists E) (fun saved : bool => if saved then loadConfig E else ret (JObj ∅))).
  unfold bind at 1. rewrite configExists_run. unfold exists_at.
  destruct Hsaved as [[Hfile ->]|Hfile]; rewrite Hfile.
  - unfold ret at 1. merge_run.
  - unfold loadConfig, readJsonFile, read_and_parse, try_catch. rewrite Hfile. merge_run.
Qed.

Lemma js_or_prefers (first second fallback : JsVal) :
  prefers (js_or (js_or first second) fallback) first second fallback.
Proof.
  unfold prefers, js_or. destruct (truthy first) eqn:H1.
  - rewrite H1. repeat split; congruence.
  - destruct (truthy second) eqn:H2; repeat split; congruence.
Qed.

Lemma js_or_truthy (a b : JsVal) : truthy b = true -> truthy (js_or a b) = true.
Proof. unfold js_or. destruct (truthy a) eqn:Ha; auto. Qed.

Lemma unchanged_refl (w : World) : unchanged w w.
Proof. reflexivity. Qed.

Lemma unchanged_trans (a b c : World) : unchanged a b -> unchanged b c -> unchanged a c.
Proof. unfold unchanged. congruence. Qed.

Lemma getenv_unchanged (k : string) : always (getenv k) unchanged.
Proof. intros w w' r [= <- _]. reflexivity. Qed.

Lemma fs_access_unchanged (p : string) : always (fs_access p) unchanged.
Proof.
  intros w w' r. unfold fs_access. destruct (exists_at w p); intros [= <- _]; reflexivity.
Qed.

Lemma read_and_parse_unchanged (p : string) : always (read_and_parse p) unchanged.
Proof.
  intros w w' r. unfold read_and_parse.
  destruct (fs w !! p) as [[|[v|]]|]; intros [= <- _]; reflexivity.
Qed.

(** One step of a proof that a run leaves the world as it is. *)
Ltac unchanged_step :=
  lazymatch goal with
  | |- always (mret _) _ => apply (always_ret _ unchanged_refl)
  | |- always (ret _) _ => apply (always_ret _ unchanged_refl)
  | |- always (throw _) _ => apply (always_throw _ unchanged_refl)
  | |- always (lift _) _ => apply (always_lift _ unchanged_refl)
  | |- always (getenv _) _ => apply getenv_unchanged
  | |- always (fs_access _) _ => apply fs_access_unchanged
  | |- always (read_and_parse _) _ => apply read_and_parse_unchanged
  | |- always (_ ≫= _) _ => apply (always_bind _ unchanged_trans); [|intros ?]
  | |- always (try_catch _ _) _ => apply (always_try_catch _ unchanged_trans); [|intros ?]
  | |- always (if ?b then _ else _) _ => destruct b
  end.

Lemma mergeConfig_unchanged (E : Env) (options : JsObj) :
  always (mergeConfig E options) unchanged.
Proof.
  unfold mergeConfig, configExists, loadConfig, readJsonFile, or_else, smtp_prop.
  repeat unchanged_step.
Qed.

(** X20: mergeConfig reads and never writes.  When nothing is saved, or the
    saved configuration is a JSON object, it resolves, and every setting
    follows its order of precedence: a command-line option before the saved
    value before the default for email, keys, dbName and workDir; the
    environment variable before the saved value before the default for the
    SMTP settings.  workDir and the SMTP host are never falsy, the port is
    never 0, and it is 587 when neither the environment nor the saved
    configuration names one.  A configuration file that is a directory or
    holds no JSON makes it reject with the error of loadConfig. *)
Theorem mergeConfig_precedence (E : Env) (options : JsObj) (w w' : World)
    (r : Completion Merged) :
  mergeConfig E options w = (w', r) ->
  w' = w
  /\ (forall m, saved_config E w m ->
      exists merged,
        r = Normal merged
        /\ prefers (merged_email merged) (get options "email") (get m "defaultEmail") JNull
        /\ prefers (merged_keys merged) (get options "keys") (get m "keysPath") JNull
        /\ prefers (merged_dbName merged) (get options "dbName") (get m "defaultDbName") JNull
        /\ prefers (merged_workDir merged) (get options "workDir") (get m "workDir")
                   (JStr "./backups")
        /\ prefers (merged_smtp_host merged) (env_value w "SMTP_HOST")
                   (read_prop_opt (get m "smtp") "host") (JStr "smtp.gmail.com")
        /\ prefers (merged_smtp_user merged) (env_value w "SMTP_USER")
                   (read_prop_opt (get m "smtp") "user") JNull
        /\ prefers (merged_smtp_pass merged) (env_value w "SMTP_PASS")
                   (read_prop_opt (get m "smtp") "pass") JNull
        /\ prefers (merged_smtp_secure merged)
                   (JBool (is_string (env_value w "SMTP_SECURE") "true"))
                   (read_prop_opt (get m "smtp") "secure") (JBool false)
        /\ truthy (merged_workDir merged) = true
        /\ truthy (merged_smtp_host merged) = true
        /\ merged_smtp_port merged <> 0
        /\ (truthy (env_value w "SMTP_PORT") = false ->
            truthy (read_prop_opt (get m "smtp") "port") = false ->
            merged_smtp_port merged = 587))
  /\ (fs w !! getConfigPath E = Some Dir \/ fs w !! getConfigPath E = Some (File None) ->
      exists e, r = Throw e
                /\ String.prefix "Failed to load config: Failed to read JSON file "
                                 (err_message e) = true).
Proof.
  intros Hrun. split; [exact (mergeConfig_unchanged E options _ _ _ Hrun)|]. split.
  - intros m Hsaved. rewrite (mergeConfig_object E options m w Hsaved) in Hrun.
    injection Hrun as _ <-. eexists. split; [reflexivity|].
    cbn [merged_with merged_email merged_keys merged_dbName merged_workDir
         merged_smtp_host merged_smtp_port merged_smtp_secure merged_smtp_user
         merged_smtp_pass].
    repeat (split; [apply js_or_prefers|]).
    split; [apply js_or_truthy; reflexivity|].
    split; [apply js_or_truthy; reflexivity|].
    split.
    + destruct (parseInt10 _) as [n|]; [|discriminate].
      destruct (n =? 0) eqn:Hn; [discriminate | apply Z.eqb_neq, Hn].
    + intros He Hc. unfold js_or. rewrite He, Hc. reflexivity.
  - intros Hbad. revert Hrun. unfold mergeConfig. rewrite bind_run.
    change (configExists E ≫= _) with
      (bind (configExists E) (fun saved : bool => if saved then loadConfig E else ret (JObj ∅))).
    unfold bind at 1. rewrite configExists_run. unfold exists_at.
    destruct Hbad as [Hfile|Hfile]; rewrite Hfile;
      unfold loadConfig, readJsonFile, read_and_parse, try_catch, throw;
      rewrite Hfile; intros [= _ <-]; eexists; (split; [reflexivity|]);
      cbn [err_message Error];
      (etransitivity; [|apply (prefix_append_nil "Failed to read JSON file ")]);
      exact (prefix_append "Failed to load config: " "Failed to read JSON file " _).
Qed.

Lemma mergeConfig_precedence_witness :
  exists merged,
    mergeConfig calm {["email" := JStr "ops@example.com"]} saved_world
    = (saved_world, Normal merged)
    /\ merged_email merged = JStr "ops@example.com"
    /\ merged_smtp_user merged = JStr "override"
    /\ merged_smtp_port merged = 587.
Proof.
  destruct (mergeConfig calm {["email" := JStr "ops@example.com"]} saved_world)
    as [w' r] eqn:Hrun.
  destruct (mergeConfig_precedence calm _ _ _ _ Hrun) as (-> & Hobj & _).
  destruct (Hobj (<["defaultEmail" := JStr "dba@example.com"]>
                    (<["smtp" := JObj {["user" := JStr "mailer"]}]> ∅)))
    as (merged & -> & He & _ & _ & _ & _ & Hu & _ & _ & _ & _ & _ & Hp).
  { right. reflexivity. }
  exists merged. split; [reflexivity|].
  split; [apply He; reflexivity|]. split; [apply Hu; reflexivity|].
  apply Hp; reflexivity.
Defined.

(** ** The backup command: before, after and around the pipeline *)

(** X21: a backup command whose merged settings fail a check (no keys path,
    no recipient, no database name, no SMTP credentials when a mail is to be
    sent) reports the first failing check and exits with status 1 before any
    work is done: no file is written, no command is spawned, no file-system
    call that changes something is issued, the clock is not read and the
    process environment is not changed.  The checks on the recipient and on
    the credentials are waived by options.noEmail only, a property that the
    command line never sets: there (noEmail false) a run with a keys path
    and without recipient fails with the message on the email, with or
    without --no-email. *)
Theorem backup_command_preflight (E : Env) (config : Config) (options : BackupOptions)
    (w : World) (msg : string) :
  preflight_error config options = Some msg ->
  (exists w',
     backup_command E config options w = (w', Normal tt)
     /\ exit_code w' = Some 1
     /\ console w' = app (console w)
                         ["🔐 Starting quantum database backup..." ++ nl;
                          nl ++ "❌ Error: " ++ msg]
     /\ fs w' = fs w /\ spawned w' = spawned w /\ syscalls w' = syscalls w
     /\ ticks w' = ticks w /\ process_env w' = process_env w)
  /\ (noEmail options = false ->
      truthy (cfg_keys config) = true -> truthy (cfg_email config) = false ->
      msg = "Email not specified. Run " ++ dq ++ "qdb init" ++ dq
            ++ " or use --email option.").
Proof.
  unfold preflight_error, backup_command, backup_produce. intros Hmsg. split.
  - destruct (truthy (cfg_keys config)), (truthy (cfg_email config)), (noEmail options),
      (truthy (cfg_dbName config)), (truthy (smtp_user config)),
      (truthy (smtp_pass config));
      cbn [negb andb orb] in Hmsg; try discriminate; injection Hmsg as <-;
      eexists; (split; [reflexivity|]); cbn; rewrite <- app_assoc; repeat split.
  - intros Hno Hkeys Hemail. rewrite Hno, Hkeys, Hemail in Hmsg.
    cbn [negb andb orb] in Hmsg. injection Hmsg as <-. reflexivity.
Qed.

Lemma backup_command_preflight_witness :
  exists w',
    backup_command calm no_keys plain_options keys_on_disk = (w', Normal tt)
    /\ exit_code w' = Some 1
    /\ fs w' = fs keys_on_disk /\ spawned w' = [].
Proof.
  destruct (backup_command_preflight calm no_keys plain_options keys_on_disk
              ("Keys path not specified. Run " ++ dq ++ "qdb init" ++ dq
               ++ " or use --keys option.") eq_refl)
    as ((w' & Hrun & Hexit & _ & Hfs & Hsp & _) & _).
  exists w'. auto.
Defined.

Lemma deleteFile_normal (E : Env) (p : string) (w w' : World) :
  deleteFile E p w = (w', Normal tt) ->
  (forall q, q <> p -> fs w' !! q = fs w !! q)
  /\ (refuses E OpUnlink p = None -> fs w' !! p = None)
  /\ exit_code w' = exit_code w.
Proof.
  unfold deleteFile, try_catch, fs_unlink. cbn.
  destruct (refuses E OpUnlink p) as [e|].
  - destruct (negb (bool_decide (err_code e = Some "ENOENT"))); [discriminate|].
    intros [= <-]. cbn. repeat split; auto. discriminate.
  - destruct (blocked (fs w) p); [cbn; discriminate|].
    destruct (fs w !! p) as [[|v]|] eqn:Hp; cbn.
    + discriminate.
    + intros [= <-]. cbn. repeat split.
      * intros q Hq. apply lookup_delete_ne. congruence.
      * intros _. apply lookup_delete_eq.
    + intros [= <-]. cbn. repeat split; auto.
Qed.

Lemma quiet_In (w w' : World) (line : string) :
  quiet w w' -> In line (console w) -> In line (console w').
Proof. intros [_ [lines ->]] H. apply in_or_app. left. exact H. Qed.

Lemma configExists_quiet (E : Env) : always (configExists E) quiet.
Proof.
  unfold configExists. apply (always_try_catch _ quiet_trans).
  - apply (always_bind _ quiet_trans); [apply fs_access_quiet|].
    intros _. apply (always_ret _ quiet_refl).
  - intros e. apply (always_ret _ quiet_refl).
Qed.

(** The files a successful [backup_produce] hands on are those of a
    successful [createBackup] with the supabase provider. *)
Lemma backup_produce_files (E : Env) (config : Config) (options : BackupOptions)
    (w w1 : World) (files : BackupFiles) (enc : string) :
  backup_produce E config options w = (w1, Normal (files, enc)) ->
  exists wa wb,
    createBackup E (to_string (cfg_dbName config)) (cfg_workDir config) "supabase" ∅ wa
    = (wb, Normal files).
Proof.
  unfold backup_produce. intros H.
  apply bind_normal_inv in H as (v1 & [] & _ & H).
  apply bind_normal_inv in H as (v2 & [] & _ & H).
  apply bind_normal_inv in H as (v3 & [] & _ & H).
  apply bind_normal_inv in H as (v4 & [] & _ & H).
  apply bind_normal_inv in H as (v5 & [] & _ & H).
  apply bind_normal_inv in H as (v6 & [] & _ & H). cbv zeta in H.
  apply bind_normal_inv in H as (v7 & keys & _ & H).
  apply bind_normal_inv in H as (v8 & [] & _ & H).
  apply bind_normal_inv in H as (v9 & [] & _ & H).
  apply bind_normal_inv in H as (v10 & made & Hmade & H).
  apply bind_normal_inv in H as (v11 & [] & _ & H).
  apply bind_normal_inv in H as (v12 & [] & _ & H).
  apply bind_normal_inv in H as (v13 & [] & _ & H). cbv zeta in H.
  apply bind_normal_inv in H as (v14 & [] & _ & H).
  apply bind_normal_inv in H as (v15 & fileSize & _ & H).
  apply bind_normal_inv in H as (v16 & [] & _ & H).
  apply bind_normal_inv in H as (v17 & [] & _ & H).
  injection H as _ <- _. eauto.
Qed.

(** The encrypted artifact is neither the dump nor the archive. *)
Lemma encrypted_apart (E : Env) (dbName workDir providerName : string) (options : JsObj)
    (wa wb : World) (files : BackupFiles) :
  createBackup E dbName workDir providerName options wa = (wb, Normal files) ->
  zipFile files ++ ".encrypted" <> dumpFile files
  /\ zipFile files ++ ".encrypted" <> zipFile files.
Proof.
  intros Hrun.
  destruct (createBackup_files _ _ _ _ _ _ _ _ Hrun)
    as (w0 & provider & _ & Hreg & _ & Hd & _ & _).
  split; intros Heq.
  - apply (f_equal last_char) in Heq.
    destruct (registered_extension E provider Hreg) as (x & Hx & Hxd).
    rewrite Hd, (last_char_backup_path _ _ _ _ _ Hx), last_char_append in Heq.
    cbn in Heq. congruence.
  - apply (f_equal String.length) in Heq. rewrite length_append in Heq. cbn in Heq. lia.
Qed.

(** The closing lines of the command, after the clean-up. *)
Lemma backup_conclude_tail (E : Env) (options : BackupOptions) (enc : string)
    (w w' : World) (r : Completion unit) :
  (console_log "✅ Backup process completed successfully!";;
   console_log ("📦 Encrypted backup: " ++ enc);;
   when (negb (keepFiles options))
     (console_log (nl ++ "⚠️  IMPORTANT: Keep your keys.json file safe!");;
      console_log "   Without it, you cannot decrypt this backup.");;
   saved ← configExists E;
   when saved (console_log (nl ++ "📁 Using config from: " ++ getConfigPath E))) w
  = (w', r) ->
  r = Normal tt /\ fs w' = fs w /\ In ("📦 Encrypted backup: " ++ enc) (console w')
  /\ syscalls w' = syscalls w /\ exit_code w' = exit_code w.
Proof.
  rewrite bind_run. cbn [console_log]. rewrite bind_run. cbn [console_log].
  rewrite bind_run. unfold configExists, try_catch, fs_access.
  destruct (keepFiles options); cbn [negb when]; munfold; cbn [console_log];
    match goal with
    | |- context [exists_at ?x ?p] => destruct (exists_at x p)
    end; cbn; intros [= <- <-]; cbn;
    (split; [reflexivity|]); (split; [reflexivity|]); (split; [|split; reflexivity]);
    rewrite ?in_app_iff; cbn; tauto.
Qed.

(** X22: when the pipeline and the delivery have succeeded and the closing
    part of the backup command goes through, the command resolves without
    calling process.exit; the encrypted artifact exists and its path is on
    the console.  With --keep-files no file is deleted; without it, and when
    the operating system does not refuse the two deletions, the dump and the
    archive are gone and every other file is as the pipeline left it. *)
Theorem backup_command_success (E : Env) (config : Config) (options : BackupOptions)
    (w w1 w2 w3 : World) (files : BackupFiles) (enc : string) :
  backup_produce E config options w = (w1, Normal (files, enc)) ->
  backup_deliver E config options enc w1 = (w2, Normal tt) ->
  backup_conclude E options files enc w2 = (w3, Normal tt) ->
  backup_command E config options w = (w3, Normal tt)
  /\ exit_code w3 = exit_code w2
  /\ exists_at w3 enc = true
  /\ In ("📦 Encrypted backup: " ++ enc) (console w3)
  /\ (keepFiles options = true -> fs w3 = fs w1)
  /\ (keepFiles options = false ->
      refuses E OpUnlink (dumpFile files) = None ->
      refuses E OpUnlink (zipFile files) = None ->
      fs w3 !! dumpFile files = None /\ fs w3 !! zipFile files = None
      /\ forall q, q <> dumpFile files -> q <> zipFile files -> fs w3 !! q = fs w1 !! q).
Proof.
  intros Hprod Hdel Hconc.
  assert (Hcmd : backup_command E config options w = (w3, Normal tt)).
  { unfold backup_command, try_catch.
    rewrite (bind_normal _ _ _ _ _ Hprod). cbn [fst snd].
    rewrite (bind_normal _ _ _ _ _ Hdel), Hconc. reflexivity. }
  split; [exact Hcmd|].
  destruct (backup_produce_normal _ _ _ _ _ _ _ Hprod) as (Henc & _ & Hd1 & Hz1 & He1).
  destruct (backup_produce_files _ _ _ _ _ _ _ Hprod) as (wa & wb & Hmade).
  destruct (encrypted_apart _ _ _ _ _ _ _ _ Hmade) as [Hed Hez]. rewrite <- Henc in Hed, Hez.
  destruct (backup_deliver_quiet _ _ _ _ _ _ _ Hdel) as [Hfs2 _].
  unfold backup_conclude in Hconc.
  apply bind_normal_inv in Hconc as (v1 & [] & Hclean & Htail).
  apply backup_conclude_tail in Htail as (_ & Hfs3 & Hline & _ & Hexit).
  destruct (keepFiles options) eqn:Hkeep; cbn [negb when] in Hclean.
  - injection Hclean as <-.
    split; [exact Hexit|]. split; [unfold exists_at in *; rewrite Hfs3, Hfs2; exact He1|].
    split; [exact Hline|]. split; [intros _; congruence | discriminate].
  - apply bind_normal_inv in Hclean as (c1 & [] & Hl1 & Hclean).
    apply console_log_inv in Hl1 as [-> _].
    apply bind_normal_inv in Hclean as (c2 & [] & Hdd & Hclean).
    apply bind_normal_inv in Hclean as (c3 & [] & Hdz & Hclean).
    apply console_log_inv in Hclean as [-> _].
    destruct (deleteFile_normal _ _ _ _ Hdd) as (Hoff_d & Hgone_d & Hexit_d).
    destruct (deleteFile_normal _ _ _ _ Hdz) as (Hoff_z & Hgone_z & Hexit_z).
    cbn [fs exit_code with_console] in *.
    assert (Hoff : forall q, q <> dumpFile files -> q <> zipFile files ->
                             fs w3 !! q = fs w1 !! q).
    { intros q Hqd Hqz. rewrite Hfs3. cbn. rewrite (Hoff_z q Hqz), (Hoff_d q Hqd), Hfs2.
      reflexivity. }
    split; [rewrite Hexit; cbn; congruence|].
    split.
    { unfold exists_at in *. rewrite (Hoff enc) by congruence. exact He1. }
    split; [exact Hline|]. split; [discriminate|].
    intros _ Hrd Hrz. split; [|split; [|exact Hoff]].
    + rewrite Hfs3. cbn.
      destruct (String.eq_dec (dumpFile files) (zipFile files)) as [Heq|Hne].
      * rewrite Heq. apply Hgone_z, Hrz.
      * rewrite (Hoff_z _ Hne). apply Hgone_d, Hrd.
    + rewrite Hfs3. cbn. apply Hgone_z, Hrz.
Qed.

Lemma backup_command_success_witness :
  exists w3,
    backup_command calm nightly quiet_night keys_on_disk = (w3, Normal tt)
    /\ exit_code w3 = None
    /\ exists_at w3 "/var/backups/supabase-backup-20240105-130709-orders_db.zip.encrypted"
       = true
    /\ fs w3 !! "/var/backups/supabase-backup-20240105-130709-orders_db.sql" = None
    /\ fs w3 !! "/var/backups/supabase-backup-20240105-130709-orders_db.zip" = None.
Proof.
  destruct (backup_produce calm nightly quiet_night keys_on_disk) as [w1 r1] eqn:Hprod.
  assert (Hr1 : r1 = Normal
            (mkBackupFiles "/var/backups/supabase-backup-20240105-130709-orders_db.sql"
                           "/var/backups/supabase-backup-20240105-130709-orders_db.zip",
             "/var/backups/supabase-backup-20240105-130709-orders_db.zip.encrypted"))
    by (vm_compute in Hprod; congruence).
  subst r1.
  destruct (backup_deliver calm nightly quiet_night
              "/var/backups/supabase-backup-20240105-130709-orders_db.zip.encrypted" w1)
    as [w2 r2] eqn:Hdel.
  assert (Hw2 : (w2, r2) = (w1, Normal tt)) by (rewrite <- Hdel; reflexivity).
  injection Hw2 as -> ->.
  destruct (backup_conclude calm quiet_night
              (mkBackupFiles "/var/backups/supabase-backup-20240105-130709-orders_db.sql"
                             "/var/backups/supabase-backup-20240105-130709-orders_db.zip")
              "/var/backups/supabase-backup-20240105-130709-orders_db.zip.encrypted" w1)
    as [w3 r3] eqn:Hconc.
  assert (Hr3 : r3 = Normal tt /\ exit_code w1 = None).
  { vm_compute in Hprod. injection Hprod as <-. vm_compute in Hconc.
    split; [congruence | reflexivity]. }
  destruct Hr3 as [-> Hex1].
  destruct (backup_command_success calm nightly quiet_night keys_on_disk w1 w1 w3 _ _
              Hprod Hdel Hconc) as (Hcmd & Hexit & Henc & _ & _ & Hgone).
  exists w3. split; [exact Hcmd|]. split; [congruence|]. split; [exact Henc|].
  destruct (Hgone eq_refl eq_refl eq_refl) as (Hd & Hz & _). split; assumption.
Defined.

(** X23: when the operating system refuses to delete the dump after a
    backup that was produced and delivered (with an error other than
    ENOENT), the command reports that error and exits with status 1 although
    the encrypted artifact is in place; the deletion of the archive is not
    attempted and no file is deleted. *)
Theorem backup_command_cleanup_failure (E : Env) (config : Config)
    (options : BackupOptions) (w w1 w2 : World) (files : BackupFiles) (enc : string)
    (e : JsError) (content : option JsVal) :
  backup_produce E config options w = (w1, Normal (files, enc)) ->
  backup_deliver E config options enc w1 = (w2, Normal tt) ->
  keepFiles options = false ->
  fs w1 !! dumpFile files = Some (File content) ->
  refuses E OpUnlink (dumpFile files) = Some e ->
  err_code e <> Some "ENOENT" ->
  exists w3,
    backup_command E config options w = (w3, Normal tt)
    /\ exit_code w3 = Some 1
    /\ last (console w3) = Some (nl ++ "❌ Error: " ++ err_message e)
    /\ fs w3 = fs w1
    /\ exists_at w3 enc = true
    /\ syscalls w3 = app (syscalls w2) [(OpUnlink, dumpFile files)].
Proof.
  intros Hprod Hdel Hkeep Hfile Href Hcode.
  destruct (backup_produce_normal _ _ _ _ _ _ _ Hprod) as (_ & _ & _ & _ & He1).
  destruct (backup_deliver_quiet _ _ _ _ _ _ _ Hdel) as [Hfs2 _].
  set (w2l := with_console (fun c => app c ["🧹 Cleaning up intermediate files..."]) w2).
  assert (Hdd : deleteFile E (dumpFile files) w2l
                = (record_call OpUnlink (dumpFile files) w2l, Throw e)).
  { unfold deleteFile, try_catch, fs_unlink. cbv zeta. rewrite Href.
    destruct (bool_decide (err_code e = Some "ENOENT")) eqn:Hdec;
      [apply bool_decide_eq_true in Hdec; contradiction | reflexivity]. }
  assert (Hconc : backup_conclude E options files enc w2
                  = (record_call OpUnlink (dumpFile files) w2l, Throw e)).
  { unfold backup_conclude. rewrite Hkeep. cbn [negb when].
    apply bind_throw.
    rewrite (bind_normal (console_log "🧹 Cleaning up intermediate files...") _
               w2 w2l tt eq_refl).
    apply bind_throw. exact Hdd. }
  eexists. split.
  - unfold backup_command, try_catch.
    rewrite (bind_normal _ _ _ _ _ Hprod). cbn [fst snd].
    rewrite (bind_normal _ _ _ _ _ Hdel), Hconc.
    rewrite bind_run. cbn [console_log]. reflexivity.
  - cbn. split; [reflexivity|]. split; [apply last_snoc|]. split; [exact Hfs2|].
    split; [|reflexivity]. unfold exists_at in *. cbn. rewrite Hfs2. exact He1.
Qed.

Lemma backup_command_cleanup_failure_witness :
  exists w3,
    backup_command busy nightly quiet_night keys_on_disk = (w3, Normal tt)
    /\ exit_code w3 = Some 1
    /\ exists_at w3 "/var/backups/supabase-backup-20240105-130709-orders_db.zip.encrypted"
       = true
    /\ exists_at w3 "/var/backups/supabase-backup-20240105-130709-orders_db.sql" = true.
Proof.
  destruct (backup_produce busy nightly quiet_night keys_on_disk) as [w1 r1] eqn:Hprod.
  assert (Hr1 : r1 = Normal
            (mkBackupFiles "/var/backups/supabase-backup-20240105-130709-orders_db.sql"
                           "/var/backups/supabase-backup-20240105-130709-orders_db.zip",
             "/var/backups/supabase-backup-20240105-130709-orders_db.zip.encrypted")
          /\ fs w1 !! "/var/backups/supabase-backup-20240105-130709-orders_db.sql"
             = Some (File None)).
  { vm_compute in Hprod. injection Hprod as <- <-. split; reflexivity. }
  destruct Hr1 as [-> Hfile].
  destruct (backup_command_cleanup_failure busy nightly quiet_night keys_on_disk w1 w1
              _ _ (SystemError "EBUSY"
                     ("resource busy or locked, unlink '"
                      ++ "/var/backups/supabase-backup-20240105-130709-orders_db.sql" ++ "'"))
              None Hprod eq_refl eq_refl Hfile eq_refl)
    as (w3 & Hcmd & Hexit & _ & Hfs & Henc & _); [discriminate|].
  exists w3. split; [exact Hcmd|]. split; [exact Hexit|]. split; [exact Henc|].
  unfold exists_at. rewrite Hfs, Hfile. reflexivity.
Defined.

(** ** restoreFromBackup: which stage failed *)

Lemma ensureDirectory_spawned (E : Env) (d : string) (w w' : World) (r : Completion unit) :
  ensureDirectory E d w = (w', r) -> spawned w' = spawned w.
Proof.
  unfold ensureDirectory, try_catch, fs_access, fs_mkdir_recursive.
  destruct (exists_at w d); [intros [= <- _]; reflexivity|].
  cbn. destruct (refuses E OpMkdir d); [intros [= <- _]; reflexivity|].
  destruct (blocked (fs w) d); [intros [= <- _]; reflexivity|].
  destruct (is_file (fs w !! d)); intros [= <- _]; reflexivity.
Qed.

Lemma ensureDirectory_throw (E : Env) (d : string) (w w' : World) (e : JsError) :
  ensureDirectory E d w = (w', Throw e) -> fs w' = fs w /\ exists_at w d = false.
Proof.
  unfold ensureDirectory, try_catch, fs_access, fs_mkdir_recursive.
  destruct (exists_at w d); [discriminate|].
  cbn. destruct (refuses E OpMkdir d); [intros [= <- _]; auto|].
  destruct (blocked (fs w) d); [intros [= <- _]; auto|].
  destruct (is_file (fs w !! d)); [intros [= <- _]; auto | discriminate].
Qed.

Lemma decryptBackupFile_spawned (E : Env) (inputFile outputFile : string) (keys : JsVal)
    (w w' : World) (r : Completion unit) :
  decryptBackupFile E inputFile outputFile keys w = (w', r) -> spawned w' = spawned w.
Proof.
  unfold decryptBackupFile, try_catch, fs_access, run_cipher, lift, throw.
  rewrite !bind_run.
  destruct (exists_at w inputFile); [|intros [= <- _]; reflexivity].
  rewrite bind_run.
  destruct (key_of keys "privateKey");
    [|intros [= <- _]; reflexivity|intros [= <- _]; reflexivity].
  rewrite bind_run.
  destruct (failure _); [intros [= <- _]; reflexivity|].
  match goal with
  | |- context [exists_at ?x ?p] => destruct (exists_at x p)
  end; intros [= <- _]; reflexivity.
Qed.

Lemma restore_cleanup_spawned (E : Env) (workDir : string) (w w' : World)
    (r : Completion unit) :
  restore_cleanup E workDir w = (w', r) -> spawned w' = spawned w /\ r = Normal tt.
Proof.
  unfold restore_cleanup, try_catch, fs_rm_recursive_force. cbn.
  destruct (refuses E OpRm workDir); intros [= <- <-]; auto.
Qed.

(** The errors of the later stages do not read as errors of the decryption. *)
Lemma registered_restore_error (E : Env) (p : Provider) (dumpPath : string)
    (options : JsObj) (w w' : World) (e : JsError) :
  registered E p ->
  restoreFromDump p dumpPath options w = (w', Throw e) ->
  String.prefix "Decryption failed: " (err_message e) = false.
Proof.
  unfold registered. cbn. intros [<-|[<-|[<-|[<-|[<-|[]]]]]]; cbn [restoreFromDump];
    unfold supabase_restoreFromDump, mongodb_restoreFromDump, mysql_restoreFromDump,
           postgres_restoreFromDump;
    intros H; apply try_catch_rethrow_throw in H as (e0 & _ & ->); reflexivity.
Qed.

(** X24: an error of restoreFromBackup whose message starts with
    Decryption failed means that no external command was run: neither unzip
    nor the restore tool of the provider was spawned, the database was not
    touched. *)
Theorem restoreFromBackup_decryption_error (E : Env) (encryptedBackupPath : string)
    (keys : JsVal) (providerName : string) (providerOptions : JsObj) (workDir : string)
    (w w' : World) (e : JsError) :
  restoreFromBackup E encryptedBackupPath keys providerName providerOptions workDir w
    = (w', Throw e) ->
  String.prefix "Decryption failed: " (err_message e) = true ->
  spawned w' = spawned w.
Proof.
  intros Hrun Hmsg. unfold restoreFromBackup in Hrun.
  apply bind_throw_inv in Hrun as [(e' & Hens & _)|(w0 & [] & Hens & Hrun)];
    [exact (ensureDirectory_spawned _ _ _ _ _ Hens)|].
  cbv zeta in Hrun. rewrite try_finally_run in Hrun.
  destruct (restore_stages _ _ _ _ _ _ _ w0) as [w1 r1] eqn:Hst.
  destruct (restore_cleanup E workDir w1) as [w2 c] eqn:Hcl.
  apply restore_cleanup_spawned in Hcl as [Hsp2 ->].
  destruct r1 as [a|e1|]; try discriminate. injection Hrun as <- ->.
  rewrite Hsp2, <- (ensureDirectory_spawned _ _ _ _ _ Hens). clear Hsp2 Hens.
  unfold restore_stages in Hst.
  apply bind_throw_inv in Hst as [(e' & H & _)|(v1 & [] & H1 & Hst)]; [discriminate|].
  apply console_log_inv in H1 as [-> _].
  apply bind_throw_inv in Hst as [(e' & H & _)|(v2 & [] & H2 & Hst)];
    [exact (decryptBackupFile_spawned _ _ _ _ _ _ _ H)|].
  apply decryptBackupFile_spawned in H2. cbn [spawned with_console] in H2.
  apply bind_throw_inv in Hst as [(e' & H & _)|(v3 & [] & H3 & Hst)]; [discriminate|].
  apply console_log_inv in H3 as [-> _].
  apply bind_throw_inv in Hst as [(e' & H & _)|(v4 & [] & H4 & Hst)]; [discriminate|].
  apply console_log_inv in H4 as [-> _].
  apply bind_throw_inv in Hst as [(e' & H & [= <-])|(v5 & dumpFilePath & _ & Hst)].
  - unfold extractZipArchive in H.
    apply bind_throw_inv in H as [(e' & H & [= <-])|(v & [] & _ & H)].
    + rewrite (ensureDirectory_spawned _ _ _ _ _ H). exact H2.
    + apply try_catch_rethrow_throw in H as (e0 & _ & ->). discriminate.
  - apply bind_throw_inv in Hst as [(e' & H & _)|(v6 & [] & _ & Hst)]; [discriminate|].
    apply bind_throw_inv in Hst as [(e' & H & [= <-])|(v7 & provider & Hsel & Hst)].
    + exfalso. revert H Hmsg. unfold select_provider.
      destruct (truthy (JStr providerName)); [|discriminate].
      unfold lift, getProvider.
      destruct (Map_get (providers E) (toLowerCase providerName)); [discriminate|].
      intros [= _ <-]. discriminate.
    + destruct (select_provider_run E providerName v6) as (c & Hsel' & Hreg).
      rewrite Hsel' in Hsel. injection Hsel as _ ->. specialize (Hreg _ eq_refl).
      apply bind_throw_inv in Hst as [(e' & H & _)|(v8 & [] & _ & Hst)]; [discriminate|].
      apply bind_throw_inv in Hst as [(e' & H & [= <-])|(v9 & [] & _ & Hst)].
      * rewrite (registered_restore_error _ _ _ _ _ _ _ Hreg H) in Hmsg. discriminate.
      * apply bind_throw_inv in Hst as [(e' & H & _)|(v10 & [] & _ & Hst)]; discriminate.
Qed.

Lemma restoreFromBackup_decryption_error_witness :
  spawned (restoreFromBackup obliging "/srv/orders.zip.encrypted" good_keys "supabase" ∅
             "restore-temp" empty_world).1 = [].
Proof.
  destruct (restoreFromBackup obliging "/srv/orders.zip.encrypted" good_keys "supabase" ∅
              "restore-temp" empty_world) as [w' r] eqn:Hrun.
  assert (Hr : r = Throw (Error ("Decryption failed: ENOENT: no such file or directory, "
                                  ++ "access '/srv/orders.zip.encrypted'")))
    by (vm_compute in Hrun; injection Hrun as _ <-; reflexivity).
  subst r.
  exact (restoreFromBackup_decryption_error obliging _ _ _ _ _ _ _ _ Hrun eq_refl).
Defined.

(** ** extractZipArchive *)

Lemma drop_chars_append (a b : string) : drop_chars (String.length a) (a ++ b) = b.
Proof.
  induction a as [|c a IH]; cbv [String.append]; fold String.append; [reflexivity|].
  cbn. exact IH.
Qed.

Lemma is_dump_name_nonempty (name : string) : is_dump_name name = true -> name <> "".
Proof. intros H ->. discriminate. Qed.

Lemma child_name_of_join (dir name : string) :
  includes name "/" = false -> name <> "" -> child_name dir (path_join dir name) = Some name.
Proof.
  intros Hslash Hne. unfold child_name, path_join.
  rewrite <- append_assoc, prefix_append_nil.
  replace (String.length dir + 1)%nat with (String.length (dir ++ "/"))
    by (rewrite length_append; reflexivity).
  rewrite drop_chars_append, Hslash.
  apply String.eqb_neq in Hne. rewrite Hne. reflexivity.
Qed.

Lemma child_name_flat (dir q name : string) :
  child_name dir q = Some name -> includes name "/" = false.
Proof.
  unfold child_name. destruct (String.prefix (dir ++ "/") q); [|discriminate].
  destruct (includes _ "/") eqn:Hinc; [discriminate|].
  cbn. destruct (String.eqb _ ""); [discriminate|]. intros [= <-]. exact Hinc.
Qed.

Lemma child_name_nonempty (dir q name : string) :
  child_name dir q = Some name -> name <> "".
Proof.
  unfold child_name. destruct (String.prefix (dir ++ "/") q); [|discriminate].
  destruct (includes _ "/"); [discriminate|].
  cbn. destruct (String.eqb _ "") eqn:He; [discriminate|].
  intros [= <-]. apply String.eqb_neq, He.
Qed.

(** What [fs.readdir] lists: the direct entries of the directory. *)
Lemma fs_readdir_entries (dir : string) (w : World) :
  fs w !! dir = Some Dir ->
  exists files,
    fs_readdir dir w = (w, Normal files)
    /\ forall name, In name files
                    <-> (exists_at w (path_join dir name) = true
                         /\ includes name "/" = false /\ name <> "").
Proof.
  intros Hdir. unfold fs_readdir. rewrite Hdir. eexists. split; [reflexivity|].
  intros name. rewrite <- list_elem_of_In, list_elem_of_omap. split.
  - intros ([q node] & Hq & Hname). apply elem_of_map_to_list in Hq. cbn in Hname.
    pose proof (child_name_flat _ _ _ Hname) as Hflat.
    pose proof (child_name_nonempty _ _ _ Hname) as Hne.
    apply child_name_join in Hname as <-. unfold exists_at. rewrite Hq. auto.
  - intros (Hex & Hflat & Hne). unfold exists_at in Hex.
    destruct (fs w !! path_join dir name) as [node|] eqn:Hq; [|discriminate].
    exists (path_join dir name, node). split; [apply elem_of_map_to_list, Hq|].
    cbn. apply child_name_of_join; assumption.
Qed.

(** X25: extractZipArchive resolves only with the path of a direct entry of
    the output directory that has one of the dump extensions and exists.
    After an unzip that did not fail, it resolves exactly when the output
    directory then holds such an entry, be it from the archive or from
    before; when there is none it rejects with No database dump file found
    in archive, wrapped as a failure to extract. *)
Theorem extractZipArchive_contract (E : Env) (zipPath outputDir : string)
    (w w' : World) (r : Completion string) :
  extractZipArchive E zipPath outputDir w = (w', r) ->
  (forall p, r = Normal p ->
     exists name, p = path_join outputDir name /\ is_dump_name name = true
                  /\ includes name "/" = false /\ exists_at w' p = true)
  /\ (failure (tool E ("unzip -o " ++ dq ++ zipPath ++ dq ++ " -d " ++ dq ++ outputDir ++ dq))
      = None ->
      fs w' !! outputDir = Some Dir ->
      ((forall name, exists_at w' (path_join outputDir name) = true ->
                     includes name "/" = false -> is_dump_name name = false) ->
       r = Throw (Error "Failed to extract archive: No database dump file found in archive"))
      /\ (forall name, exists_at w' (path_join outputDir name) = true ->
                       includes name "/" = false -> is_dump_name name = true ->
                       exists p, r = Normal p)).
Proof.
  unfold extractZipArchive. intros H.
  apply bind_inv in H as [(e & Hens & ->)|[(w1 & [] & Hens & H)|[Hens _]]];
    [| |destruct (ensureDirectory_settles _ _ _ _ _ Hens eq_refl)].
  - split; [discriminate|]. intros _ Hdir. exfalso.
    apply ensureDirectory_throw in Hens as [Hfs Hex]. unfold exists_at in Hex.
    rewrite <- Hfs, Hdir in Hex. discriminate.
  - unfold try_catch in H. rewrite bind_run in H. unfold execAsync at 1 in H.
    cbv zeta in H.
    set (cmd := "unzip -o " ++ dq ++ zipPath ++ dq ++ " -d " ++ dq ++ outputDir ++ dq) in *.
    destruct (failure (tool E cmd)) as [msg|] eqn:Hfail.
    { injection H as <- <-. split; [discriminate|]. discriminate. }
    set (w2 := with_spawned (fun l => app l [cmd])
                 (with_fs (deposit (OutDir outputDir) (tool E cmd)) w1)) in *.
    rewrite bind_run in H.
    destruct (fs w2 !! outputDir) as [[|c]|] eqn:Hdir.
    + destruct (fs_readdir_entries outputDir w2 Hdir) as (files & Hread & Hfiles).
      rewrite Hread in H.
      destruct (List.find is_dump_name files) as [name|] eqn:Hfind.
      * injection H as <- <-. apply find_some in Hfind as [Hmem Hname].
        apply Hfiles in Hmem as (Hex & Hflat & _).
        split.
        { intros p [= <-]. exists name. auto. }
        intros _ _. split; [|eauto].
        intros Hnone. rewrite (Hnone name Hex Hflat) in Hname. discriminate.
      * injection H as <- <-. split; [discriminate|].
        intros _ _. split; [reflexivity|].
        intros name Hex Hflat Hname. exfalso.
        assert (Hin : In name files)
          by (apply Hfiles; auto using is_dump_name_nonempty).
        pose proof (find_none _ _ Hfind _ Hin) as Hno. congruence.
    + unfold fs_readdir in H. rewrite Hdir in H. injection H as <- <-.
      split; [discriminate|]. intros _ Hdir'. congruence.
    + unfold fs_readdir in H. rewrite Hdir in H. injection H as <- <-.
      split; [discriminate|]. intros _ Hdir'. congruence.
Qed.

Lemma extractZipArchive_contract_witness :
  exists p,
    (extractZipArchive notes_only "restore-temp/decrypted-backup.zip"
       "restore-temp/extracted" stale_dump).2 = Normal p.
Proof.
  destruct (extractZipArchive notes_only "restore-temp/decrypted-backup.zip"
              "restore-temp/extracted" stale_dump) as [w' r] eqn:Hrun.
  destruct (extractZipArchive_contract notes_only _ _ _ _ _ Hrun) as (_ & Hafter).
  assert (Hw' : fs w' !! "restore-temp/extracted" = Some Dir
                /\ exists_at w' (path_join "restore-temp/extracted" "old.sql") = true)
    by (vm_compute in Hrun; injection Hrun as <- _; split; reflexivity).
  destruct Hw' as [Hdir Hold].
  destruct (Hafter eq_refl Hdir) as (_ & Hsome).
  exact (Hsome "old.sql" Hold eq_refl eq_refl).
Defined.
